(** * Incentive scheme engine (runScheme.js): a shallow embedding

    The development follows [src/runtime/schemes/runScheme.js]: the helper
    functions [safeGet], [parseDate], [compareDates], [formatDecimal],
    [evaluateCondition], [findManager], [calculateMarginalTieredPayout] and
    the orchestrating [runScheme].  JavaScript values are a small inductive
    type, thrown errors are a sum type, and the one write the run makes to
    its arguments ([scheme.payoutTiers]) is explicit state passing.  What the
    code prints on the console is not part of the embedding; strings are
    sequences of ASCII characters. *)

From Stdlib Require Import ZArith Lia Ascii String Sorted.
From stdpp Require Import gmap strings list fin_maps pretty.

Local Open Scope string_scope.
Local Open Scope Z_scope.

#[local] Set Warnings "-register-all".

(** ** Decimal values *)

(** Modelled from the spec: the arbitrary-precision decimal type of the npm
    dependency decimal.js, which is not among the sources.  A finite decimal
    is a coefficient and a power of ten.  Arithmetic is exact and then
    rounded to 20 significant digits, half away from zero (the library's
    defaults, set again at runScheme.js:417); comparisons and [max]/[min] are
    exact.  Infinity appears only as the upper end of an unbounded tier and
    is an [option] there; NaN and the sign of zero are not represented. *)
Module Dec.

Record t : Type := mk { coef : Z; expo : Z }.

#[global] Instance t_eq_dec : EqDecision t.
Proof. solve_decision. Defined.

Definition zero : t := mk 0 0.
Definition one : t := mk 1 0.
Definition of_Z (n : Z) : t := mk n 0.

(** Both coefficients brought to the smaller of the two exponents. *)
Definition align (a b : t) : Z * Z * Z :=
  let e := Z.min (expo a) (expo b) in
  (coef a * 10 ^ (expo a - e), coef b * 10 ^ (expo b - e), e).

Definition cmp (a b : t) : comparison :=
  let '(x, y, _) := align a b in Z.compare x y.

Definition equals (a b : t) : bool :=
  match cmp a b with Eq => true | _ => false end.
Definition lt (a b : t) : bool :=
  match cmp a b with Lt => true | _ => false end.
Definition gt (a b : t) : bool :=
  match cmp a b with Gt => true | _ => false end.
Definition lte (a b : t) : bool :=
  match cmp a b with Gt => false | _ => true end.
Definition gte (a b : t) : bool :=
  match cmp a b with Lt => false | _ => true end.

(** [Decimal.max(a, b)] and [Decimal.min(a, b)]: the first argument is kept
    unless the second is strictly beyond it. *)
Definition max (a b : t) : t := if lt a b then b else a.
Definition min (a b : t) : t := if gt a b then b else a.

(** [Decimal.min(tierTo, amount)] where [tierTo] may be [Decimal.Infinity]. *)
Definition min_inf (a : option t) (b : t) : t :=
  match a with
  | None => b
  | Some a' => min a' b
  end.

(** Number of decimal digits of the coefficient. *)
Definition ndigits (m : Z) : Z :=
  Z.of_nat (String.length (pretty (Z.abs m))).

Definition precision : Z := 20.

(** Rounding to [precision] significant digits, ROUND_HALF_UP. *)
Definition round (a : t) : t :=
  let d := ndigits (coef a) in
  if d <=? precision then a
  else
    let k := d - precision in
    let q := Z.abs (coef a) / 10 ^ k in
    let r := Z.abs (coef a) mod 10 ^ k in
    let q' := if 10 ^ k <=? 2 * r then q + 1 else q in
    mk (Z.sgn (coef a) * q') (expo a + k).

Definition plus (a b : t) : t :=
  let '(x, y, e) := align a b in round (mk (x + y) e).
Definition minus (a b : t) : t :=
  let '(x, y, e) := align a b in round (mk (x - y) e).
Definition times (a b : t) : t :=
  round (mk (coef a * coef b) (expo a + expo b)).
(** [x.dividedBy(100)], the only division the engine performs. *)
Definition div100 (a : t) : t :=
  round (mk (coef a) (expo a - 2)).

(** [x.toFixed(dp)]: half away from zero at [dp] decimal places, then the
    integer part, a point and exactly [dp] digits. *)
Definition scaled (dp : Z) (a : t) : Z :=
  let s := expo a + dp in
  if 0 <=? s then Z.abs (coef a) * 10 ^ s
  else
    let p := 10 ^ (- s) in
    let q := Z.abs (coef a) / p in
    if p <=? 2 * (Z.abs (coef a) mod p) then q + 1 else q.

Fixpoint zeros (n : nat) : string :=
  match n with
  | O => ""
  | S n' => String "0" (zeros n')
  end.

Definition pad_left (n : nat) (s : string) : string :=
  zeros (n - String.length s) ++ s.

Definition toFixed (dp : nat) (a : t) : string :=
  let n := scaled (Z.of_nat dp) a in
  let p := 10 ^ Z.of_nat dp in
  let body :=
    match dp with
    | O => pretty (n / p)
    | _ => pretty (n / p) ++ "." ++ pad_left dp (pretty (n mod p))
    end in
  if coef a <? 0 then "-" ++ body else body.

(** *** Reading a decimal literal

    The strings the constructor accepts in decimal notation: an optional
    sign, then digits with an optional fraction, or a fraction alone, then
    an optional exponent introduced by e or E with its own optional sign.
    On any other string the constructor throws; literals in the other
    notations of the library (hexadecimal, binary, octal, Infinity, NaN) are
    outside the model and read as invalid here. *)

Definition is_digit (c : ascii) : bool :=
  let n := nat_of_ascii c in (48 <=? n)%nat && (n <=? 57)%nat.

Definition digit_val (c : ascii) : Z := Z.of_nat (nat_of_ascii c) - 48.

Fixpoint take_digits (s : string) : list ascii * string :=
  match s with
  | String c s' =>
      if is_digit c then
        let '(ds, rest) := take_digits s' in (c :: ds, rest)
      else ([], s)
  | EmptyString => ([], s)
  end.

Definition digits_val (ds : list ascii) : Z :=
  fold_left (fun acc c => 10 * acc + digit_val c) ds 0.

Definition parse_exponent (s : string) : option Z :=
  match s with
  | EmptyString => Some 0
  | String c s' =>
      if (c =? "e")%char || (c =? "E")%char then
        let '(neg, s'') :=
          match s' with
          | String "-"%char r => (true, r)
          | String "+"%char r => (false, r)
          | _ => (false, s')
          end in
        match take_digits s'' with
        | ((_ :: _) as ds, EmptyString) =>
            Some (if neg : bool then - digits_val ds else digits_val ds)
        | _ => None
        end
      else None
  end.

Definition parse_unsigned (s : string) : option t :=
  let '(ip, rest) := take_digits s in
  let '(fp, rest') :=
    match rest with
    | String "."%char r => take_digits r
    | _ => ([], rest)
    end in
  let dotted := match rest with String "."%char _ => true | _ => false end in
  let shape_ok :=
    match ip, fp with
    | [], [] => false
    | [], _ :: _ => dotted
    | _ :: _, _ => true
    end in
  if shape_ok then
    e ← parse_exponent rest';
    Some (mk (digits_val (ip ++ fp)%list) (e - Z.of_nat (length fp)))
  else None.

Definition of_string (s : string) : option t :=
  match s with
  | String "-"%char r =>
      d ← parse_unsigned r; Some (mk (- coef d) (expo d))
  | String "+"%char r => parse_unsigned r
  | _ => parse_unsigned s
  end.

(** *** Printing in the notation of [Number.prototype.toString]

    Trailing zeros of the coefficient are dropped; with [k] digits left and
    the point after digit [n], values with [-6 < n <= 21] print positionally
    and the others with an exponent. *)

Fixpoint strip_zeros_rev (ds : list ascii) : list ascii * nat :=
  match ds with
  | c :: ds' =>
      if (c =? "0")%char then
        let '(r, n) := strip_zeros_rev ds' in (r, S n)
      else (ds, O)
  | [] => ([], O)
  end.

Definition string_of_chars (l : list ascii) : string :=
  fold_right String EmptyString l.

Definition to_string (a : t) : string :=
  if coef a =? 0 then "0"
  else
    let all := list_ascii_of_string (pretty (Z.abs (coef a))) in
    let '(rds, z) := strip_zeros_rev (rev all) in
    let ds := rev rds in
    let k := Z.of_nat (length ds) in
    let n := k + expo a + Z.of_nat z in
    let body :=
      if (k <=? n) && (n <=? 21) then
        string_of_chars ds ++ zeros (Z.to_nat (n - k))
      else if (0 <? n) && (n <=? 21) then
        string_of_chars (take (Z.to_nat n) ds) ++ "." ++
        string_of_chars (drop (Z.to_nat n) ds)
      else if (-6 <? n) && (n <=? 0) then
        "0." ++ zeros (Z.to_nat (- n)) ++ string_of_chars ds
      else
        let e := n - 1 in
        let es := (if e <? 0 then "-" else "+") ++ pretty (Z.abs e) in
        match ds with
        | [d] => String d ("e" ++ es)
        | d :: more => String d ("." ++ string_of_chars more ++ "e" ++ es)
        | [] => "0"
        end in
    if coef a <? 0 then "-" ++ body else body.

End Dec.

(** ** JavaScript values *)

(** The values that flow through the engine: the scalars a parsed CSV cell
    or a rule can hold, arrays and plain objects.  An object is its own
    properties in insertion order. *)
Inductive value : Type :=
  | VUndef
  | VNull
  | VBool (b : bool)
  | VNum (d : Dec.t)
  | VStr (s : string)
  | VArr (l : list value)
  | VObj (fs : list (string * value)).

(** Truthiness, as [!x] and [x && y] test it. *)
Definition truthy (v : value) : bool :=
  match v with
  | VUndef | VNull => false
  | VBool b => b
  | VNum d => negb (Dec.coef d =? 0)
  | VStr s => negb (String.eqb s "")
  | VArr _ | VObj _ => true
  end.

(** [v === null || v === undefined || v === ''] *)
Definition is_blank (v : value) : bool :=
  match v with
  | VUndef | VNull => true
  | VStr s => String.eqb s ""
  | _ => false
  end.

Fixpoint join_comma (l : list string) : string :=
  match l with
  | [] => ""
  | [s] => s
  | s :: l' => s ++ "," ++ join_comma l'
  end.

(** [String(v)] *)
Fixpoint js_String (v : value) : string :=
  match v with
  | VUndef => "undefined"
  | VNull => "null"
  | VBool true => "true"
  | VBool false => "false"
  | VNum d => Dec.to_string d
  | VStr s => s
  | VArr l =>
      join_comma
        (map (fun x => match x with
                       | VUndef | VNull => ""
                       | _ => js_String x
                       end) l)
  | VObj _ => "[object Object]"
  end.

(** *** String primitives (ASCII) *)

Definition is_space (c : ascii) : bool :=
  let n := nat_of_ascii c in
  ((9 <=? n)%nat && (n <=? 13)%nat) || (n =? 32)%nat.

Fixpoint drop_spaces (l : list ascii) : list ascii :=
  match l with
  | c :: l' => if is_space c then drop_spaces l' else l
  | [] => []
  end.

Definition trim (s : string) : string :=
  Dec.string_of_chars
    (rev (drop_spaces (rev (drop_spaces (list_ascii_of_string s))))).

Definition lower_char (c : ascii) : ascii :=
  let n := nat_of_ascii c in
  if (65 <=? n)%nat && (n <=? 90)%nat then ascii_of_nat (n + 32) else c.

Definition upper_char (c : ascii) : ascii :=
  let n := nat_of_ascii c in
  if (97 <=? n)%nat && (n <=? 122)%nat then ascii_of_nat (n - 32) else c.

Fixpoint map_string (f : ascii -> ascii) (s : string) : string :=
  match s with
  | EmptyString => EmptyString
  | String c s' => String (f c) (map_string f s')
  end.

Definition toLowerCase : string -> string := map_string lower_char.
Definition toUpperCase : string -> string := map_string upper_char.

Definition startsWith (s sub : string) : bool := String.prefix sub s.

Fixpoint includes (s sub : string) : bool :=
  String.prefix sub s ||
  match s with
  | EmptyString => false
  | String _ s' => includes s' sub
  end.

Definition rev_string (s : string) : string :=
  Dec.string_of_chars (rev (list_ascii_of_string s)).

Definition endsWith (s sub : string) : bool :=
  String.prefix (rev_string sub) (rev_string s).

(** [path.split('.')] *)
Fixpoint split_dot_aux (cur : list ascii) (s : string) : list string :=
  match s with
  | EmptyString => [Dec.string_of_chars (rev cur)]
  | String c s' =>
      if (c =? ".")%char then
        Dec.string_of_chars (rev cur) :: split_dot_aux [] s'
      else split_dot_aux (c :: cur) s'
  end.

Definition split_dot (s : string) : list string := split_dot_aux [] s.

(** *** Property access *)

Fixpoint assoc_get (k : string) (fs : list (string * value)) : option value :=
  match fs with
  | [] => None
  | (k', v) :: fs' => if String.eqb k k' then Some v else assoc_get k fs'
  end.

(** [obj[k] = v]: an existing property keeps its place. *)
Fixpoint assoc_set (k : string) (v : value) (fs : list (string * value))
  : list (string * value) :=
  match fs with
  | [] => [(k, v)]
  | (k', v') :: fs' =>
      if String.eqb k k' then (k, v) :: fs' else (k', v') :: assoc_set k v fs'
  end.

Fixpoint index_get (k : string) (i : nat) (l : list value) : value :=
  match l with
  | [] => VUndef
  | x :: l' => if String.eqb k (pretty i) then x else index_get k (S i) l'
  end.

(** [v[k]] for own properties of objects and elements of arrays; what the
    prototypes add ([length], methods) is outside the model. *)
Definition get_prop (v : value) (k : string) : value :=
  match v with
  | VObj fs => default VUndef (assoc_get k fs)
  | VArr l => index_get k 0 l
  | _ => VUndef
  end.

(** runScheme.js:24-41 *)
Definition safeGet (obj : value) (path : string) (defaultValue : value)
  : value :=
  if negb (truthy obj) then defaultValue
  else if String.eqb path "" then obj
  else
    fold_left
      (fun acc key =>
         if truthy acc then
           match get_prop acc key with
           | VUndef => defaultValue
           | v => v
           end
         else defaultValue)
      (split_dot path) obj.

(** ** Dates *)

(** A [Date] at UTC midnight, through the three getters the code reads. *)
Record Date : Type := mkDate {
  getUTCFullYear : Z;
  getUTCMonth : Z;
  getUTCDate : Z
}.

Definition is_leap (y : Z) : bool :=
  (y mod 4 =? 0) && (negb (y mod 100 =? 0) || (y mod 400 =? 0)).

Definition days_in_month (y m : Z) : Z :=
  if m =? 2 then (if is_leap y then 29 else 28)
  else if (m =? 4) || (m =? 6) || (m =? 9) || (m =? 11) then 30
  else 31.

(** [new Date(s + 'T00:00:00Z')] on a string of the shape dddd-dd-dd, as
    Node's engine reads it: months 1 to 12 and days 1 to 31 are accepted, and
    a day the month does not have runs over into the next month. *)
Definition make_date (y m d : Z) : option Date :=
  if (1 <=? m) && (m <=? 12) && (1 <=? d) && (d <=? 31) then
    let dim := days_in_month y m in
    if d <=? dim then Some (mkDate y (m - 1) d)
    else Some (mkDate y m (d - dim))
  else None.

(** runScheme.js:49-61 *)
Definition parseDate (dateString : value) : option Date :=
  match dateString with
  | VStr s =>
      match list_ascii_of_string s with
      | [y1; y2; y3; y4; "-"; m1; m2; "-"; d1; d2]%char =>
          if forallb Dec.is_digit [y1; y2; y3; y4; m1; m2; d1; d2] then
            make_date (Dec.digits_val [y1; y2; y3; y4])
                      (Dec.digits_val [m1; m2])
                      (Dec.digits_val [d1; d2])
          else None
      | _ => None
      end
  | _ => None
  end.

(** runScheme.js:69-94.  Both arguments are valid dates wherever the engine
    calls it, so the NaN answer of the guard has no counterpart here. *)
Definition compareDates (date1 date2 : Date) : Z :=
  let d1_year := getUTCFullYear date1 in
  let d1_month := getUTCMonth date1 in
  let d1_day := getUTCDate date1 in
  let d2_year := getUTCFullYear date2 in
  let d2_month := getUTCMonth date2 in
  let d2_day := getUTCDate date2 in
  if d1_year <? d2_year then -1
  else if d1_year >? d2_year then 1
  else if d1_month <? d2_month then -1
  else if d1_month >? d2_month then 1
  else if d1_day <? d2_day then -1
  else if d1_day >? d2_day then 1
  else 0.

(** runScheme.js:103-115, on a Decimal instance. *)
Definition formatDecimal (decimalValue : Dec.t) (precision : nat) : string :=
  Dec.toFixed precision decimalValue.

(** [new Decimal(v)]: [None] stands for the thrown DecimalError. *)
Definition toDecimal (v : value) : option Dec.t :=
  match v with
  | VNum d => Some d
  | VStr s => Dec.of_string s
  | _ => None
  end.

(** ** Condition evaluation (runScheme.js:125-245) *)

Definition evaluateCondition (recordValue : value) (operator : string)
    (ruleValue : value) (dataType : string) : bool :=
  if is_blank recordValue then
    String.eqb operator "=" && is_blank ruleValue
  else if is_blank ruleValue then
    if String.eqb operator "=" && is_blank recordValue then true
    else if String.eqb operator "!=" && negb (is_blank recordValue) then true
    else false
  else if String.eqb dataType "Number" then
    match toDecimal recordValue, toDecimal ruleValue with
    | Some rv, Some val =>
        if String.eqb operator "=" then Dec.equals rv val
        else if String.eqb operator "!=" then negb (Dec.equals rv val)
        else if String.eqb operator ">" then Dec.gt rv val
        else if String.eqb operator ">=" then Dec.gte rv val
        else if String.eqb operator "<" then Dec.lt rv val
        else if String.eqb operator "<=" then Dec.lte rv val
        else false
    | _, _ => false
    end
  else if String.eqb dataType "Date" then
    match parseDate (VStr (js_String recordValue)),
          parseDate (VStr (js_String ruleValue)) with
    | Some rv, Some val =>
        let comparison := compareDates rv val in
        if String.eqb operator "=" then comparison =? 0
        else if String.eqb operator "!=" then negb (comparison =? 0)
        else if String.eqb operator ">" then comparison =? 1
        else if String.eqb operator ">=" then comparison >=? 0
        else if String.eqb operator "<" then comparison =? -1
        else if String.eqb operator "<=" then comparison <=? 0
        else false
    | _, _ => false
    end
  else
    let rv := toLowerCase (trim (js_String recordValue)) in
    let val := toLowerCase (trim (js_String ruleValue)) in
    if String.eqb operator "=" then String.eqb rv val
    else if String.eqb operator "!=" then negb (String.eqb rv val)
    else if String.eqb operator "CONTAINS" then includes rv val
    else if String.eqb operator "STARTSWITH" then startsWith rv val
    else if String.eqb operator "ENDSWITH" then endsWith rv val
    else if String.eqb operator "NOT CONTAINS" then negb (includes rv val)
    else false.

(** ** Manager lookup (runScheme.js:257-306) *)

(** One row of the hierarchy dataset: [Some m] when the row matches the agent
    and the level, its window is valid and overlaps the run period, and it
    names a manager. *)
Definition manager_of_row (targetAgentId targetLevelUpper : string)
    (schemeEffectiveFrom runAsDate : Date) (row : value) : option string :=
  let rowAgentId := trim (js_String (safeGet row "AgentID" (VStr ""))) in
  let rowLevel := toUpperCase (trim (js_String (safeGet row "Level" (VStr "")))) in
  if String.eqb rowAgentId targetAgentId
     && String.eqb rowLevel targetLevelUpper then
    match parseDate (safeGet row "ReportsFrom" VUndef),
          parseDate (safeGet row "ReportsToEnd" VUndef) with
    | Some reportsFrom, Some reportsToEnd =>
        if (compareDates reportsFrom runAsDate <=? 0)
           && (compareDates reportsToEnd schemeEffectiveFrom >=? 0) then
          match safeGet row "ManagerID" VNull with
          | VNull => None
          | managerId =>
              if String.eqb (trim (js_String managerId)) "" then None
              else Some (trim (js_String managerId))
          end
        else None
    | _, _ => None
    end
  else None.

Fixpoint findManager_loop (targetAgentId targetLevelUpper : string)
    (schemeEffectiveFrom runAsDate : Date) (rows : list value)
  : option string :=
  match rows with
  | [] => None
  | row :: rows' =>
      match manager_of_row targetAgentId targetLevelUpper
              schemeEffectiveFrom runAsDate row with
      | Some m => Some m
      | None =>
          findManager_loop targetAgentId targetLevelUpper
            schemeEffectiveFrom runAsDate rows'
      end
  end.

(** The array and the two dates are objects, hence truthy: of the guard only
    the tests of [agentId] and [level] can fire. *)
Definition findManager (agentId level : string) (hierarchyData : list value)
    (schemeEffectiveFrom runAsDate : Date) : option string :=
  if String.eqb agentId "" || String.eqb level "" then None
  else
    findManager_loop agentId (toUpperCase level)
      schemeEffectiveFrom runAsDate hierarchyData.

(** ** Marginal tiered payout (runScheme.js:314-379) *)

(** A payout tier.  The numeric fields are JSON numbers; an absent [from] or
    [rate] reads as 0 ([tier.from || 0]), an absent or null [to] as
    unbounded, an absent [isPercentage] as true. *)
Record Tier : Type := mkTier {
  tier_id : string;
  tier_from : option Dec.t;
  tier_to : option Dec.t;
  tier_rate : option Dec.t;
  tier_isPercentage : option bool
}.

Definition from_or_0 (tier : Tier) : Dec.t := default Dec.zero (tier_from tier).
Definition rate_or_0 (tier : Tier) : Dec.t := default Dec.zero (tier_rate tier).
Definition isPercentage (tier : Tier) : bool :=
  match tier_isPercentage tier with
  | Some false => false
  | _ => true
  end.

(** [[...tiers].sort((a, b) => (Number(a.from) || 0) - (Number(b.from) || 0))]:
    a stable sort, ascending in [from]. *)
Fixpoint insert_tier (x : Tier) (l : list Tier) : list Tier :=
  match l with
  | [] => [x]
  | y :: l' =>
      if Dec.lte (from_or_0 x) (from_or_0 y) then x :: l
      else y :: insert_tier x l'
  end.

Definition sortedTiers (tiers : list Tier) : list Tier :=
  foldr insert_tier [] tiers.

Definition tierPayout (tier : Tier) (amountInTier : Dec.t) : Dec.t :=
  if isPercentage tier then
    Dec.div100 (Dec.times amountInTier (rate_or_0 tier))
  else Dec.times amountInTier (rate_or_0 tier).

(** The [for] loop with its two [break]s; the state is
    [(totalPayout, amountProcessed)]. *)
Fixpoint tier_loop (amount : Dec.t) (tiers : list Tier)
    (totalPayout amountProcessed : Dec.t) : Dec.t :=
  match tiers with
  | [] => totalPayout
  | tier :: rest =>
      let tierFrom := from_or_0 tier in
      if Dec.lte amount tierFrom || Dec.lte amount amountProcessed then
        totalPayout
      else
        let effectiveTierStart := Dec.max tierFrom amountProcessed in
        let effectiveTierEnd := Dec.min_inf (tier_to tier) amount in
        let amountInTier := Dec.minus effectiveTierEnd effectiveTierStart in
        let '(totalPayout', amountProcessed') :=
          if Dec.gt amountInTier Dec.zero then
            (Dec.plus totalPayout (tierPayout tier amountInTier),
             effectiveTierEnd)
          else (totalPayout, amountProcessed) in
        if Dec.gte amountProcessed' amount then totalPayout'
        else tier_loop amount rest totalPayout' amountProcessed'
  end.

Definition calculateMarginalTieredPayout (amount : Dec.t) (tiers : list Tier)
  : Dec.t :=
  match tiers with
  | [] => Dec.zero
  | _ => tier_loop amount (sortedTiers tiers) Dec.zero Dec.zero
  end.

(** The bracket rule in the words of the specification: every tier, in
    ascending order of [from], credits the slice from
    [max(from, amountAlreadyProcessed)] to [min(to or infinity, amount)] at
    its rate when the slice is positive, and the processed amount then moves
    to the end of the slice.  No tier is skipped and nothing stops the
    scan. *)
Fixpoint bracket_scan (amount : Dec.t) (tiers : list Tier)
    (total processed : Dec.t) : Dec.t :=
  match tiers with
  | [] => total
  | tier :: rest =>
      let effectiveStart := Dec.max (from_or_0 tier) processed in
      let effectiveEnd := Dec.min_inf (tier_to tier) amount in
      let slice := Dec.minus effectiveEnd effectiveStart in
      if Dec.gt slice Dec.zero then
        bracket_scan amount rest
          (Dec.plus total
             (if isPercentage tier
              then Dec.div100 (Dec.times slice (rate_or_0 tier))
              else Dec.times slice (rate_or_0 tier)))
          effectiveEnd
      else bracket_scan amount rest total processed
  end.

(** Ascending order of [from]. *)
Definition from_le (x y : Tier) : Prop :=
  Dec.lte (from_or_0 x) (from_or_0 y) = true.

Definition pct_tier (id : string) (lo : Z) (hi : option Z) (rate : Z) : Tier :=
  mkTier id (Some (Dec.of_Z lo)) (Dec.of_Z <$> hi) (Some (Dec.of_Z rate))
    (Some true).

Definition example_tiers : list Tier :=
  [ pct_tier "t1" 0 (Some 25000) 3;
    pct_tier "t2" 25000 (Some 125000) 7;
    pct_tier "t3" 125000 None 10 ].

(** ** The scheme definition and the run's data *)

Record Rule : Type := mkRule {
  rule_id : string;
  rule_field : string;
  rule_operator : string;
  rule_value : value
}.

Record Adjustment : Type := mkAdjustment {
  adj_target : string;
  adj_type : string;
  adj_value : Dec.t
}.

Record AdjustmentRule : Type := mkAdjustmentRule {
  arule_id : string;
  arule_condition : Rule;
  arule_adjustment : Adjustment
}.

Record CreditSplit : Type := mkCreditSplit {
  split_id : string;
  split_role : string;
  split_percentage : Dec.t
}.

(** An entry of a [kpiConfig] section; an absent property is the empty
    string, which every use of these properties treats like absence. *)
Record KpiField : Type := mkKpiField {
  kpi_name : string;
  kpi_sourceField : string;
  kpi_dataType : string;
  kpi_evaluationLevel : string;
  kpi_aggregation : string;
  kpi_sourceFile : string
}.

Record KpiConfig : Type := mkKpiConfig {
  kpi_baseData : list KpiField;
  kpi_qualificationFields : list KpiField;
  kpi_adjustmentFields : list KpiField;
  kpi_exclusionFields : list KpiField;
  kpi_creditFields : list KpiField
}.

Record BaseMapping : Type := mkBaseMapping {
  bm_sourceFile : string;
  bm_agentField : string;
  bm_amountField : string;
  bm_transactionDateField : string
}.

Record Scheme : Type := mkScheme {
  scheme_name : string;
  effectiveFrom : value;
  baseMapping : option BaseMapping;
  payoutTiers : option (list Tier);
  qualificationRules : list Rule;
  exclusionRules : list Rule;
  adjustmentRules : list AdjustmentRule;
  customRules : list value;
  creditSplits : list CreditSplit;
  creditHierarchyFile : string;
  kpiConfig : KpiConfig
}.

(** An entry of [fieldMap]. *)
Record FieldInfo : Type := mkFieldInfo {
  sourceField : string;
  dataType : string;
  evaluationLevel : string;
  aggregation : string;
  sourceFile : string
}.

Inductive RuleType : Type := Exclusion | Adjustment_ | Qualification | CreditSplit_.

Inductive LogDetails : Type :=
  | AdjustmentDetails (conditionField : string) (conditionValue : value)
      (adjustment : Adjustment)
      (originalAmount amountBeforeAdj rateMultiplierBeforeAdj : string)
  | SplitDetails (managerId role percentage splitAmount basePayout : string)
  | SplitFailureDetails (role percentage : string).

Record LogEntry : Type := mkLogEntry {
  ruleType : RuleType;
  ruleId : string;
  recordId : option value;
  agentId : string;
  message : string;
  details : option LogDetails;
  timestamp : string
}.

Record ProcessingStatus : Type := mkProcessingStatus {
  ps_originalAmount : string;
  ps_rateMultiplier : string;
  ps_adjustedAmount : string;
  ps_isExcluded : bool;
  ps_exclusionReason : option string;
  ps_adjustmentApplied : option string;
  ps_customRuleApplied : option string
}.

(** [{...record, _processingStatus: {...}}] *)
Record ProcessedRecord : Type := mkProcessedRecord {
  pr_record : value;
  _processingStatus : ProcessingStatus
}.

Record DistributionRecord : Type := mkDistributionRecord {
  dr_fromAgent : string;
  dr_role : string;
  dr_amount : string;
  dr_timestamp : string;
  dr_splitRuleId : string;
  dr_basePayoutFromAgent : string;
  dr_percentageApplied : string
}.

Record RunResult : Type := mkRunResult {
  agentPayouts : gmap string string;
  ruleHitLogs : gmap string (list LogEntry);
  creditDistributions : gmap string (list DistributionRecord);
  rawRecordLevelData : list ProcessedRecord
}.

(** *** Thrown errors

    The message of an [Error] is the text of the source without the quotation
    marks it puts around interpolated names. *)

Inductive exn : Type :=
  | Error (msg : string)
  | ReferenceError (identifier : string)
  | DecimalError (argument : value).

Inductive result (A : Type) : Type :=
  | Ok (a : A)
  | Throw (e : exn).
Arguments Ok {A} a.
Arguments Throw {A} e.

#[global] Instance result_ret : MRet result := fun A a => Ok a.
#[global] Instance result_bind : MBind result := fun A B f m =>
  match m with
  | Ok a => f a
  | Throw e => Throw e
  end.

Definition is_Ok {A} (r : result A) : Prop := exists a, r = Ok a.

(** [new Decimal(v)] where the error is not caught. *)
Definition newDecimal (v : value) : result Dec.t :=
  match toDecimal v with
  | Some d => Ok d
  | None => Throw (DecimalError v)
  end.

(** ** Field mapping (runScheme.js:489-542) *)

Definition add_kpi_field (fieldMap : gmap string FieldInfo) (f : KpiField)
  : gmap string FieldInfo :=
  if negb (String.eqb (kpi_name f) "")
     && negb (String.eqb (kpi_sourceField f) "") then
    <[kpi_name f :=
        mkFieldInfo (kpi_sourceField f)
          (if String.eqb (kpi_dataType f) "" then "String"
           else kpi_dataType f)
          (if String.eqb (kpi_evaluationLevel f) "" then "Per Record"
           else kpi_evaluationLevel f)
          (if String.eqb (kpi_aggregation f) "" then "NotApplicable"
           else kpi_aggregation f)
          (kpi_sourceFile f)]> fieldMap
  else fieldMap.

Definition allKpiSections (k : KpiConfig) : list (list KpiField) :=
  [ kpi_baseData k; kpi_qualificationFields k; kpi_adjustmentFields k;
    kpi_exclusionFields k; kpi_creditFields k ].

Definition add_default (name : string) (fi : FieldInfo)
    (fieldMap : gmap string FieldInfo) : gmap string FieldInfo :=
  match fieldMap !! name with
  | Some _ => fieldMap
  | None => <[name := fi]> fieldMap
  end.

Definition build_fieldMap (scheme : Scheme) (bm : BaseMapping)
  : gmap string FieldInfo :=
  let m0 := fold_left (fun m section => fold_left add_kpi_field section m)
              (allKpiSections (kpiConfig scheme)) ∅ in
  let m1 := add_default "Agent"
              (mkFieldInfo (bm_agentField bm) "String" "Per Record" ""
                 (bm_sourceFile bm)) m0 in
  let m2 := add_default "Amount"
              (mkFieldInfo (bm_amountField bm) "Number" "Per Record" ""
                 (bm_sourceFile bm)) m1 in
  add_default "TransactionDate"
    (mkFieldInfo (bm_transactionDateField bm) "Date" "Per Record" ""
       (bm_sourceFile bm)) m2.

(** ** Record selection (runScheme.js:549-615) *)

(** The own properties a spread [{...record}] copies. *)
Definition own_props (record : value) : list (string * value) :=
  match record with
  | VObj fs => fs
  | VArr l => imap (fun i x => (pretty i, x)) l
  | _ => []
  end.

Definition recordId_of (baseDataFile : string) (index : nat) : string :=
  baseDataFile ++ "-" ++ pretty index.

Definition with_identity (baseDataFile : string) (index : nat)
    (record : value) : value :=
  VObj (assoc_set "_recordId" (VStr (recordId_of baseDataFile index))
          (assoc_set "_originalIndex" (VNum (Dec.of_Z (Z.of_nat index)))
             (own_props record))).

Definition date_in_window (transactionDateField : string)
    (schemeStart runDate : Date) (record : value) : bool :=
  let recordDateStr := safeGet record transactionDateField VUndef in
  if is_blank recordDateStr then false
  else
    match parseDate (VStr (js_String recordDateStr)) with
    | None => false
    | Some recordDate =>
        let isAfterStart := compareDates recordDate schemeStart >=? 0 in
        let isBeforeOrOnRunDate := compareDates recordDate runDate <=? 0 in
        isAfterStart && isBeforeOrOnRunDate
    end.

Definition dateFilteredRecords (bm : BaseMapping) (schemeStart runDate : Date)
    (baseData : list value) : list value :=
  filter (fun r => date_in_window (bm_transactionDateField bm)
                     schemeStart runDate r = true)
    (imap (with_identity (bm_sourceFile bm)) baseData).

Definition is_record_level (fieldMap : gmap string FieldInfo)
    (baseDataFile : string) (rule : Rule) : bool :=
  match fieldMap !! rule_field rule with
  | Some fieldInfo =>
      String.eqb (evaluationLevel fieldInfo) "Per Record"
      && String.eqb (sourceFile fieldInfo) baseDataFile
  | None => false
  end.

Definition recordLevelQualRules (scheme : Scheme)
    (fieldMap : gmap string FieldInfo) (baseDataFile : string) : list Rule :=
  filter (fun rule => is_record_level fieldMap baseDataFile rule = true)
    (qualificationRules scheme).

(** The body of the [for] over the record-level rules, for one rule. *)
Definition passes_rule (fieldMap : gmap string FieldInfo) (record : value)
    (rule : Rule) : bool :=
  match fieldMap !! rule_field rule with
  | Some fieldInfo =>
      if String.eqb (sourceField fieldInfo) "" then true
      else evaluateCondition (safeGet record (sourceField fieldInfo) VUndef)
             (rule_operator rule) (rule_value rule) (dataType fieldInfo)
  | None => true
  end.

Definition qualifiedRecords (scheme : Scheme)
    (fieldMap : gmap string FieldInfo) (bm : BaseMapping)
    (schemeStart runDate : Date) (baseData : list value) : list value :=
  filter (fun record =>
            forallb (passes_rule fieldMap record)
              (recordLevelQualRules scheme fieldMap (bm_sourceFile bm)) = true)
    (dateFilteredRecords bm schemeStart runDate baseData).

(** ** Grouping by agent (runScheme.js:621-636) *)

Fixpoint group_push (agentId : string) (record : value)
    (acc : list (string * list value)) : list (string * list value) :=
  match acc with
  | [] => [(agentId, [record])]
  | (k, rs) :: acc' =>
      if String.eqb agentId k then (k, rs ++ [record])%list :: acc'
      else (k, rs) :: group_push agentId record acc'
  end.

(** The callback of [reduce].  The warning for a missing or empty agent
    interpolates [_recordId], an identifier that no scope of the file
    declares: evaluating the template throws a ReferenceError. *)
Definition group_step (agentIdField : string)
    (acc : list (string * list value)) (record : value)
  : result (list (string * list value)) :=
  let agentId :=
    trim (js_String (safeGet record agentIdField (VStr "UNKNOWN_AGENT"))) in
  _ ← (if String.eqb agentId "UNKNOWN_AGENT" || String.eqb agentId "" then
         Throw (ReferenceError "_recordId")
       else Ok tt);
  Ok (group_push agentId record acc).

Fixpoint reduce_groups (agentIdField : string) (records : list value)
    (acc : list (string * list value)) : result (list (string * list value)) :=
  match records with
  | [] => Ok acc
  | record :: rest =>
      acc' ← group_step agentIdField acc record;
      reduce_groups agentIdField rest acc'
  end.

Definition recordsByAgent (agentIdField : string) (records : list value)
  : result (list (string * list value)) :=
  reduce_groups agentIdField records [].

(** *** Enumeration order of [for (const agentId in recordsByAgent)]

    Keys that are array indices come first, in ascending numeric order; the
    other keys follow in insertion order. *)
Definition array_index (k : string) : option Z :=
  let cs := list_ascii_of_string k in
  let n := Dec.digits_val cs in
  if forallb Dec.is_digit cs && String.eqb (pretty n) k && (n <? 4294967295)
  then Some n else None.

Fixpoint insert_index {A} (x : Z * A) (l : list (Z * A)) : list (Z * A) :=
  match l with
  | [] => [x]
  | y :: l' => if x.1 <=? y.1 then x :: l else y :: insert_index x l'
  end.

Definition for_in_order {A} (obj : list (string * A)) : list (string * A) :=
  let indexed :=
    omap (fun kv => n ← array_index kv.1; Some (n, kv)) obj in
  let named :=
    filter (fun kv => array_index kv.1 = None) obj in
  ((snd <$> foldr insert_index [] indexed) ++ named)%list.

(** ** Processing one record (runScheme.js:654-820) *)

Definition applicable (fieldMap : gmap string FieldInfo)
    (baseDataFile field : string) : option FieldInfo :=
  match fieldMap !! field with
  | Some fieldInfo =>
      if String.eqb (sourceFile fieldInfo) baseDataFile then Some fieldInfo
      else None
  | None => None
  end.

(** The condition of a rule evaluated on a record; a rule whose field is not
    mapped to the base file is passed over ([continue]). *)
Definition rule_fires (fieldMap : gmap string FieldInfo)
    (baseDataFile : string) (record : value) (rule : Rule) : bool :=
  match applicable fieldMap baseDataFile (rule_field rule) with
  | Some fieldInfo =>
      evaluateCondition (safeGet record (sourceField fieldInfo) VUndef)
        (rule_operator rule) (rule_value rule) (dataType fieldInfo)
  | None => false
  end.

Definition exclusionReason_of (rule : Rule) : string :=
  "Excluded by rule " ++ rule_id rule ++ " (" ++ rule_field rule ++ " "
  ++ rule_operator rule ++ " " ++ js_String (rule_value rule) ++ ")".

Definition exclusion_log (now agent : string) (record : value) (rule : Rule)
  : LogEntry :=
  mkLogEntry Exclusion (rule_id rule) (Some (get_prop record "_recordId"))
    agent (exclusionReason_of rule) None now.

(** The exclusion loop: the rule that excluded the record, if any. *)
Fixpoint exclusion_loop (fieldMap : gmap string FieldInfo)
    (baseDataFile : string) (record : value) (rules : list Rule)
  : option Rule :=
  match rules with
  | [] => None
  | rule :: rest =>
      if rule_fires fieldMap baseDataFile record rule then Some rule
      else exclusion_loop fieldMap baseDataFile record rest
  end.

(** One triggered adjustment: the new [(currentAmount, rateMultiplier)] and
    the log message. *)
Definition apply_adjustment (rule : AdjustmentRule)
    (currentAmount rateMultiplier : Dec.t) : Dec.t * Dec.t * string :=
  let adj := arule_adjustment rule in
  let adjValue := adj_value adj in
  let logMessage := "Adjustment Rule " ++ arule_id rule ++ " triggered: " in
  if String.eqb (adj_target adj) "Rate"
     && String.eqb (adj_type adj) "percentage" then
    let multiplierChange := Dec.div100 adjValue in
    let rateMultiplier' := Dec.times rateMultiplier multiplierChange in
    (currentAmount, rateMultiplier',
     logMessage ++ "Rate multiplier updated to "
       ++ formatDecimal rateMultiplier' 4)
  else if String.eqb (adj_target adj) "Amount"
          && String.eqb (adj_type adj) "percentage" then
    let increase := Dec.div100 (Dec.times currentAmount adjValue) in
    let currentAmount' := Dec.plus currentAmount increase in
    (currentAmount', rateMultiplier,
     logMessage ++ "Amount adjusted by " ++ formatDecimal adjValue 2
       ++ "% to " ++ formatDecimal currentAmount' 2)
  else if String.eqb (adj_target adj) "Amount"
          && String.eqb (adj_type adj) "fixed" then
    let currentAmount' := Dec.plus currentAmount adjValue in
    (currentAmount', rateMultiplier,
     logMessage ++ "Amount adjusted by fixed " ++ formatDecimal adjValue 2
       ++ " to " ++ formatDecimal currentAmount' 2)
  else
    (currentAmount, rateMultiplier,
     logMessage ++ "Unknown adjustment target/type: " ++ adj_target adj
       ++ "/" ++ adj_type adj).

(** State of the adjustment loop. *)
Record AdjState : Type := mkAdjState {
  currentAmount : Dec.t;
  rateMultiplier : Dec.t;
  adjustmentApplied : option string;
  adj_logs : list LogEntry
}.

Definition adjustment_step (fieldMap : gmap string FieldInfo)
    (baseDataFile now agent : string) (record : value)
    (originalAmount : Dec.t) (st : AdjState) (rule : AdjustmentRule)
  : AdjState :=
  let cond := arule_condition rule in
  match applicable fieldMap baseDataFile (rule_field cond) with
  | None => st
  | Some conditionFieldInfo =>
      let conditionValue :=
        safeGet record (sourceField conditionFieldInfo) VUndef in
      if evaluateCondition conditionValue (rule_operator cond)
           (rule_value cond) (dataType conditionFieldInfo) then
        let '(amount', multiplier', logMessage) :=
          apply_adjustment rule (currentAmount st) (rateMultiplier st) in
        mkAdjState amount' multiplier'
          (Some ("Adjusted by rule " ++ arule_id rule))
          (adj_logs st ++
           [mkLogEntry Adjustment_ (arule_id rule)
              (Some (get_prop record "_recordId")) agent logMessage
              (Some (AdjustmentDetails (rule_field cond) conditionValue
                       (arule_adjustment rule)
                       (formatDecimal originalAmount 2)
                       (formatDecimal amount' 2)
                       (formatDecimal multiplier' 2)))
              now])%list
      else st
  end.

Definition adjustment_loop (fieldMap : gmap string FieldInfo)
    (baseDataFile now agent : string) (record : value)
    (originalAmount : Dec.t) (rules : list AdjustmentRule) : AdjState :=
  fold_left
    (adjustment_step fieldMap baseDataFile now agent record originalAmount)
    rules (mkAdjState originalAmount Dec.one None []).

(** What the callback of [agentRecords.map] yields for one record: the
    processed record, the entries it pushes on [agentRuleLogs] and the amount
    it adds to [agentTotalCreditedAmount] ([None] for an excluded record,
    for which nothing is added). *)
Record RecordOutcome : Type := mkRecordOutcome {
  ro_processed : ProcessedRecord;
  ro_logs : list LogEntry;
  ro_credited : option Dec.t
}.

Definition processRecord (scheme : Scheme) (fieldMap : gmap string FieldInfo)
    (bm : BaseMapping) (now agent : string) (record : value)
  : result RecordOutcome :=
  originalAmount ← newDecimal (safeGet record (bm_amountField bm)
                                 (VNum Dec.zero));
  match exclusion_loop fieldMap (bm_sourceFile bm) record
          (exclusionRules scheme) with
  | Some rule =>
      let adjustedAmount := Dec.zero in
      Ok (mkRecordOutcome
            (mkProcessedRecord record
               (mkProcessingStatus
                  (formatDecimal originalAmount 2)
                  (formatDecimal Dec.one 4)
                  (formatDecimal adjustedAmount 2)
                  true (Some (exclusionReason_of rule)) None None))
            [exclusion_log now agent record rule]
            None)
  | None =>
      let st := adjustment_loop fieldMap (bm_sourceFile bm) now agent record
                  originalAmount (adjustmentRules scheme) in
      let customRuleApplied :=
        match customRules scheme with
        | [] => None
        | _ => Some "Custom rules present but not executed."
        end in
      let adjustedAmount := Dec.times (currentAmount st) (rateMultiplier st) in
      Ok (mkRecordOutcome
            (mkProcessedRecord record
               (mkProcessingStatus
                  (formatDecimal originalAmount 2)
                  (formatDecimal (rateMultiplier st) 4)
                  (formatDecimal adjustedAmount 2)
                  false None (adjustmentApplied st) customRuleApplied))
            (adj_logs st)
            (Some adjustedAmount))
  end.

(** State of the [map] over an agent's records. *)
Record AgentAcc : Type := mkAgentAcc {
  acc_total : Dec.t;
  acc_logs : list LogEntry;
  acc_raw : list ProcessedRecord
}.

Definition add_outcome (acc : AgentAcc) (o : RecordOutcome) : AgentAcc :=
  mkAgentAcc
    (match ro_credited o with
     | Some adjustedAmount => Dec.plus (acc_total acc) adjustedAmount
     | None => acc_total acc
     end)
    (acc_logs acc ++ ro_logs o)%list
    (acc_raw acc ++ [ro_processed o])%list.

Fixpoint process_records (scheme : Scheme) (fieldMap : gmap string FieldInfo)
    (bm : BaseMapping) (now agent : string) (records : list value)
    (acc : AgentAcc) : result AgentAcc :=
  match records with
  | [] => Ok acc
  | record :: rest =>
      o ← processRecord scheme fieldMap bm now agent record;
      process_records scheme fieldMap bm now agent rest (add_outcome acc o)
  end.

(** ** Agent-level qualification (runScheme.js:824-885) *)

Definition is_agent_level (fieldMap : gmap string FieldInfo) (rule : Rule)
  : bool :=
  match fieldMap !! rule_field rule with
  | Some fieldInfo => String.eqb (evaluationLevel fieldInfo) "Agent"
  | None => false
  end.

(** The loop over the agent-level rules: the first rule on the summed primary
    amount that the total fails, if any. *)
Fixpoint agent_qual_loop (fieldMap : gmap string FieldInfo)
    (amountField : string) (total : Dec.t) (rules : list Rule)
  : option Rule :=
  match rules with
  | [] => None
  | rule :: rest =>
      match fieldMap !! rule_field rule with
      | Some fieldInfo =>
          if String.eqb (sourceField fieldInfo) amountField
             && String.eqb (aggregation fieldInfo) "Sum" then
            if evaluateCondition (VNum total) (rule_operator rule)
                 (rule_value rule) "Number"
            then agent_qual_loop fieldMap amountField total rest
            else Some rule
          else agent_qual_loop fieldMap amountField total rest
      | None => agent_qual_loop fieldMap amountField total rest
      end
  end.

Definition qualification_log (now agent : string) (total : Dec.t)
    (rule : Rule) : LogEntry :=
  mkLogEntry Qualification (rule_id rule) None agent
    ("Agent failed qualification rule " ++ rule_id rule ++ ": Check ("
     ++ rule_field rule ++ " " ++ rule_operator rule ++ " "
     ++ js_String (rule_value rule) ++ ") failed with value "
     ++ formatDecimal total 2 ++ ".")
    None now.

(** [(agentQualified, entries pushed)] *)
Definition agent_qualification (scheme : Scheme)
    (fieldMap : gmap string FieldInfo) (bm : BaseMapping)
    (now agent : string) (total : Dec.t) : bool * list LogEntry :=
  if Dec.lte total Dec.zero then (false, [])
  else
    let agentLevelQualRules :=
      filter (fun rule => is_agent_level fieldMap rule = true)
        (qualificationRules scheme) in
    match agent_qual_loop fieldMap (bm_amountField bm) total
            agentLevelQualRules with
    | Some rule => (false, [qualification_log now agent total rule])
    | None => (true, [])
    end.

(** ** Credit splits (runScheme.js:904-1001) *)

Definition push_distribution (managerId : string) (d : DistributionRecord)
    (dist : gmap string (list DistributionRecord))
  : gmap string (list DistributionRecord) :=
  <[managerId := (default [] (dist !! managerId) ++ [d])%list]> dist.

Definition split_step (scheme : Scheme) (runAsOfDate now agent : string)
    (hierarchyData : list value) (schemeStart runDate : Date)
    (basePayout : Dec.t)
    (st : gmap string (list DistributionRecord) * list LogEntry)
    (split : CreditSplit)
  : gmap string (list DistributionRecord) * list LogEntry :=
  let '(dist, logs) := st in
  let role := split_role split in
  let percentage := split_percentage split in
  if String.eqb role "" || Dec.lte percentage Dec.zero then st
  else
    match findManager agent role hierarchyData schemeStart runDate with
    | Some managerId =>
        let splitAmount := Dec.div100 (Dec.times basePayout percentage) in
        if Dec.gt splitAmount Dec.zero then
          (push_distribution managerId
             (mkDistributionRecord agent role (formatDecimal splitAmount 2)
                now (split_id split) (formatDecimal basePayout 2)
                (formatDecimal percentage 4)) dist,
           (logs ++
            [mkLogEntry CreditSplit_ (split_id split) None agent
               ("Distributed " ++ formatDecimal splitAmount 2 ++ " ("
                ++ Dec.to_string percentage ++ "%) to " ++ role
                ++ " Manager " ++ managerId ++ ".")
               (Some (SplitDetails managerId role (formatDecimal percentage 4)
                        (formatDecimal splitAmount 2)
                        (formatDecimal basePayout 2)))
               now])%list)
        else st
    | None =>
        (dist,
         (logs ++
          [mkLogEntry CreditSplit_ (split_id split) None agent
             ("Agent " ++ agent ++ ": Could not find a valid Manager for role "
              ++ role ++ " (Split Rule ID: " ++ split_id split
              ++ ") active between " ++ js_String (effectiveFrom scheme)
              ++ " and " ++ runAsOfDate ++ ".")
             (Some (SplitFailureDetails role (formatDecimal percentage 4)))
             now])%list)
    end.

Definition rows_of (hierarchyData : value) : list value :=
  match hierarchyData with
  | VArr rows => rows
  | _ => []
  end.

Definition credit_splits (scheme : Scheme) (runAsOfDate now agent : string)
    (hierarchyData : value) (schemeStart runDate : Date) (basePayout : Dec.t)
    (dist : gmap string (list DistributionRecord))
  : gmap string (list DistributionRecord) * list LogEntry :=
  let hasSplits := match creditSplits scheme with [] => false | _ => true end in
  let hasHierarchy :=
    match hierarchyData with
    | VArr (_ :: _) => true
    | _ => false
    end in
  if Dec.gt basePayout Dec.zero && hasSplits && hasHierarchy then
    fold_left
      (split_step scheme runAsOfDate now agent (rows_of hierarchyData)
         schemeStart runDate basePayout)
      (creditSplits scheme) (dist, [])
  else if Dec.gt basePayout Dec.zero && hasSplits && negb hasHierarchy then
    (dist,
     [mkLogEntry CreditSplit_ "N/A" None agent
        ("Splits defined but hierarchy data missing or empty. "
         ++ "Cannot distribute payout " ++ formatDecimal basePayout 2 ++ ".")
        None now])
  else (dist, []).

(** ** One agent (the body of the loop at runScheme.js:645-1009) *)

(** The run's four collections while the agents are processed. *)
Record RunState : Type := mkRunState {
  st_agentPayouts : gmap string string;
  st_ruleHitLogs : gmap string (list LogEntry);
  st_creditDistributions : gmap string (list DistributionRecord);
  st_rawRecordLevelData : list ProcessedRecord
}.

(** What one agent's iteration computes before it is stored: the entries of
    [agentRuleLogs], in order. *)
Record AgentRun : Type := mkAgentRun {
  ar_total : Dec.t;
  ar_basePayout : Dec.t;
  ar_agentRuleLogs : list LogEntry;
  ar_raw : list ProcessedRecord;
  ar_dist : gmap string (list DistributionRecord)
}.

Definition run_agent (scheme : Scheme) (fieldMap : gmap string FieldInfo)
    (bm : BaseMapping) (runAsOfDate now : string) (hierarchyData : value)
    (schemeStart runDate : Date) (agent : string) (agentRecords : list value)
    (st : RunState) : result AgentRun :=
  acc ← process_records scheme fieldMap bm now agent agentRecords
          (mkAgentAcc Dec.zero [] (st_rawRecordLevelData st));
  let agentTotalCreditedAmount := acc_total acc in
  let '(agentQualified, qualLogs) :=
    agent_qualification scheme fieldMap bm now agent
      agentTotalCreditedAmount in
  let basePayout :=
    if agentQualified then
      calculateMarginalTieredPayout agentTotalCreditedAmount
        (default [] (payoutTiers scheme))
    else Dec.zero in
  let '(dist, splitLogs) :=
    credit_splits scheme runAsOfDate now agent hierarchyData schemeStart
      runDate basePayout (st_creditDistributions st) in
  Ok (mkAgentRun agentTotalCreditedAmount basePayout
        (acc_logs acc ++ qualLogs ++ splitLogs)%list (acc_raw acc) dist).

Definition store_logs (agent : string) (agentRuleLogs : list LogEntry)
    (logs : gmap string (list LogEntry)) : gmap string (list LogEntry) :=
  match agentRuleLogs with
  | [] => logs
  | _ => <[agent := (default [] (logs !! agent) ++ agentRuleLogs)%list]> logs
  end.

(** The end of an iteration: the payout is recorded and the agent's entries,
    when there are any, are appended under the agent's key. *)
Definition store_agent (st : RunState) (agent : string) (ar : AgentRun)
  : RunState :=
  mkRunState
    (<[agent := formatDecimal (ar_basePayout ar) 2]> (st_agentPayouts st))
    (store_logs agent (ar_agentRuleLogs ar) (st_ruleHitLogs st))
    (ar_dist ar)
    (ar_raw ar).

Definition agent_step (scheme : Scheme) (fieldMap : gmap string FieldInfo)
    (bm : BaseMapping) (runAsOfDate now : string) (hierarchyData : value)
    (schemeStart runDate : Date) (st : RunState)
    (group : string * list value) : result RunState :=
  let '(agent, agentRecords) := group in
  if String.eqb agent "UNKNOWN_AGENT" then Ok st
  else
    ar ← run_agent scheme fieldMap bm runAsOfDate now hierarchyData
           schemeStart runDate agent agentRecords st;
    Ok (store_agent st agent ar).

Fixpoint agents_loop (scheme : Scheme) (fieldMap : gmap string FieldInfo)
    (bm : BaseMapping) (runAsOfDate now : string) (hierarchyData : value)
    (schemeStart runDate : Date) (groups : list (string * list value))
    (st : RunState) : result RunState :=
  match groups with
  | [] => Ok st
  | group :: rest =>
      st' ← agent_step scheme fieldMap bm runAsOfDate now hierarchyData
              schemeStart runDate st group;
      agents_loop scheme fieldMap bm runAsOfDate now hierarchyData
        schemeStart runDate rest st'
  end.

(** ** The run (runScheme.js:399-1020) *)

(** The two arguments the run can write to: the scheme object and the
    uploaded files. *)
Record Heap : Type := mkHeap {
  heap_scheme : Scheme;
  heap_uploadedFiles : value
}.

Definition is_object (v : value) : bool :=
  match v with
  | VArr _ | VObj _ => true
  | _ => false
  end.

(** The checks before the first write (runScheme.js:401-452).  That [scheme]
    is an object is a matter of its type here. *)
Definition validate (scheme : Scheme) (uploadedFiles runAsOfDate : value)
  : result (string * Date * Date * BaseMapping) :=
  _ ← (if is_object uploadedFiles then Ok tt
       else Throw (Error "Invalid or missing 'uploadedFiles' object."));
  runAsOf ← match runAsOfDate with
            | VStr s =>
                if String.eqb s "" then
                  Throw (Error "Invalid or missing 'runAsOfDate' string.")
                else Ok s
            | _ => Throw (Error "Invalid or missing 'runAsOfDate' string.")
            end;
  runDate ← match parseDate runAsOfDate with
            | Some d => Ok d
            | None =>
                Throw (Error ("Invalid runAsOfDate format: " ++ runAsOf
                              ++ ". Use YYYY-MM-DD."))
            end;
  schemeStart ← match parseDate (effectiveFrom scheme) with
                | Some d => Ok d
                | None =>
                    Throw (Error ("Invalid scheme.effectiveFrom date: "
                                  ++ js_String (effectiveFrom scheme)
                                  ++ ". Use YYYY-MM-DD."))
                end;
  match baseMapping scheme with
  | Some bm =>
      if String.eqb (bm_sourceFile bm) ""
         || String.eqb (bm_agentField bm) ""
         || String.eqb (bm_amountField bm) ""
         || String.eqb (bm_transactionDateField bm) "" then
        Throw (Error "Scheme baseMapping is missing required fields: sourceFile, agentField, amountField, transactionDateField.")
      else Ok (runAsOf, runDate, schemeStart, bm)
  | None =>
      Throw (Error "Scheme baseMapping is missing required fields: sourceFile, agentField, amountField, transactionDateField.")
  end.

(** [if (!scheme.payoutTiers) scheme.payoutTiers = [];] *)
Definition ensure_payoutTiers (scheme : Scheme) : Scheme :=
  match payoutTiers scheme with
  | Some _ => scheme
  | None =>
      mkScheme (scheme_name scheme) (effectiveFrom scheme)
        (baseMapping scheme) (Some []) (qualificationRules scheme)
        (exclusionRules scheme) (adjustmentRules scheme)
        (customRules scheme) (creditSplits scheme)
        (creditHierarchyFile scheme) (kpiConfig scheme)
  end.

(** [hierarchyFile ? safeGet(uploadedFiles, hierarchyFile, []) : []] *)
Definition hierarchyData_of (scheme : Scheme) (uploadedFiles : value) : value :=
  let hierarchyFile := creditHierarchyFile scheme in
  if String.eqb hierarchyFile "" then VArr []
  else safeGet uploadedFiles hierarchyFile (VArr []).

(** Everything after the write: reading the datasets, selecting, grouping and
    processing. *)
Definition run_body (scheme : Scheme) (uploadedFiles : value)
    (runAsOfDate now : string) (runDate schemeStart : Date)
    (bm : BaseMapping) : result RunResult :=
  let baseDataFile := bm_sourceFile bm in
  let baseData := safeGet uploadedFiles baseDataFile VUndef in
  let hierarchyData := hierarchyData_of scheme uploadedFiles in
  match baseData with
  | VArr rows =>
      let fieldMap := build_fieldMap scheme bm in
      let selected :=
        qualifiedRecords scheme fieldMap bm schemeStart runDate rows in
      groups ← recordsByAgent (bm_agentField bm) selected;
      st ← agents_loop scheme fieldMap bm runAsOfDate now hierarchyData
             schemeStart runDate (for_in_order groups)
             (mkRunState ∅ ∅ ∅ []);
      Ok (mkRunResult (st_agentPayouts st) (st_ruleHitLogs st)
            (st_creditDistributions st) (st_rawRecordLevelData st))
  | _ =>
      Throw (Error ("Base data file " ++ baseDataFile
                    ++ " not found or is not an array in uploadedFiles."))
  end.

(** [now] is what [new Date().toISOString()] answers during the run. *)
Definition runScheme (h : Heap) (runAsOfDate : value) (now : string)
  : result RunResult * Heap :=
  match validate (heap_scheme h) (heap_uploadedFiles h) runAsOfDate with
  | Throw e => (Throw e, h)
  | Ok (runAsOf, runDate, schemeStart, bm) =>
      let scheme := ensure_payoutTiers (heap_scheme h) in
      (run_body scheme (heap_uploadedFiles h) runAsOf now runDate
         schemeStart bm,
       mkHeap scheme (heap_uploadedFiles h))
  end.

(** ** Vocabulary of the specification *)

(** A value is well typed for a data type when the typed branch of
    [evaluateCondition] can read it: a decimal for Number, a calendar date
    for Date; the String branch reads every value. *)
Definition well_typed (dataType : string) (v : value) : Prop :=
  if String.eqb dataType "Number" then is_Some (toDecimal v)
  else if String.eqb dataType "Date" then
    is_Some (parseDate (VStr (js_String v)))
  else True.

(** A hierarchy row matches an agent exactly and a role whatever the case. *)
Definition row_matches (agentId role : string) (row : value) : Prop :=
  trim (js_String (safeGet row "AgentID" (VStr ""))) = agentId /\
  toUpperCase (trim (js_String (safeGet row "Level" (VStr ""))))
  = toUpperCase role.

(** The validity window of a row overlaps the run window:
    reportsFrom <= runAsOf and reportsToEnd >= schemeStart. *)
Definition window_overlaps (schemeStart runAsOf : Date) (row : value) : Prop :=
  exists reportsFrom reportsToEnd,
    parseDate (safeGet row "ReportsFrom" VUndef) = Some reportsFrom /\
    parseDate (safeGet row "ReportsToEnd" VUndef) = Some reportsToEnd /\
    compareDates reportsFrom runAsOf <= 0 /\
    compareDates reportsToEnd schemeStart >= 0.

(** The row names the manager [m], and [m] is not empty. *)
Definition names_manager (row : value) (m : string) : Prop :=
  safeGet row "ManagerID" VNull <> VNull /\
  m = trim (js_String (safeGet row "ManagerID" VNull)) /\
  m <> "".

Definition valid_manager_row (agentId role : string)
    (schemeStart runAsOf : Date) (row : value) (m : string) : Prop :=
  row_matches agentId role row /\
  window_overlaps schemeStart runAsOf row /\
  names_manager row m.

Definition hierarchy_row (agent level manager from to : string) : value :=
  VObj [("AgentID", VStr agent); ("Level", VStr level);
        ("ManagerID", VStr manager); ("ReportsFrom", VStr from);
        ("ReportsToEnd", VStr to)].

(** A small scheme over one dataset ["sales"] with the columns [Agent],
    [Amount] and [Date], used for the concrete runs below. *)
Definition demo_mapping : BaseMapping :=
  mkBaseMapping "sales" "Agent" "Amount" "Date".

Definition demo_scheme (tiers : option (list Tier)) : Scheme :=
  mkScheme "demo" (VStr "2024-12-01") (Some demo_mapping) tiers
    [] [] [] [] [] "" (mkKpiConfig [] [] [] [] []).

Definition demo_files (rows : list value) : value :=
  VObj [("sales", VArr rows)].

Definition demo_row (agent amount date : value) : value :=
  VObj [("Agent", agent); ("Amount", amount); ("Date", date)].

(** [rule] is the first rule of the list whose condition holds. *)
Definition first_firing (fires : Rule -> bool) (rules : list Rule)
    (rule : Rule) : Prop :=
  exists pre post : list Rule,
    rules = (pre ++ rule :: post)%list /\
    fires rule = true /\
    forall r : Rule, r ∈ pre -> fires r = false.

(** The numeric effect of one adjustment on the running amount and the
    running rate multiplier, in the words of the specification. *)
Definition adjust_amounts (st : Dec.t * Dec.t) (adj : Adjustment)
  : Dec.t * Dec.t :=
  let '(amount, multiplier) := st in
  if String.eqb (adj_target adj) "Rate"
     && String.eqb (adj_type adj) "percentage" then
    (amount, Dec.times multiplier (Dec.div100 (adj_value adj)))
  else if String.eqb (adj_target adj) "Amount"
          && String.eqb (adj_type adj) "percentage" then
    (Dec.plus amount (Dec.div100 (Dec.times amount (adj_value adj))),
     multiplier)
  else if String.eqb (adj_target adj) "Amount"
          && String.eqb (adj_type adj) "fixed" then
    (Dec.plus amount (adj_value adj), multiplier)
  else (amount, multiplier).

(** Every adjustment rule whose condition holds on the record is applied, in
    declaration order, starting from the original amount and multiplier 1. *)
Definition adjusted_amounts (fieldMap : gmap string FieldInfo)
    (baseDataFile : string) (record : value) (rules : list AdjustmentRule)
    (originalAmount : Dec.t) : Dec.t * Dec.t :=
  fold_left
    (fun st rule =>
       if rule_fires fieldMap baseDataFile record (arule_condition rule)
       then adjust_amounts st (arule_adjustment rule)
       else st)
    rules (originalAmount, Dec.one).

Definition firing_adjustments (fieldMap : gmap string FieldInfo)
    (baseDataFile : string) (record : value) (rules : list AdjustmentRule)
  : list AdjustmentRule :=
  filter (fun rule =>
            rule_fires fieldMap baseDataFile record (arule_condition rule)
            = true) rules.

(** *** The run seen from outside *)

(** The records of the base dataset with their identity, and those of them
    that the two selection stages keep, for the run on [h]. *)
Definition identified_in_run (h : Heap) (runAsOfDate : value) : list value :=
  match validate (heap_scheme h) (heap_uploadedFiles h) runAsOfDate with
  | Ok (_, _, _, bm) =>
      imap (with_identity (bm_sourceFile bm))
        (rows_of (safeGet (heap_uploadedFiles h) (bm_sourceFile bm) VUndef))
  | Throw _ => []
  end.

Definition selected_in_run (h : Heap) (runAsOfDate : value) : list value :=
  match validate (heap_scheme h) (heap_uploadedFiles h) runAsOfDate with
  | Ok (_, runDate, schemeStart, bm) =>
      let scheme := ensure_payoutTiers (heap_scheme h) in
      qualifiedRecords scheme (build_fieldMap scheme bm) bm schemeStart runDate
        (rows_of (safeGet (heap_uploadedFiles h) (bm_sourceFile bm) VUndef))
  | Throw _ => []
  end.

(** The iterations of the agent loop, in order: each agent that is processed
    with what its iteration computed. *)
Fixpoint agent_runs (scheme : Scheme) (fieldMap : gmap string FieldInfo)
    (bm : BaseMapping) (runAsOfDate now : string) (hierarchyData : value)
    (schemeStart runDate : Date) (groups : list (string * list value))
    (st : RunState) : list (string * AgentRun) :=
  match groups with
  | [] => []
  | (agent, agentRecords) :: rest =>
      if String.eqb agent "UNKNOWN_AGENT" then
        agent_runs scheme fieldMap bm runAsOfDate now hierarchyData
          schemeStart runDate rest st
      else
        match run_agent scheme fieldMap bm runAsOfDate now hierarchyData
                schemeStart runDate agent agentRecords st with
        | Ok ar =>
            (agent, ar) ::
            agent_runs scheme fieldMap bm runAsOfDate now hierarchyData
              schemeStart runDate rest (store_agent st agent ar)
        | Throw _ => []
        end
  end.

(** Every entry pushed on an [agentRuleLogs] during the run on [h]. *)
Definition emitted_in_run (h : Heap) (runAsOfDate : value) (now : string)
  : list LogEntry :=
  match validate (heap_scheme h) (heap_uploadedFiles h) runAsOfDate with
  | Ok (runAsOf, runDate, schemeStart, bm) =>
      let scheme := ensure_payoutTiers (heap_scheme h) in
      let fieldMap := build_fieldMap scheme bm in
      match recordsByAgent (bm_agentField bm)
              (selected_in_run h runAsOfDate) with
      | Ok groups =>
          mjoin
            ((fun run => ar_agentRuleLogs run.2) <$>
             agent_runs scheme fieldMap bm runAsOf now
               (hierarchyData_of scheme (heap_uploadedFiles h))
               schemeStart runDate (for_in_order groups)
               (mkRunState ∅ ∅ ∅ []))
      | Throw _ => []
      end
  | Throw _ => []
  end.

(** An entry of the given type that names the agent and the record. *)
Definition entry_of (ty : RuleType) (agent : string) (record : value)
    (e : LogEntry) : Prop :=
  ruleType e = ty /\ agentId e = agent /\
  recordId e = Some (get_prop record "_recordId").

(** An entry about the agent as a whole: it carries no record id. *)
Definition agent_entry (agent : string) (e : LogEntry) : Prop :=
  agentId e = agent /\ recordId e = None.

(** The scenario of the example at the end of runScheme.js, with dataset
    names that [safeGet] reads as one path segment. *)
Definition example_kpi (name source type level agg : string) : KpiField :=
  mkKpiField name source type level agg "SCH1".

Definition example_scheme : Scheme :=
  mkScheme "NA_SO_DEC_24V3_Example" (VStr "2024-12-01")
    (Some (mkBaseMapping "SCH1" "Sales Employee" "Net Value" "Document Date"))
    (Some [ mkTier "t1" (Some (Dec.of_Z 0)) (Some (Dec.of_Z 25000))
              (Some (Dec.of_Z 3)) (Some true);
            mkTier "t2" (Some (Dec.of_Z 25001)) (Some (Dec.of_Z 125000))
              (Some (Dec.of_Z 7)) (Some true);
            mkTier "t3" (Some (Dec.of_Z 125001)) (Some (Dec.of_Z 225000))
              (Some (Dec.of_Z 10)) (Some true);
            mkTier "t4" (Some (Dec.of_Z 225001)) None
              (Some (Dec.of_Z 15)) (Some true) ])
    [ mkRule "q1" "SalesOrg" "=" (VStr "1810");
      mkRule "q2" "MinSales" ">=" (VStr "70000") ]
    [ mkRule "e1" "Payer" "=" (VStr "17100002") ]
    [ mkAdjustmentRule "a1"
        (mkRule "a1" "DeliveryStat" "CONTAINS" (VStr "Fully"))
        (mkAdjustment "Rate" "percentage" (Dec.of_Z 200)) ]
    []
    [ mkCreditSplit "cs1" "L1" (Dec.of_Z 90);
      mkCreditSplit "cs2" "L2" (Dec.of_Z 10) ]
    "MH"
    (mkKpiConfig
       [ example_kpi "Agent" "Sales Employee" "String" "Per Record" "";
         example_kpi "Amount" "Net Value" "Number" "Per Record" "";
         example_kpi "TransactionDate" "Document Date" "Date" "Per Record" "" ]
       [ example_kpi "SalesOrg" "Sales Organization" "String" "Per Record" "";
         example_kpi "MinSales" "Net Value" "Number" "Agent" "Sum" ]
       [ example_kpi "DeliveryStat" "Delivery Status" "String" "Per Record" "" ]
       [ example_kpi "Payer" "Payer" "String" "Per Record" "" ]
       []).

Definition example_row (agent : string) (amount : Z)
    (date org payer status : string) : value :=
  VObj [ ("Sales Employee", VStr agent); ("Net Value", VNum (Dec.of_Z amount));
         ("Document Date", VStr date); ("Sales Organization", VStr org);
         ("Payer", VStr payer); ("Delivery Status", VStr status) ].

Definition example_files : value :=
  VObj
    [ ("SCH1",
       VArr [ example_row "101" 50000 "2024-12-05" "1810" "CUST001"
                "Fully Delivered";
              example_row "101" 30000 "2024-12-15" "1810" "CUST003" "Partially";
              example_row "102" 90000 "2024-12-10" "1810" "17100002"
                "Fully Delivered";
              example_row "103" 40000 "2024-12-20" "1810" "CUST004" "Partially";
              example_row "104" 80000 "2024-12-22" "1910" "CUST005"
                "Fully Delivered";
              example_row "101" 10000 "2024-11-30" "1810" "CUST006" "Partially";
              example_row "101" 10000 "2025-01-01" "1810" "CUST007"
                "Partially" ]);
      ("MH",
       VArr [ hierarchy_row "101" "L1" "MGR_A" "2024-01-01" "2024-12-31";
              hierarchy_row "101" "L2" "MGR_B" "2024-01-01" "2024-12-31";
              hierarchy_row "103" "L1" "MGR_C" "2024-01-01" "2024-12-31";
              hierarchy_row "101" "L1" "MGR_OLD" "2023-01-01" "2023-12-31" ]) ].

Definition example_heap : Heap := mkHeap example_scheme example_files.

Definition example_mapping : BaseMapping :=
  mkBaseMapping "SCH1" "Sales Employee" "Net Value" "Document Date".

Definition example_fieldMap : gmap string FieldInfo :=
  build_fieldMap example_scheme example_mapping.

(** The record names an agent, and its amount reads as a decimal. *)
Definition has_agent (agentIdField : string) (record : value) : Prop :=
  let agentId :=
    trim (js_String (safeGet record agentIdField (VStr "UNKNOWN_AGENT"))) in
  agentId <> "UNKNOWN_AGENT" /\ agentId <> "".

Definition has_amount (amountField : string) (record : value) : Prop :=
  is_Some (toDecimal (safeGet record amountField (VNum Dec.zero))).

(** *** Vocabulary of the further properties *)

(** The operators some branch of [evaluateCondition] knows. *)
Definition known_operators : list string :=
  ["="; "!="; ">"; ">="; "<"; "<="; "CONTAINS"; "STARTSWITH"; "ENDSWITH";
   "NOT CONTAINS"].

(** A data type other than Number and Date takes the String branch. *)
Definition string_typed (dataType : string) : Prop :=
  dataType <> "Number" /\ dataType <> "Date".

(** The text the String branch compares. *)
Definition folded (v : value) : string :=
  toLowerCase (trim (js_String v)).

(** The string has no dot: [split('.')] leaves it whole. *)
Definition dot_free (s : string) : Prop :=
  forall c : ascii, c ∈ list_ascii_of_string s -> c <> "."%char.

(** A value without properties of its own: a scalar, null or undefined. *)
Definition plain (v : value) : Prop :=
  match v with
  | VArr _ | VObj _ => False
  | _ => True
  end.

(** No two different tiers of the table start at the same amount. *)
Definition distinct_from (tiers : list Tier) : Prop :=
  forall t1 t2 : Tier,
    t1 ∈ tiers -> t2 ∈ tiers -> from_le t1 t2 -> from_le t2 t1 -> t1 = t2.

(** The entry [fieldMap] stores for a [kpiConfig] field. *)
Definition kpi_info (f : KpiField) : FieldInfo :=
  mkFieldInfo (kpi_sourceField f)
    (if String.eqb (kpi_dataType f) "" then "String" else kpi_dataType f)
    (if String.eqb (kpi_evaluationLevel f) "" then "Per Record"
     else kpi_evaluationLevel f)
    (if String.eqb (kpi_aggregation f) "" then "NotApplicable"
     else kpi_aggregation f)
    (kpi_sourceFile f).

(** All fields of the five sections, in the order the run reads them. *)
Definition kpi_fields (scheme : Scheme) : list KpiField :=
  mjoin (allKpiSections (kpiConfig scheme)).

(** Some field of [kpiConfig] has this name and a source field. *)
Definition kpi_defines (scheme : Scheme) (name : string) : Prop :=
  exists f : KpiField,
    f ∈ kpi_fields scheme /\ kpi_name f = name /\ kpi_name f <> "" /\
    kpi_sourceField f <> "".

(** An agent-level rule on the summed primary amount that the total does not
    satisfy: the only kind of rule that disqualifies an agent. *)
Definition agent_rule_fails (fieldMap : gmap string FieldInfo)
    (amountField : string) (total : Dec.t) (rule : Rule) : bool :=
  match fieldMap !! rule_field rule with
  | Some fieldInfo =>
      String.eqb (evaluationLevel fieldInfo) "Agent"
      && String.eqb (sourceField fieldInfo) amountField
      && String.eqb (aggregation fieldInfo) "Sum"
      && negb (evaluateCondition (VNum total) (rule_operator rule)
                 (rule_value rule) "Number")
  | None => false
  end.

(** An entry that processing a record emits. *)
Definition record_level (e : LogEntry) : Prop :=
  ruleType e = Exclusion \/ ruleType e = Adjustment_.

(** The distribution record a split of [basePayout] makes for [agent]. *)
Definition distribution_of (now agent : string) (basePayout : Dec.t)
    (split : CreditSplit) : DistributionRecord :=
  mkDistributionRecord agent (split_role split)
    (formatDecimal
       (Dec.div100 (Dec.times basePayout (split_percentage split))) 2)
    now (split_id split) (formatDecimal basePayout 2)
    (formatDecimal (split_percentage split) 4).

(** The split names a role and a positive percentage, the hierarchy gives
    [manager] for the agent in that role, and the share is positive. *)
Definition pays_to (agent : string) (hierarchyData : list value)
    (schemeStart runDate : Date) (basePayout : Dec.t) (manager : string)
    (split : CreditSplit) : bool :=
  negb (String.eqb (split_role split) ""
        || Dec.lte (split_percentage split) Dec.zero)
  && match findManager agent (split_role split) hierarchyData schemeStart
             runDate with
     | Some managerId => String.eqb managerId manager
     | None => false
     end
  && Dec.gt (Dec.div100 (Dec.times basePayout (split_percentage split)))
       Dec.zero.

(** The key under which the grouping files a record. *)
Definition agent_key (agentIdField : string) (record : value) : string :=
  trim (js_String (safeGet record agentIdField (VStr "UNKNOWN_AGENT"))).





(** The scheme with [customRules] replaced. *)
Definition with_customRules (rules : list value) (scheme : Scheme) : Scheme :=
  mkScheme (scheme_name scheme) (effectiveFrom scheme) (baseMapping scheme)
    (payoutTiers scheme) (qualificationRules scheme) (exclusionRules scheme)
    (adjustmentRules scheme) rules (creditSplits scheme)
    (creditHierarchyFile scheme) (kpiConfig scheme).

(** A processed record without its [customRuleApplied] note. *)
Definition forget_custom (p : ProcessedRecord) : ProcessedRecord :=
  let s := _processingStatus p in
  mkProcessedRecord (pr_record p)
    (mkProcessingStatus (ps_originalAmount s) (ps_rateMultiplier s)
       (ps_adjustedAmount s) (ps_isExcluded s) (ps_exclusionReason s)
       (ps_adjustmentApplied s) None).

(** Two computations end alike: with the same error, or with results that
    [R] relates. *)
Definition same_outcome {A : Type} (R : A -> A -> Prop) (x y : result A)
  : Prop :=
  match x, y with
  | Ok a, Ok b => R a b
  | Throw e, Throw e' => e = e'
  | _, _ => False
  end.



(** * Properties *)

(** ** Evaluation checks *)

Example dec_toFixed_ex :
  Dec.toFixed 2 (Dec.mk 152505 (-1)) = "15250.50" /\
  Dec.toFixed 2 (Dec.mk 5 (-3)) = "0.01" /\
  Dec.toFixed 4 (Dec.of_Z 2) = "2.0000" /\
  Dec.toFixed 2 (Dec.mk (-12345) (-3)) = "-12.35".
Proof. vm_compute. repeat split. Qed.

Example dec_of_string_ex :
  Dec.of_string "70000" = Some (Dec.mk 70000 0) /\
  Dec.of_string "-1.50" = Some (Dec.mk (-150) (-2)) /\
  Dec.of_string ".5e3" = Some (Dec.mk 5 2) /\
  Dec.of_string "abc" = None /\
  Dec.of_string "" = None /\
  Dec.of_string "1.2.3" = None.
Proof. vm_compute. repeat split. Qed.

Example dec_to_string_ex :
  Dec.to_string (Dec.mk 1500 (-1)) = "150" /\
  Dec.to_string (Dec.mk 125 (-2)) = "1.25" /\
  Dec.to_string (Dec.mk (-5) (-3)) = "-0.005" /\
  Dec.to_string (Dec.mk 1 21) = "1e+21" /\
  Dec.to_string (Dec.mk 15 (-8)) = "1.5e-7".
Proof. vm_compute. repeat split. Qed.

Example evaluateCondition_ex :
  evaluateCondition (VStr "Fully Delivered") "CONTAINS" (VStr "Fully") "String"
    = true /\
  evaluateCondition (VNum (Dec.of_Z 1810)) "=" (VStr "1810") "String" = true /\
  evaluateCondition (VStr "70000.0") ">=" (VStr "70000") "Number" = true /\
  evaluateCondition (VStr "2024-12-31") "<=" (VStr "2025-01-01") "Date" = true /\
  evaluateCondition (VStr "abc") "!=" (VStr "5") "Number" = false /\
  evaluateCondition (VStr " x ") "ENDSWITH" (VStr "X") "String" = true.
Proof. vm_compute. repeat split. Qed.

Example tiered_payout_ex :
  formatDecimal (calculateMarginalTieredPayout (Dec.of_Z 200000) example_tiers) 2
    = "15250.00" /\
  formatDecimal (calculateMarginalTieredPayout (Dec.of_Z 130000)
                   (rev example_tiers)) 2 = "8250.00" /\
  formatDecimal (calculateMarginalTieredPayout (Dec.of_Z (-5)) example_tiers) 2
    = "0.00".
Proof. vm_compute. repeat split. Qed.

Example safeGet_splits_at_dots :
  safeGet (VObj [("SCH1.csv", VArr [])]) "SCH1.csv" VUndef = VUndef /\
  safeGet (VObj [("SCH1", VObj [("csv", VArr [])])]) "SCH1.csv" VUndef
  = VArr [] /\
  safeGet (VObj [("Net Value", VNull)]) "Net Value" (VNum Dec.zero) = VNull /\
  safeGet (VObj []) "Net Value" (VNum Dec.zero) = VNum Dec.zero.
Proof. vm_compute. repeat split. Qed.

Example parseDate_ex :
  parseDate (VStr "2024-12-31") = Some (mkDate 2024 11 31) /\
  parseDate (VStr "2023-02-30") = Some (mkDate 2023 2 2) /\
  parseDate (VStr "2024-13-01") = None /\
  parseDate (VStr "2024-1-01") = None /\
  parseDate (VNum (Dec.of_Z 20241231)) = None.
Proof. vm_compute. repeat split. Qed.

Example example_run_payouts :
  match fst (runScheme example_heap (VStr "2024-12-31") "t0") with
  | Ok res =>
      agentPayouts res !! "101" = Some "8249.83" /\
      agentPayouts res !! "102" = Some "0.00" /\
      agentPayouts res !! "103" = Some "0.00" /\
      agentPayouts res !! "104" = None /\
      dr_amount <$> default [] (creditDistributions res !! "MGR_A")
      = ["7424.85"] /\
      dr_amount <$> default [] (creditDistributions res !! "MGR_B")
      = ["824.98"] /\
      ruleType <$> default [] (ruleHitLogs res !! "101")
      = [Adjustment_; CreditSplit_; CreditSplit_] /\
      ruleType <$> default [] (ruleHitLogs res !! "102") = [Exclusion] /\
      ruleType <$> default [] (ruleHitLogs res !! "103") = [Qualification] /\
      length (rawRecordLevelData res) = 4%nat
  | Throw _ => False
  end.
Proof. vm_compute. repeat split. Qed.


(** ** Order facts on decimals *)

Module DecFacts.

Lemma pow10_pos (n : Z) : 0 <= n -> 0 < 10 ^ n.
Proof. intros. apply Z.pow_pos_nonneg; lia. Qed.

(** Comparison may be carried out at any exponent below both operands. *)
Lemma cmp_scaled (a b : Dec.t) (E : Z) :
  E <= Dec.expo a -> E <= Dec.expo b ->
  Dec.cmp a b =
  Z.compare (Dec.coef a * 10 ^ (Dec.expo a - E))
            (Dec.coef b * 10 ^ (Dec.expo b - E)).
Proof.
  intros Ha Hb. unfold Dec.cmp, Dec.align.
  set (e := Z.min (Dec.expo a) (Dec.expo b)).
  assert (He : E <= e) by (subst e; lia).
  replace (Dec.expo a - E) with ((Dec.expo a - e) + (e - E)) by lia.
  replace (Dec.expo b - E) with ((Dec.expo b - e) + (e - E)) by lia.
  rewrite !Z.pow_add_r by (subst e; lia).
  rewrite !Z.mul_assoc.
  apply Zmult_compare_compat_r.
  apply Z.lt_gt, pow10_pos. lia.
Qed.

Lemma lte_scaled (a b : Dec.t) (E : Z) :
  E <= Dec.expo a -> E <= Dec.expo b ->
  Dec.lte a b = true <->
  Dec.coef a * 10 ^ (Dec.expo a - E) <= Dec.coef b * 10 ^ (Dec.expo b - E).
Proof.
  intros Ha Hb. unfold Dec.lte. rewrite (cmp_scaled a b E Ha Hb).
  unfold Z.le.
  destruct (Z.compare _ _); split; intros; congruence.
Qed.

Lemma cmp_antisym (a b : Dec.t) : Dec.cmp b a = CompOpp (Dec.cmp a b).
Proof.
  unfold Dec.cmp, Dec.align. rewrite (Z.min_comm (Dec.expo b)).
  apply Z.compare_antisym.
Qed.

Lemma cmp_refl (a : Dec.t) : Dec.cmp a a = Eq.
Proof. unfold Dec.cmp, Dec.align. apply Z.compare_refl. Qed.

Lemma equals_refl (a : Dec.t) : Dec.equals a a = true.
Proof. unfold Dec.equals. now rewrite cmp_refl. Qed.

Lemma lte_refl (a : Dec.t) : Dec.lte a a = true.
Proof. unfold Dec.lte. now rewrite cmp_refl. Qed.

Lemma lte_trans (a b c : Dec.t) :
  Dec.lte a b = true -> Dec.lte b c = true -> Dec.lte a c = true.
Proof.
  set (E := Z.min (Dec.expo a) (Z.min (Dec.expo b) (Dec.expo c))).
  rewrite (lte_scaled a b E), (lte_scaled b c E), (lte_scaled a c E)
    by (subst E; lia).
  lia.
Qed.

Lemma lte_total (a b : Dec.t) : Dec.lte a b = false -> Dec.lte b a = true.
Proof.
  unfold Dec.lte. rewrite (cmp_antisym a b).
  destruct (Dec.cmp a b); simpl; congruence.
Qed.

Lemma gte_lte (a b : Dec.t) : Dec.gte a b = Dec.lte b a.
Proof.
  unfold Dec.gte, Dec.lte. rewrite (cmp_antisym a b).
  destruct (Dec.cmp a b); reflexivity.
Qed.

Lemma lt_lte (a b : Dec.t) : Dec.lt a b = true -> Dec.lte a b = true.
Proof. unfold Dec.lt, Dec.lte. destruct (Dec.cmp a b); congruence. Qed.

Lemma gt_not_lte (a b : Dec.t) : Dec.gt a b = negb (Dec.lte a b).
Proof. unfold Dec.gt, Dec.lte. destruct (Dec.cmp a b); reflexivity. Qed.

Lemma max_ge_l (a b : Dec.t) : Dec.lte a (Dec.max a b) = true.
Proof.
  unfold Dec.max. destruct (Dec.lt a b) eqn:H.
  - now apply lt_lte.
  - apply lte_refl.
Qed.

Lemma max_ge_r (a b : Dec.t) : Dec.lte b (Dec.max a b) = true.
Proof.
  unfold Dec.max. destruct (Dec.lt a b) eqn:H.
  - apply lte_refl.
  - unfold Dec.lt in H. unfold Dec.lte. rewrite (cmp_antisym a b).
    destruct (Dec.cmp a b); simpl; congruence.
Qed.

Lemma min_le_r (a b : Dec.t) : Dec.lte (Dec.min a b) b = true.
Proof.
  unfold Dec.min. destruct (Dec.gt a b) eqn:H.
  - apply lte_refl.
  - rewrite gt_not_lte in H. now destruct (Dec.lte a b).
Qed.

Lemma min_inf_le (a : option Dec.t) (b : Dec.t) :
  Dec.lte (Dec.min_inf a b) b = true.
Proof. destruct a; simpl; [apply min_le_r | apply lte_refl]. Qed.

(** Rounding keeps a coefficient that is not positive not positive. *)
Lemma round_nonpos (a : Dec.t) :
  Dec.coef a <= 0 -> Dec.coef (Dec.round a) <= 0.
Proof.
  intros H. unfold Dec.round.
  destruct (Dec.ndigits (Dec.coef a) <=? Dec.precision); [exact H|].
  cbn [Dec.coef].
  set (k := Dec.ndigits (Dec.coef a) - Dec.precision).
  assert (Hq : 0 <= Z.abs (Dec.coef a) / 10 ^ k).
  { apply Z_div_nonneg_nonneg; [lia | apply Z.pow_nonneg; lia]. }
  destruct (10 ^ k <=? 2 * (Z.abs (Dec.coef a) mod 10 ^ k)); nia.
Qed.

End DecFacts.

(** ** The tiered payout *)

Section TieredPayout.

Lemma gt_zero_nonpos (d : Dec.t) :
  Dec.coef d <= 0 -> Dec.gt d Dec.zero = false.
Proof.
  intros H. unfold Dec.gt, Dec.cmp, Dec.align, Dec.zero. cbn [Dec.coef Dec.expo].
  set (p := 10 ^ (Dec.expo d - Z.min (Dec.expo d) 0)).
  assert (0 <= p) by (apply Z.pow_nonneg; lia).
  destruct (Z.compare_spec (Dec.coef d * p) (0 * 10 ^ (0 - Z.min (Dec.expo d) 0)));
    try reflexivity.
  nia.
Qed.

(** A slice whose end does not exceed its start is not positive. *)
Lemma minus_not_pos (e s : Dec.t) :
  Dec.lte e s = true -> Dec.gt (Dec.minus e s) Dec.zero = false.
Proof.
  intros H. apply gt_zero_nonpos.
  unfold Dec.minus. unfold Dec.lte, Dec.cmp in H.
  destruct (Dec.align e s) as [[x y] E].
  apply DecFacts.round_nonpos. cbn [Dec.coef].
  destruct (Z.compare_spec x y); first [lia | discriminate].
Qed.

Lemma insert_tier_perm (x : Tier) (l : list Tier) :
  insert_tier x l ≡ₚ x :: l.
Proof.
  induction l as [|y l IH]; simpl; [reflexivity|].
  destruct (Dec.lte (from_or_0 x) (from_or_0 y)); [reflexivity|].
  rewrite IH. apply Permutation_swap.
Qed.

Lemma sortedTiers_perm (l : list Tier) : sortedTiers l ≡ₚ l.
Proof.
  induction l as [|x l IH]; simpl; [reflexivity|].
  rewrite insert_tier_perm. now rewrite IH.
Qed.

Lemma insert_tier_sorted (x : Tier) (l : list Tier) :
  StronglySorted from_le l -> StronglySorted from_le (insert_tier x l).
Proof.
  induction 1 as [|y l Hs IH Hall]; simpl.
  - repeat constructor.
  - destruct (Dec.lte (from_or_0 x) (from_or_0 y)) eqn:Hxy.
    + constructor; [now constructor|].
      constructor; [exact Hxy|].
      eapply Forall_impl; [exact Hall|].
      intros z Hz. unfold from_le in *. eapply DecFacts.lte_trans; eauto.
    + constructor; [exact IH|].
      rewrite insert_tier_perm. constructor; [|exact Hall].
      unfold from_le. now apply DecFacts.lte_total.
Qed.

Lemma sortedTiers_sorted (l : list Tier) :
  StronglySorted from_le (sortedTiers l).
Proof.
  induction l as [|x l IH]; simpl; [constructor|].
  now apply insert_tier_sorted.
Qed.

(** Once the amount is reached, the remaining tiers credit nothing. *)
Lemma bracket_scan_idle (amount : Dec.t) (tiers : list Tier)
    (total processed : Dec.t) :
  Forall (fun t => Dec.lte amount (Dec.max (from_or_0 t) processed) = true)
    tiers ->
  bracket_scan amount tiers total processed = total.
Proof.
  induction 1 as [|t tiers Ht _ IH]; simpl; [reflexivity|].
  rewrite minus_not_pos; [exact IH|].
  eapply DecFacts.lte_trans; [apply DecFacts.min_inf_le | exact Ht].
Qed.

Lemma idle_processed (amount processed : Dec.t) (tiers : list Tier) :
  Dec.lte amount processed = true ->
  Forall (fun t => Dec.lte amount (Dec.max (from_or_0 t) processed) = true)
    tiers.
Proof.
  intros H. apply Forall_forall. intros t _.
  eapply DecFacts.lte_trans; [exact H | apply DecFacts.max_ge_r].
Qed.

Lemma idle_from (amount processed : Dec.t) (t : Tier) (tiers : list Tier) :
  Dec.lte amount (from_or_0 t) = true ->
  Forall (from_le t) tiers ->
  Forall (fun t' => Dec.lte amount (Dec.max (from_or_0 t') processed) = true)
    (t :: tiers).
Proof.
  intros H Hall. constructor.
  - eapply DecFacts.lte_trans; [exact H | apply DecFacts.max_ge_l].
  - eapply Forall_impl; [exact Hall|].
    intros t' Ht'. unfold from_le in Ht'.
    eapply DecFacts.lte_trans; [exact H|].
    eapply DecFacts.lte_trans; [exact Ht' | apply DecFacts.max_ge_l].
Qed.

(** On tiers in ascending order the loop with its early exits and the
    exhaustive scan agree. *)
Lemma tier_loop_bracket_scan (amount : Dec.t) (tiers : list Tier) :
  StronglySorted from_le tiers ->
  forall total processed,
    tier_loop amount tiers total processed
    = bracket_scan amount tiers total processed.
Proof.
  induction 1 as [|t tiers Hs IH Hall]; intros total processed;
    [reflexivity|].
  cbn [tier_loop].
  destruct (Dec.lte amount (from_or_0 t)) eqn:Hfrom; cbn [orb].
  { symmetry. apply bracket_scan_idle. now apply idle_from. }
  destruct (Dec.lte amount processed) eqn:Hproc.
  { symmetry. apply bracket_scan_idle. now apply idle_processed. }
  cbn [bracket_scan]. unfold tierPayout.
  destruct (Dec.gt (Dec.minus (Dec.min_inf (tier_to t) amount)
                      (Dec.max (from_or_0 t) processed)) Dec.zero).
  - rewrite DecFacts.gte_lte.
    destruct (Dec.lte amount (Dec.min_inf (tier_to t) amount)) eqn:Hend.
    + symmetry. apply bracket_scan_idle. now apply idle_processed.
    + apply IH.
  - rewrite DecFacts.gte_lte, Hproc. apply IH.
Qed.

End TieredPayout.

(** C1. [calculateMarginalTieredPayout] is the bracket rule: the tiers are
    taken in ascending order of [from] (a sorted rearrangement of the table),
    every tier credits its positive slice between
    [max(from, amountAlreadyProcessed)] and [min(to or infinity, amount)] at
    its rate, divided by 100 unless [isPercentage] is false; and the tiers
    (0, 25000, 3), (25000, 125000, 7), (125000, unbounded, 10) pay 15250.00 on
    200000. *)
Theorem marginal_payout_is_bracket_rule :
  (forall (amount : Dec.t) (tiers : list Tier),
      sortedTiers tiers ≡ₚ tiers /\
      StronglySorted from_le (sortedTiers tiers) /\
      calculateMarginalTieredPayout amount tiers
      = bracket_scan amount (sortedTiers tiers) Dec.zero Dec.zero) /\
  formatDecimal
    (calculateMarginalTieredPayout (Dec.of_Z 200000)
       [ mkTier "t1" (Some (Dec.of_Z 0)) (Some (Dec.of_Z 25000))
           (Some (Dec.of_Z 3)) None;
         mkTier "t2" (Some (Dec.of_Z 25000)) (Some (Dec.of_Z 125000))
           (Some (Dec.of_Z 7)) (Some true);
         mkTier "t3" (Some (Dec.of_Z 125000)) None
           (Some (Dec.of_Z 10)) (Some true) ]) 2
  = "15250.00".
Proof.
  split; [|vm_compute; reflexivity].
  intros amount tiers. split; [apply sortedTiers_perm|].
  split; [apply sortedTiers_sorted|].
  unfold calculateMarginalTieredPayout.
  destruct tiers as [|t tiers]; [reflexivity|].
  apply tier_loop_bracket_scan, sortedTiers_sorted.
Qed.

(** ** Condition evaluation *)

Section ConditionEvaluation.

Lemma compareDates_refl (d : Date) : compareDates d d = 0.
Proof.
  unfold compareDates.
  rewrite !Z.ltb_irrefl.
  rewrite !Z.gtb_ltb, !Z.ltb_irrefl. reflexivity.
Qed.

End ConditionEvaluation.

(** C5. On a null, undefined or empty record value [evaluateCondition] is
    true exactly for the operator [=] against an equally empty rule value,
    whatever the data type; on an empty rule value and a record value that is
    not empty it is true exactly for the operator [!=]. *)
Theorem evaluateCondition_blank_policy
    (recordValue : value) (operator : string) (ruleValue : value)
    (dataType : string) :
  (is_blank recordValue = true ->
   (evaluateCondition recordValue operator ruleValue dataType = true
    <-> operator = "=" /\ is_blank ruleValue = true)) /\
  (is_blank recordValue = false -> is_blank ruleValue = true ->
   (evaluateCondition recordValue operator ruleValue dataType = true
    <-> operator = "!=")).
Proof.
  unfold evaluateCondition. split.
  - intros ->. rewrite andb_true_iff, String.eqb_eq. reflexivity.
  - intros -> ->. rewrite andb_false_r. cbn [negb]. rewrite andb_true_r.
    destruct (String.eqb_spec operator "!="); split; intros; congruence.
Qed.

Lemma evaluateCondition_blank_policy_witness :
  (evaluateCondition VNull "=" (VStr "") "Number" = true
   <-> "=" = "=" /\ is_blank (VStr "") = true) /\
  (evaluateCondition (VStr "x") "!=" VUndef "Date" = true <-> "!=" = "!=").
Proof.
  split.
  - apply (proj1 (evaluateCondition_blank_policy VNull "=" (VStr "") "Number")).
    reflexivity.
  - apply (proj2 (evaluateCondition_blank_policy (VStr "x") "!=" VUndef "Date"));
      reflexivity.
Defined.
(** C9, as the claim states it, fails: on two values that are not empty but
    of which one is no date, [!=] and [=] are both false. *)
Lemma neq_is_not_always_the_negation_of_eq :
  ~ (forall (recordValue ruleValue : value) (dataType : string),
        is_blank recordValue = false -> is_blank ruleValue = false ->
        evaluateCondition recordValue "!=" ruleValue dataType
        = negb (evaluateCondition recordValue "=" ruleValue dataType)).
Proof.
  intros H.
  specialize (H (VStr "next week") (VStr "2024-12-31") "Date" eq_refl eq_refl).
  vm_compute in H. discriminate H.
Qed.

(** C9, amended. [=] is true on identical well-typed values of every data
    type; on two non-empty values that are both well typed for the data type
    [!=] is the negation of [=]; when one of two non-empty values is not well
    typed (no decimal under Number, no date under Date) both operators
    answer false. *)
Theorem evaluateCondition_eq_reflexive_neq_negation :
  (forall (dataType : string) (v : value),
      well_typed dataType v -> evaluateCondition v "=" v dataType = true) /\
  (forall (dataType : string) (recordValue ruleValue : value),
      is_blank recordValue = false -> is_blank ruleValue = false ->
      well_typed dataType recordValue -> well_typed dataType ruleValue ->
      evaluateCondition recordValue "!=" ruleValue dataType
      = negb (evaluateCondition recordValue "=" ruleValue dataType)) /\
  (forall (dataType : string) (recordValue ruleValue : value),
      is_blank recordValue = false -> is_blank ruleValue = false ->
      ~ (well_typed dataType recordValue /\ well_typed dataType ruleValue) ->
      evaluateCondition recordValue "!=" ruleValue dataType = false /\
      evaluateCondition recordValue "=" ruleValue dataType = false).
Proof.
  split; [|split].
  - intros dataType v Hv. unfold evaluateCondition, well_typed in *.
    destruct (is_blank v) eqn:Hb; [reflexivity|].
    destruct (String.eqb dataType "Number").
    { destruct Hv as [d ->]. cbn. apply DecFacts.equals_refl. }
    destruct (String.eqb dataType "Date").
    { destruct Hv as [d ->]. cbn. now rewrite compareDates_refl. }
    cbn. apply String.eqb_refl.
  - intros dataType rv val Hrv Hval Hw1 Hw2.
    unfold evaluateCondition, well_typed in *. rewrite Hrv, Hval.
    destruct (String.eqb dataType "Number").
    { destruct Hw1 as [d1 ->], Hw2 as [d2 ->]. reflexivity. }
    destruct (String.eqb dataType "Date").
    { destruct Hw1 as [d1 ->], Hw2 as [d2 ->]. reflexivity. }
    reflexivity.
  - intros dataType rv val Hrv Hval Hw.
    unfold evaluateCondition, well_typed in *. rewrite Hrv, Hval.
    destruct (String.eqb dataType "Number").
    { destruct (toDecimal rv); [|now split].
      destruct (toDecimal val); [|now split].
      exfalso. apply Hw. split; eexists; reflexivity. }
    destruct (String.eqb dataType "Date").
    { destruct (parseDate (VStr (js_String rv))); [|now split].
      destruct (parseDate (VStr (js_String val))); [|now split].
      exfalso. apply Hw. split; eexists; reflexivity. }
    exfalso. apply Hw. split; exact I.
Qed.

Lemma evaluateCondition_eq_reflexive_neq_negation_witness :
  evaluateCondition (VStr "12.50") "=" (VStr "12.50") "Number" = true /\
  evaluateCondition (VStr "2024-12-31") "!=" (VStr "2025-01-01") "Date"
  = negb (evaluateCondition (VStr "2024-12-31") "=" (VStr "2025-01-01") "Date")
  /\
  (evaluateCondition (VStr "abc") "!=" (VNum (Dec.of_Z 5)) "Number" = false /\
   evaluateCondition (VStr "abc") "=" (VNum (Dec.of_Z 5)) "Number" = false).
Proof.
  destruct evaluateCondition_eq_reflexive_neq_negation as (H1 & H2 & H3).
  split; [|split].
  - apply H1. vm_compute. eexists; reflexivity.
  - apply H2; try reflexivity; vm_compute; eexists; reflexivity.
  - apply H3; try reflexivity.
    vm_compute. intros [[d Hd] _]. discriminate Hd.
Defined.

(** ** Manager lookup *)

Section ManagerLookup.

Variables (agentId role : string) (schemeStart runAsOf : Date).

Lemma manager_of_row_spec (row : value) (m : string) :
  manager_of_row agentId (toUpperCase role) schemeStart runAsOf row = Some m
  <-> valid_manager_row agentId role schemeStart runAsOf row m.
Proof.
  unfold manager_of_row, valid_manager_row, row_matches, window_overlaps,
    names_manager.
  destruct (String.eqb_spec
              (trim (js_String (safeGet row "AgentID" (VStr "")))) agentId)
    as [Ha|Ha]; cbn [andb]; [|split; [discriminate | tauto]].
  destruct (String.eqb_spec
              (toUpperCase (trim (js_String (safeGet row "Level" (VStr "")))))
              (toUpperCase role)) as [Hl|Hl]; [|split; [discriminate | tauto]].
  destruct (parseDate (safeGet row "ReportsFrom" VUndef)) as [rf|];
    [|split; [discriminate | intros (_ & (? & ? & [=] & _) & _)]].
  destruct (parseDate (safeGet row "ReportsToEnd" VUndef)) as [rt|];
    [|split; [discriminate | intros (_ & (? & ? & _ & [=] & _) & _)]].
  destruct (Z.leb_spec (compareDates rf runAsOf) 0) as [H1|H1]; cbn [andb];
    [|split; [discriminate
             | intros (_ & (? & ? & [= <-] & [= <-] & ? & ?) & _); lia]].
  destruct (Z.geb_spec (compareDates rt schemeStart) 0) as [H2|H2];
    [|split; [discriminate
             | intros (_ & (? & ? & [= <-] & [= <-] & ? & ?) & _); lia]].
  assert (Hw : exists reportsFrom reportsToEnd : Date,
             Some rf = Some reportsFrom /\ Some rt = Some reportsToEnd /\
             compareDates reportsFrom runAsOf <= 0 /\
             compareDates reportsToEnd schemeStart >= 0)
    by (exists rf, rt; split; [reflexivity|]; split; [reflexivity|]; lia).
  destruct (safeGet row "ManagerID" VNull) eqn:HM;
    try (destruct (String.eqb_spec (trim (js_String (safeGet row "ManagerID" VNull))) "")
           as [He|He]; rewrite HM in He; cbn [js_String] in He |- *;
         [ rewrite (proj2 (String.eqb_eq _ _) He);
           split; [discriminate | intros (_ & _ & _ & -> & Hne); congruence]
         | rewrite (proj2 (String.eqb_neq _ _) He);
           split;
           [ intros [= <-]; repeat split; (assumption || discriminate)
           | intros (_ & _ & _ & -> & _); reflexivity ] ]).
  split; [discriminate | intros (_ & _ & Hn & _); congruence].
Qed.

Lemma findManager_loop_first (rows : list value) (m : string) :
  findManager_loop agentId (toUpperCase role) schemeStart runAsOf rows = Some m
  <-> exists (i : nat) (row : value),
        rows !! i = Some row /\
        valid_manager_row agentId role schemeStart runAsOf row m /\
        forall (j : nat) (row' : value) (m' : string),
          (j < i)%nat -> rows !! j = Some row' ->
          ~ valid_manager_row agentId role schemeStart runAsOf row' m'.
Proof.
  induction rows as [|row rows IH]; cbn [findManager_loop].
  - split; [discriminate | intros (i & r & H & _); destruct i; discriminate H].
  - destruct (manager_of_row agentId (toUpperCase role) schemeStart runAsOf row)
      as [m0|] eqn:Hrow.
    + split.
      * intros [= <-]. exists 0%nat, row. split; [reflexivity|].
        split; [now apply manager_of_row_spec | intros; lia].
      * intros (i & r & Hi & Hv & Hfirst). destruct i as [|i].
        -- injection Hi as <-. apply manager_of_row_spec in Hv. congruence.
        -- exfalso. apply (Hfirst 0%nat row m0); [lia | reflexivity|].
           now apply manager_of_row_spec.
    + rewrite IH. split.
      * intros (i & r & Hi & Hv & Hfirst). exists (S i), r.
        split; [exact Hi|]. split; [exact Hv|].
        intros j row' m' Hj Hrow'. destruct j as [|j].
        -- injection Hrow' as <-. rewrite <- manager_of_row_spec. congruence.
        -- apply (Hfirst j row' m'); [lia | exact Hrow'].
      * intros (i & r & Hi & Hv & Hfirst). destruct i as [|i].
        -- injection Hi as <-. apply manager_of_row_spec in Hv. congruence.
        -- exists i, r. split; [exact Hi|]. split; [exact Hv|].
           intros j row' m' Hj Hrow'.
           apply (Hfirst (S j) row' m'); [lia | exact Hrow'].
Qed.

Lemma findManager_loop_none (rows : list value) :
  findManager_loop agentId (toUpperCase role) schemeStart runAsOf rows = None
  <-> forall (row : value) (m : string),
        row ∈ rows -> ~ valid_manager_row agentId role schemeStart runAsOf row m.
Proof.
  induction rows as [|row rows IH]; cbn [findManager_loop].
  - split; [intros _ r m Hr; inversion Hr | reflexivity].
  - destruct (manager_of_row agentId (toUpperCase role) schemeStart runAsOf row)
      as [m0|] eqn:Hrow.
    + split; [discriminate|]. intros H. exfalso.
      apply (H row m0); [left | now apply manager_of_row_spec].
    + rewrite IH. split.
      * intros H r m Hr. apply elem_of_cons in Hr as [->|Hr].
        -- rewrite <- manager_of_row_spec. congruence.
        -- now apply H.
      * intros H r m Hr. apply H. now right.
Qed.

End ManagerLookup.
(** C6, as the claim states it, fails for an empty agent id: the guard at the
    head of [findManager] answers none although the first row matches the
    agent and the role, overlaps the run window and names a manager. *)
Lemma findManager_empty_agent_finds_nothing :
  ~ (forall (agentId role : string) (rows : list value)
            (schemeStart runAsOf : Date) (row : value) (m : string),
        rows !! 0%nat = Some row ->
        valid_manager_row agentId role schemeStart runAsOf row m ->
        findManager agentId role rows schemeStart runAsOf = Some m).
Proof.
  intros H.
  specialize (H "" "L1"
                [hierarchy_row "" "L1" "MGR_A" "2024-01-01" "2024-12-31"]
                (mkDate 2024 11 1) (mkDate 2024 11 31)
                (hierarchy_row "" "L1" "MGR_A" "2024-01-01" "2024-12-31")
                "MGR_A" eq_refl).
  assert (Hv : valid_manager_row "" "L1" (mkDate 2024 11 1) (mkDate 2024 11 31)
                 (hierarchy_row "" "L1" "MGR_A" "2024-01-01" "2024-12-31")
                 "MGR_A").
  { split; [split; reflexivity|]. split.
    - exists (mkDate 2024 0 1), (mkDate 2024 11 31).
      repeat split; vm_compute; congruence.
    - repeat split; vm_compute; congruence. }
  specialize (H Hv). vm_compute in H. discriminate H.
Qed.

(** C6, amended. For an agent id and a role that are not empty,
    [findManager] returns the manager of the first row in input order that
    matches the agent (exactly) and the role (whatever the case), whose window
    satisfies reportsFrom <= runAsOf and reportsToEnd >= schemeStart, and
    that names a non-empty manager; it returns none when no matching row
    overlaps the run window and some manager whenever such a row exists, as
    for the window 2024-01-01..2024-12-31 against the run window
    2024-12-01..2024-12-31.  For an empty agent id or role it returns
    none. *)
Theorem findManager_first_overlapping_row
    (agentId role : string) (rows : list value) (schemeStart runAsOf : Date) :
  (agentId = "" \/ role = "" ->
   findManager agentId role rows schemeStart runAsOf = None) /\
  (agentId <> "" -> role <> "" ->
   (forall m : string,
       findManager agentId role rows schemeStart runAsOf = Some m <->
       exists (i : nat) (row : value),
         rows !! i = Some row /\
         valid_manager_row agentId role schemeStart runAsOf row m /\
         forall (j : nat) (row' : value) (m' : string),
           (j < i)%nat -> rows !! j = Some row' ->
           ~ valid_manager_row agentId role schemeStart runAsOf row' m') /\
   ((forall row : value,
        row ∈ rows ->
        ~ (row_matches agentId role row /\
           window_overlaps schemeStart runAsOf row)) ->
    findManager agentId role rows schemeStart runAsOf = None) /\
   ((exists (row : value) (m : string),
        row ∈ rows /\
        valid_manager_row agentId role schemeStart runAsOf row m) ->
    is_Some (findManager agentId role rows schemeStart runAsOf))) /\
  findManager "101" "l1"
    [hierarchy_row "101" "L1" "MGR_A" "2024-01-01" "2024-12-31"]
    (mkDate 2024 11 1) (mkDate 2024 11 31) = Some "MGR_A".
Proof.
  split; [|split; [|vm_compute; reflexivity]].
  - unfold findManager. intros [-> | ->]; [reflexivity|].
    now rewrite orb_true_r.
  - intros Ha Hr. unfold findManager.
    rewrite (proj2 (String.eqb_neq _ _) Ha), (proj2 (String.eqb_neq _ _) Hr).
    cbn [orb]. split; [|split].
    + intros m. apply findManager_loop_first.
    + intros Hno. apply findManager_loop_none.
      intros row m Hrow (Hm & Hw & _). apply (Hno row Hrow). now split.
    + intros (row & m & Hrow & Hv).
      destruct (findManager_loop agentId (toUpperCase role) schemeStart
                  runAsOf rows) as [m0|] eqn:Hloop; [now eexists|].
      exfalso. rewrite findManager_loop_none in Hloop.
      now apply (Hloop row m).
Qed.

Lemma findManager_first_overlapping_row_witness :
  findManager "" "L1" [] (mkDate 2024 11 1) (mkDate 2024 11 31) = None /\
  is_Some (findManager "101" "L2"
             [hierarchy_row "101" "L1" "MGR_A" "2024-01-01" "2024-12-31";
              hierarchy_row "101" "L2" "MGR_B" "2024-01-01" "2024-12-31"]
             (mkDate 2024 11 1) (mkDate 2024 11 31)).
Proof.
  split.
  - apply (proj1 (findManager_first_overlapping_row "" "L1" []
                    (mkDate 2024 11 1) (mkDate 2024 11 31))).
    left; reflexivity.
  - apply (proj2 (findManager_first_overlapping_row "101" "L2"
                    [hierarchy_row "101" "L1" "MGR_A" "2024-01-01" "2024-12-31";
                     hierarchy_row "101" "L2" "MGR_B" "2024-01-01" "2024-12-31"]
                    (mkDate 2024 11 1) (mkDate 2024 11 31)));
      [discriminate | discriminate |].
    exists (hierarchy_row "101" "L2" "MGR_B" "2024-01-01" "2024-12-31"), "MGR_B".
    split; [right; left|].
    split; [split; reflexivity|]. split.
    + exists (mkDate 2024 0 1), (mkDate 2024 11 31).
      repeat split; vm_compute; congruence.
    + repeat split; vm_compute; congruence.
Defined.

(** ** What the run writes *)

(** C8, as the claim states it, fails: a scheme without [payoutTiers] leaves
    the run with [payoutTiers] set to an empty array. *)
Lemma runScheme_sets_missing_payoutTiers :
  ~ (forall (h : Heap) (runAsOfDate : value) (now : string),
        heap_scheme (snd (runScheme h runAsOfDate now)) = heap_scheme h).
Proof.
  intros H.
  specialize (H (mkHeap (demo_scheme None) (demo_files []))
                (VStr "2024-12-31") "t0").
  vm_compute in H. discriminate H.
Qed.

(** C8, amended. The run leaves the uploaded files, hence every hierarchy
    record, as they were, and every field of the scheme other than
    [payoutTiers] as it was; [payoutTiers] is kept when the scheme has it and
    becomes the empty sequence when the scheme lacks it and the configuration
    passes validation. *)
Theorem runScheme_frame (h : Heap) (runAsOfDate : value) (now : string) :
  let h' := snd (runScheme h runAsOfDate now) in
  heap_uploadedFiles h' = heap_uploadedFiles h /\
  scheme_name (heap_scheme h') = scheme_name (heap_scheme h) /\
  effectiveFrom (heap_scheme h') = effectiveFrom (heap_scheme h) /\
  baseMapping (heap_scheme h') = baseMapping (heap_scheme h) /\
  qualificationRules (heap_scheme h') = qualificationRules (heap_scheme h) /\
  exclusionRules (heap_scheme h') = exclusionRules (heap_scheme h) /\
  adjustmentRules (heap_scheme h') = adjustmentRules (heap_scheme h) /\
  customRules (heap_scheme h') = customRules (heap_scheme h) /\
  creditSplits (heap_scheme h') = creditSplits (heap_scheme h) /\
  creditHierarchyFile (heap_scheme h') = creditHierarchyFile (heap_scheme h) /\
  kpiConfig (heap_scheme h') = kpiConfig (heap_scheme h) /\
  payoutTiers (heap_scheme h') =
    match payoutTiers (heap_scheme h) with
    | Some tiers => Some tiers
    | None =>
        match validate (heap_scheme h) (heap_uploadedFiles h) runAsOfDate with
        | Ok _ => Some []
        | Throw _ => None
        end
    end.
Proof.
  unfold runScheme.
  destruct (validate (heap_scheme h) (heap_uploadedFiles h) runAsOfDate)
    as [[[[runAsOf runDate] schemeStart] bm]|e]; cbn [snd].
  - unfold ensure_payoutTiers.
    destruct (payoutTiers (heap_scheme h)) eqn:Ht; cbn; rewrite ?Ht;
      repeat split; reflexivity.
  - destruct (payoutTiers (heap_scheme h)); repeat split; reflexivity.
Qed.

(** ** Runs that abort *)

(** C7. The configuration passes validation, and yet a record without an
    agent identity, one with an empty agent identity and one with a malformed
    amount each abort the run with an error instead of a result. *)
Theorem runScheme_aborts_on_record_defects :
  is_Ok (validate (demo_scheme (Some [])) (demo_files []) (VStr "2024-12-31"))
  /\
  fst (runScheme
         (mkHeap (demo_scheme (Some []))
            (demo_files
               [VObj [("Amount", VNum (Dec.of_Z 100));
                      ("Date", VStr "2024-12-05")]]))
         (VStr "2024-12-31") "t0")
  = Throw (ReferenceError "_recordId") /\
  fst (runScheme
         (mkHeap (demo_scheme (Some []))
            (demo_files
               [demo_row (VStr " ") (VNum (Dec.of_Z 100)) (VStr "2024-12-05")]))
         (VStr "2024-12-31") "t0")
  = Throw (ReferenceError "_recordId") /\
  fst (runScheme
         (mkHeap (demo_scheme (Some []))
            (demo_files
               [demo_row (VStr "101") (VStr "12,5") (VStr "2024-12-05")]))
         (VStr "2024-12-31") "t0")
  = Throw (DecimalError (VStr "12,5")).
Proof.
  split; [eexists; vm_compute; reflexivity|].
  repeat split; vm_compute; reflexivity.
Qed.

(** ** Processing one record *)

Section RecordProcessing.

Variables (scheme : Scheme) (fieldMap : gmap string FieldInfo)
  (bm : BaseMapping) (now agent : string) (record : value).

Let fires := rule_fires fieldMap (bm_sourceFile bm) record.

Lemma exclusion_loop_some (rules : list Rule) (rule : Rule) :
  exclusion_loop fieldMap (bm_sourceFile bm) record rules = Some rule
  <-> first_firing fires rules rule.
Proof.
  unfold first_firing, fires.
  induction rules as [|r rules IH]; cbn [exclusion_loop].
  - split; [discriminate|]. intros (pre & post & H & _).
    now destruct pre.
  - destruct (rule_fires fieldMap (bm_sourceFile bm) record r) eqn:Hr.
    + split.
      * intros [= <-]. exists [], rules. split; [reflexivity|].
        split; [exact Hr|]. intros x Hx. inversion Hx.
      * intros (pre & post & Heq & Hf & Hpre). destruct pre as [|x pre].
        -- now injection Heq as ->.
        -- injection Heq as <- _. rewrite Hpre in Hr by left. discriminate.
    + rewrite IH. split.
      * intros (pre & post & -> & Hf & Hpre). exists (r :: pre), post.
        split; [reflexivity|]. split; [exact Hf|].
        intros x Hx. apply elem_of_cons in Hx as [->|Hx]; auto.
      * intros (pre & post & Heq & Hf & Hpre). destruct pre as [|x pre].
        -- injection Heq as <- _. congruence.
        -- injection Heq as <- ->. exists pre, post.
           split; [reflexivity|]. split; [exact Hf|].
           intros y Hy. apply Hpre. now right.
Qed.

Lemma exclusion_loop_none (rules : list Rule) :
  exclusion_loop fieldMap (bm_sourceFile bm) record rules = None
  <-> forall r : Rule, r ∈ rules -> fires r = false.
Proof.
  unfold fires. induction rules as [|r rules IH]; cbn [exclusion_loop].
  - split; [intros _ x Hx; inversion Hx | reflexivity].
  - destruct (rule_fires fieldMap (bm_sourceFile bm) record r) eqn:Hr.
    + split; [discriminate|]. intros H. rewrite H in Hr by left. discriminate.
    + rewrite IH. split.
      * intros H x Hx. apply elem_of_cons in Hx as [->|Hx]; auto.
      * intros H x Hx. apply H. now right.
Qed.

Lemma first_firing_unique (rules : list Rule) (r1 r2 : Rule) :
  first_firing fires rules r1 -> first_firing fires rules r2 -> r1 = r2.
Proof.
  intros H1 H2. apply exclusion_loop_some in H1, H2. congruence.
Qed.

Lemma apply_adjustment_amounts (rule : AdjustmentRule) (a m : Dec.t) :
  (apply_adjustment rule a m).1 = adjust_amounts (a, m) (arule_adjustment rule).
Proof.
  unfold apply_adjustment, adjust_amounts.
  repeat match goal with
         | |- context [if ?b then _ else _] => destruct b
         end; reflexivity.
Qed.

(** One rule of the adjustment loop: the amounts move as the specification
    says when the condition holds, and exactly then one Adjustment entry is
    pushed. *)
Lemma adjustment_step_amounts (originalAmount : Dec.t) (st : AdjState)
    (rule : AdjustmentRule) :
  let st' := adjustment_step fieldMap (bm_sourceFile bm) now agent record
               originalAmount st rule in
  (currentAmount st', rateMultiplier st')
  = (if fires (arule_condition rule)
     then adjust_amounts (currentAmount st, rateMultiplier st)
            (arule_adjustment rule)
     else (currentAmount st, rateMultiplier st)) /\
  exists es : list LogEntry,
    adj_logs st' = (adj_logs st ++ es)%list /\
    ruleId <$> es
    = (if fires (arule_condition rule) then [arule_id rule] else []) /\
    Forall (entry_of Adjustment_ agent record) es.
Proof.
  unfold fires, adjustment_step, rule_fires.
  destruct (applicable fieldMap (bm_sourceFile bm)
              (rule_field (arule_condition rule))) as [fi|].
  - destruct (evaluateCondition _ _ _ _).
    + pose proof (apply_adjustment_amounts rule (currentAmount st)
                    (rateMultiplier st)) as Ha.
      destruct (apply_adjustment rule (currentAmount st) (rateMultiplier st))
        as [[a m] msg].
      cbn [fst] in Ha. cbn [currentAmount rateMultiplier adj_logs].
      split; [exact Ha|]. eexists. split; [reflexivity|].
      split; [reflexivity|]. constructor; [|constructor].
      repeat split.
    + split; [reflexivity|]. exists [].
      split; [now rewrite app_nil_r|]. split; [reflexivity | constructor].
  - split; [reflexivity|]. exists [].
    split; [now rewrite app_nil_r|]. split; [reflexivity | constructor].
Qed.

Lemma adjustment_loop_amounts (originalAmount : Dec.t)
    (rules : list AdjustmentRule) (st : AdjState) :
  let st' :=
    fold_left (adjustment_step fieldMap (bm_sourceFile bm) now agent record
                 originalAmount) rules st in
  (currentAmount st', rateMultiplier st')
  = fold_left
      (fun s rule =>
         if fires (arule_condition rule)
         then adjust_amounts s (arule_adjustment rule) else s)
      rules (currentAmount st, rateMultiplier st) /\
  exists es : list LogEntry,
    adj_logs st' = (adj_logs st ++ es)%list /\
    ruleId <$> es
    = arule_id <$> firing_adjustments fieldMap (bm_sourceFile bm) record rules /\
    Forall (entry_of Adjustment_ agent record) es.
Proof.
  revert st. induction rules as [|rule rules IH]; intros st; cbn [fold_left].
  - split; [reflexivity|]. exists [].
    split; [now rewrite app_nil_r|]. split; [reflexivity | constructor].
  - destruct (adjustment_step_amounts originalAmount st rule)
      as (Hamt & es1 & Hlogs1 & Hids1 & Hty1).
    destruct (IH (adjustment_step fieldMap (bm_sourceFile bm) now agent
                    record originalAmount st rule))
      as (IHamt & es2 & Hlogs2 & Hids2 & Hty2).
    cbn zeta in *. rewrite IHamt, Hamt. split; [reflexivity|].
    exists (es1 ++ es2)%list. rewrite Hlogs2, Hlogs1, <- app_assoc.
    split; [reflexivity|]. split; [|now apply Forall_app].
    rewrite fmap_app, Hids1, Hids2. unfold firing_adjustments.
    fold fires.
    destruct (fires (arule_condition rule)) eqn:Hf.
    + now rewrite filter_cons_True by exact Hf.
    + now rewrite filter_cons_False by (rewrite Hf; discriminate).
Qed.

End RecordProcessing.

(** ** The agent loop *)

Section AgentLoop.

Variables (scheme : Scheme) (fieldMap : gmap string FieldInfo)
  (bm : BaseMapping) (runAsOf now : string) (hierarchyData : value)
  (schemeStart runDate : Date).

Lemma processRecord_total (agent : string) (record : value) :
  is_Ok (processRecord scheme fieldMap bm now agent record)
  <-> is_Some (toDecimal (safeGet record (bm_amountField bm) (VNum Dec.zero))).
Proof.
  unfold processRecord, newDecimal.
  destruct (toDecimal _) as [d|]; cbn.
  - split; [intros _; now eexists|]. intros _.
    destruct (exclusion_loop _ _ _ _); eexists; reflexivity.
  - split; [intros [o [=]] | intros [d [=]]].
Qed.

(** The record and the entries of an outcome. *)
Lemma processRecord_entries (agent : string) (record : value)
    (o : RecordOutcome) :
  processRecord scheme fieldMap bm now agent record = Ok o ->
  pr_record (ro_processed o) = record /\
  Forall (fun e => agentId e = agent /\
                   recordId e = Some (get_prop record "_recordId"))
    (ro_logs o) /\
  (ps_isExcluded (_processingStatus (ro_processed o)) = true ->
   ps_adjustedAmount (_processingStatus (ro_processed o)) = "0.00").
Proof.
  unfold processRecord, newDecimal.
  destruct (toDecimal _) as [d|]; cbn; [|discriminate].
  destruct (exclusion_loop _ _ _ _) as [rule|].
  - intros [= <-]. cbn. split; [reflexivity|].
    split; [|reflexivity]. repeat constructor.
  - intros [= <-]. cbn. split; [reflexivity|]. split; [|discriminate].
    destruct (adjustment_loop_amounts fieldMap bm now agent record d
                (adjustmentRules scheme) (mkAdjState d Dec.one None []))
      as (_ & es & Hlogs & _ & Hall).
    unfold adjustment_loop. cbn zeta in Hlogs. rewrite Hlogs. cbn.
    eapply Forall_impl; [exact Hall|]. intros e (_ & ? & ?). now split.
Qed.

Lemma process_records_outcomes (agent : string) (records : list value)
    (acc acc' : AgentAcc) :
  process_records scheme fieldMap bm now agent records acc = Ok acc' ->
  exists outcomes : list RecordOutcome,
    Forall2 (fun r o => processRecord scheme fieldMap bm now agent r = Ok o)
      records outcomes /\
    acc' = fold_left add_outcome outcomes acc.
Proof.
  revert acc. induction records as [|r records IH]; intros acc; cbn.
  - intros [= <-]. exists []. split; [constructor | reflexivity].
  - destruct (processRecord scheme fieldMap bm now agent r) as [o|e] eqn:Hr;
      cbn; [|discriminate].
    intros H. destruct (IH _ H) as (os & Hos & ->).
    exists (o :: os). split; [now constructor | reflexivity].
Qed.

Lemma fold_add_outcome (outcomes : list RecordOutcome) (acc : AgentAcc) :
  acc_logs (fold_left add_outcome outcomes acc)
  = (acc_logs acc ++ mjoin (ro_logs <$> outcomes))%list /\
  acc_raw (fold_left add_outcome outcomes acc)
  = (acc_raw acc ++ (ro_processed <$> outcomes))%list.
Proof.
  revert acc. induction outcomes as [|o os IH]; intros acc; cbn.
  - now rewrite !app_nil_r.
  - destruct (IH (add_outcome acc o)) as [-> ->]. cbn.
    rewrite <- !app_assoc. split; reflexivity.
Qed.

Lemma split_step_entries (agent : string) (rows : list value)
    (basePayout : Dec.t)
    (st : gmap string (list DistributionRecord) * list LogEntry)
    (split : CreditSplit) :
  Forall (agent_entry agent) st.2 ->
  Forall (agent_entry agent)
    (split_step scheme runAsOf now agent rows schemeStart runDate basePayout
       st split).2.
Proof.
  destruct st as [dist logs]. unfold split_step. cbn [snd]. intros H.
  destruct (String.eqb (split_role split) ""
            || Dec.lte (split_percentage split) Dec.zero); [exact H|].
  destruct (findManager _ _ _ _ _) as [m|].
  - destruct (Dec.gt _ _); [|exact H]. cbn [snd].
    apply Forall_app. split; [exact H|]. repeat constructor.
  - cbn [snd]. apply Forall_app. split; [exact H|]. repeat constructor.
Qed.

Lemma credit_splits_entries (agent : string) (basePayout : Dec.t)
    (dist : gmap string (list DistributionRecord)) :
  Forall (agent_entry agent)
    (credit_splits scheme runAsOf now agent hierarchyData schemeStart runDate
       basePayout dist).2.
Proof.
  unfold credit_splits.
  destruct (Dec.gt basePayout Dec.zero
            && match creditSplits scheme with [] => false | _ => true end
            && match hierarchyData with VArr (_ :: _) => true | _ => false end).
  - assert (Hgen : forall splits st,
               Forall (agent_entry agent) st.2 ->
               Forall (agent_entry agent)
                 (fold_left
                    (split_step scheme runAsOf now agent (rows_of hierarchyData)
                       schemeStart runDate basePayout) splits st).2).
    { induction splits as [|sp splits IH]; intros st Hst; cbn; [exact Hst|].
      apply IH. now apply split_step_entries. }
    apply Hgen. constructor.
  - destruct (Dec.gt basePayout Dec.zero
              && match creditSplits scheme with [] => false | _ => true end
              && negb match hierarchyData with
                      | VArr (_ :: _) => true
                      | _ => false
                      end); cbn [snd]; repeat constructor.
Qed.

Lemma agent_qualification_entries (agent : string) (total : Dec.t) :
  Forall (agent_entry agent)
    (agent_qualification scheme fieldMap bm now agent total).2.
Proof.
  unfold agent_qualification.
  destruct (Dec.lte total Dec.zero); [constructor|].
  destruct (agent_qual_loop _ _ _ _); cbn [snd]; repeat constructor.
Qed.

(** What one iteration leaves: the raw list grows by the processed records
    of the agent, and every entry names the agent and, when it names a
    record, one of the agent's records. *)
Lemma run_agent_inv (agent : string) (records : list value) (st : RunState)
    (ar : AgentRun) :
  run_agent scheme fieldMap bm runAsOf now hierarchyData schemeStart runDate
    agent records st = Ok ar ->
  (exists outcomes : list RecordOutcome,
      Forall2 (fun r o => processRecord scheme fieldMap bm now agent r = Ok o)
        records outcomes /\
      ar_raw ar
      = (st_rawRecordLevelData st ++ (ro_processed <$> outcomes))%list) /\
  Forall (fun e => agentId e = agent /\
                   forall id, recordId e = Some id ->
                              exists r, r ∈ records /\
                                        id = get_prop r "_recordId")
    (ar_agentRuleLogs ar).
Proof.
  unfold run_agent.
  destruct (process_records _ _ _ _ _ _ _) as [acc|e] eqn:Hacc; cbn;
    [|discriminate].
  apply process_records_outcomes in Hacc as (os & Hos & ->).
  destruct (fold_add_outcome os
              (mkAgentAcc Dec.zero [] (st_rawRecordLevelData st)))
    as [Hlogs Hraw].
  pose proof (agent_qualification_entries agent
                (acc_total (fold_left add_outcome os
                              (mkAgentAcc Dec.zero []
                                 (st_rawRecordLevelData st))))) as Hq.
  destruct (agent_qualification _ _ _ _ _ _) as [q qualLogs].
  match goal with
  | |- context [credit_splits ?a ?b ?c ?d ?e ?f ?g ?h ?i] =>
      pose proof (credit_splits_entries agent h i) as Hs;
      destruct (credit_splits a b c d e f g h i) as [dist splitLogs]
  end.
  intros [= <-]. cbn [ar_raw ar_agentRuleLogs]. cbn [snd] in Hq, Hs.
  split; [exists os; split; [exact Hos | exact Hraw]|].
  rewrite Hlogs. cbn [acc_logs app].
  apply Forall_app. split.
  - clear -Hos. induction Hos as [|r o rs os Hr Hos IH]; cbn; [constructor|].
    apply Forall_app. split.
    + apply processRecord_entries in Hr as (_ & Hall & _).
      eapply Forall_impl; [exact Hall|]. intros e [? He]. split; [assumption|].
      intros id Hid. exists r. split; [left | congruence].
    + eapply Forall_impl; [exact IH|]. intros e [? He]. split; [assumption|].
      intros id Hid. destruct (He id Hid) as (r' & ? & ?).
      exists r'. split; [now right | assumption].
  - apply Forall_app. split.
    + eapply Forall_impl; [exact Hq|]. intros e [? He]. split; [assumption|].
      intros id Hid. congruence.
    + eapply Forall_impl; [exact Hs|]. intros e [? He]. split; [assumption|].
      intros id Hid. congruence.
Qed.

End AgentLoop.
Section AgentLoopInvariants.

Variables (scheme : Scheme) (fieldMap : gmap string FieldInfo)
  (bm : BaseMapping) (runAsOf now : string) (hierarchyData : value)
  (schemeStart runDate : Date).

Let loop := agents_loop scheme fieldMap bm runAsOf now hierarchyData
              schemeStart runDate.
Let runs := agent_runs scheme fieldMap bm runAsOf now hierarchyData
              schemeStart runDate.
Let run1 := run_agent scheme fieldMap bm runAsOf now hierarchyData
              schemeStart runDate.

Lemma store_logs_lookup (agent a : string) (logs : list LogEntry)
    (m : gmap string (list LogEntry)) :
  store_logs agent logs m !! a
  = if decide (a = agent /\ logs <> [])
    then Some (default [] (m !! agent) ++ logs)%list
    else m !! a.
Proof.
  unfold store_logs. destruct logs as [|e logs].
  - destruct (decide _) as [[_ H]|_]; [congruence | reflexivity].
  - destruct (decide _) as [[-> _]|Hn].
    + now rewrite lookup_insert_eq.
    + rewrite lookup_insert_ne; [reflexivity|].
      intros <-. apply Hn. split; [reflexivity | discriminate].
Qed.

(** One step of the loop, by cases. *)
Lemma agent_step_cases (st st' : RunState) (agent : string)
    (records : list value) :
  agent_step scheme fieldMap bm runAsOf now hierarchyData schemeStart runDate
    st (agent, records) = Ok st' ->
  (agent = "UNKNOWN_AGENT" /\ st' = st /\
   runs ((agent, records) :: []) st = []) \/
  (agent <> "UNKNOWN_AGENT" /\
   exists ar, run1 agent records st = Ok ar /\ st' = store_agent st agent ar).
Proof.
  unfold agent_step, runs, run1. cbn [agent_runs].
  destruct (String.eqb_spec agent "UNKNOWN_AGENT") as [->|Hne].
  - intros [= <-]. left. repeat split.
  - destruct (run_agent _ _ _ _ _ _ _ _ _ _ _) as [ar|e]; cbn; [|discriminate].
    intros [= <-]. right. split; [exact Hne|]. now exists ar.
Qed.

Lemma agent_runs_source (groups : list (string * list value)) (st : RunState)
    (a : string) (ar : AgentRun) :
  (a, ar) ∈ runs groups st ->
  exists records st0, (a, records) ∈ groups /\ run1 a records st0 = Ok ar.
Proof.
  unfold runs, run1. revert st.
  induction groups as [|[agent records] groups IH]; intros st; cbn [agent_runs].
  - intros H. inversion H.
  - destruct (String.eqb agent "UNKNOWN_AGENT").
    + intros H. destruct (IH _ H) as (rs & st0 & ? & ?).
      exists rs, st0. split; [now right | assumption].
    + destruct (run_agent _ _ _ _ _ _ _ _ _ _ _) as [ar0|e] eqn:Hrun.
      * intros H. apply elem_of_cons in H as [[= -> ->]|H].
        -- exists records, st. split; [left | exact Hrun].
        -- destruct (IH _ H) as (rs & st0 & ? & ?).
           exists rs, st0. split; [now right | assumption].
      * intros H. inversion H.
Qed.

(** Where the raw records of the final state come from. *)
Lemma agents_loop_raw (groups : list (string * list value))
    (st st' : RunState) (p : ProcessedRecord) :
  loop groups st = Ok st' ->
  p ∈ st_rawRecordLevelData st' ->
  p ∈ st_rawRecordLevelData st \/
  exists agent records r o,
    (agent, records) ∈ groups /\ r ∈ records /\
    processRecord scheme fieldMap bm now agent r = Ok o /\
    p = ro_processed o.
Proof.
  unfold loop. revert st.
  induction groups as [|[agent records] groups IH]; intros st; cbn [agents_loop].
  - intros [= <-] Hp. now left.
  - destruct (agent_step _ _ _ _ _ _ _ _ _ _) as [st1|e] eqn:Hstep; cbn;
      [|discriminate].
    intros Hloop Hp. destruct (IH _ Hloop Hp) as [Hin|Hnew].
    + apply agent_step_cases in Hstep as [(_ & -> & _)|(_ & ar & Hrun & ->)].
      * now left.
      * cbn [store_agent st_rawRecordLevelData] in Hin.
        apply run_agent_inv in Hrun as [(os & Hos & Hraw) _].
        rewrite Hraw in Hin. apply elem_of_app in Hin as [Hin|Hin];
          [now left|]. right.
        apply list_elem_of_fmap in Hin as (o & -> & Ho).
        apply list_elem_of_lookup in Ho as [i Hi].
        destruct (Forall2_lookup_r _ _ _ _ _ Hos Hi) as (r & Hr & Hpr).
        exists agent, records, r, o.
        split; [left|]. split; [eapply list_elem_of_lookup_2; exact Hr|].
        now split.
    + right. destruct Hnew as (a & rs & r & o & ? & ? & ? & ?).
      exists a, rs, r, o. split; [now right | now repeat split].
Qed.

(** The keys of [ruleHitLogs] and what is bound to them, against the
    iterations of the loop. *)
Lemma agents_loop_logs (groups : list (string * list value))
    (st st' : RunState) :
  loop groups st = Ok st' ->
  ((forall a, st_ruleHitLogs st !! a <> Some []) ->
   forall a, st_ruleHitLogs st' !! a <> Some []) /\
  (forall a,
      is_Some (st_ruleHitLogs st' !! a) <->
      is_Some (st_ruleHitLogs st !! a) \/
      exists ar e, (a, ar) ∈ runs groups st /\ e ∈ ar_agentRuleLogs ar) /\
  (forall a l e,
      st_ruleHitLogs st' !! a = Some l -> e ∈ l ->
      (exists l0, st_ruleHitLogs st !! a = Some l0 /\ e ∈ l0) \/
      exists ar, (a, ar) ∈ runs groups st /\ e ∈ ar_agentRuleLogs ar).
Proof.
  unfold loop, runs. revert st.
  induction groups as [|[agent records] groups IH]; intros st; cbn [agents_loop].
  - intros [= <-]. split; [auto|]. split.
    + intros a. split; [now left|].
      intros [H|(ar & e & H & _)]; [exact H | inversion H].
    + intros a l e Hl He. left. now exists l.
  - destruct (agent_step _ _ _ _ _ _ _ _ _ _) as [st1|err] eqn:Hstep; cbn;
      [|discriminate].
    intros Hloop. destruct (IH _ Hloop) as (IH1 & IH2 & IH3). clear IH.
    apply agent_step_cases in Hstep as [(-> & -> & _)|(Hne & ar & Hrun & ->)].
    { cbn [agent_runs]. change (String.eqb "UNKNOWN_AGENT" "UNKNOWN_AGENT")
        with true. cbn iota. now split. }
    cbn [agent_runs]. rewrite (proj2 (String.eqb_neq _ _) Hne).
    unfold run1 in Hrun. rewrite Hrun.
    set (rest := agent_runs scheme fieldMap bm runAsOf now hierarchyData
                   schemeStart runDate groups (store_agent st agent ar)) in *.
    cbn [store_agent st_ruleHitLogs] in IH1, IH2, IH3.
    split; [|split].
    + intros Hst. apply IH1. intros a. rewrite store_logs_lookup.
      destruct (decide _) as [[-> Hl]|_]; [|apply Hst].
      intros [= H]. apply app_eq_nil in H as [_ H]. contradiction.
    + intros a. rewrite IH2, store_logs_lookup. split.
      * intros [H|(ar' & e & Hin & He)].
        -- destruct (decide _) as [[-> Hl]|_]; [|now left]. right.
           destruct (ar_agentRuleLogs ar) as [|e es] eqn:Hlogs; [congruence|].
           exists ar, e. split; [left | rewrite Hlogs; left].
        -- right. exists ar', e. split; [now right | exact He].
      * intros [H|(ar' & e & Hin & He)].
        -- left. destruct (decide _) as [_|_]; [now eexists | exact H].
        -- apply elem_of_cons in Hin as [[= -> ->]|Hin].
           ++ left. rewrite decide_True; [now eexists|].
              split; [reflexivity|]. intros Hnil. rewrite Hnil in He.
              inversion He.
           ++ right. exists ar', e. now split.
    + intros a l e Hl He. destruct (IH3 a l e Hl He) as [(l0 & Hl0 & He0)|H].
      * rewrite store_logs_lookup in Hl0.
        destruct (decide _) as [[-> Hnil]|_].
        -- injection Hl0 as <-. apply elem_of_app in He0 as [He0|He0].
           ++ left. destruct (st_ruleHitLogs st !! agent) as [l1|];
                [now exists l1 | inversion He0].
           ++ right. exists ar. split; [left | exact He0].
        -- left. now exists l0.
      * right. destruct H as (ar' & Hin & He'). exists ar'.
        split; [now right | exact He'].
Qed.

(** Nothing leaves the raw list, and every record of a processed group is
    in it at the end. *)
Lemma agents_loop_raw_complete (groups : list (string * list value))
    (st st' : RunState) :
  loop groups st = Ok st' ->
  (forall p, p ∈ st_rawRecordLevelData st -> p ∈ st_rawRecordLevelData st') /\
  (forall a rs r,
      (a, rs) ∈ groups -> a <> "UNKNOWN_AGENT" -> r ∈ rs ->
      exists p, p ∈ st_rawRecordLevelData st' /\ pr_record p = r).
Proof.
  unfold loop. revert st.
  induction groups as [|[agent records] groups IH]; intros st; cbn [agents_loop].
  - intros [= <-]. split; [auto|]. intros a rs r H. inversion H.
  - destruct (agent_step _ _ _ _ _ _ _ _ _ _) as [st1|e] eqn:Hstep; cbn;
      [|discriminate].
    intros Hloop. destruct (IH _ Hloop) as [Hmono Hcompl]. clear IH.
    apply agent_step_cases in Hstep as [(-> & -> & _)|(Hne & ar & Hrun & ->)].
    + split; [exact Hmono|]. intros a rs r Hin Ha Hr.
      apply elem_of_cons in Hin as [[= -> ->]|Hin]; [congruence|].
      now apply (Hcompl a rs r).
    + apply run_agent_inv in Hrun as [(os & Hos & Hraw) _].
      cbn [store_agent st_rawRecordLevelData] in Hmono.
      rewrite Hraw in Hmono. split.
      * intros p Hp. apply Hmono, elem_of_app. now left.
      * intros a rs r Hin Ha Hr.
        apply elem_of_cons in Hin as [[= -> ->]|Hin];
          [|now apply (Hcompl a rs r)].
        apply list_elem_of_lookup in Hr as [i Hi].
        destruct (Forall2_lookup_l _ _ _ _ _ Hos Hi) as (o & Ho & Hproc).
        exists (ro_processed o). split.
        -- apply Hmono, elem_of_app. right. apply list_elem_of_fmap.
           exists o. split; [reflexivity|].
           eapply list_elem_of_lookup_2; exact Ho.
        -- now apply processRecord_entries in Hproc as (? & _).
Qed.

End AgentLoopInvariants.
(** ** Grouping and record identity *)

Section Grouping.

Lemma group_push_elem (a : string) (r : value)
    (acc : list (string * list value)) (k : string) (rs : list value)
    (x : value) :
  (k, rs) ∈ group_push a r acc -> x ∈ rs ->
  x = r \/ exists rs0, (k, rs0) ∈ acc /\ x ∈ rs0.
Proof.
  induction acc as [|[k0 rs0] acc IH]; cbn [group_push].
  - intros H Hx. apply list_elem_of_singleton in H. injection H as -> ->.
    apply list_elem_of_singleton in Hx. now left.
  - destruct (String.eqb a k0).
    + intros H Hx. apply elem_of_cons in H as [[= -> ->]|H].
      * apply elem_of_app in Hx as [Hx|Hx].
        -- right. exists rs0. split; [left | exact Hx].
        -- apply list_elem_of_singleton in Hx. now left.
      * right. exists rs. split; [now right | exact Hx].
    + intros H Hx. apply elem_of_cons in H as [[= -> ->]|H].
      * right. exists rs0. split; [left | exact Hx].
      * destruct (IH H Hx) as [->|(rs1 & ? & ?)]; [now left|].
        right. exists rs1. split; [now right | assumption].
Qed.

Lemma reduce_groups_elem (agentIdField : string) (records : list value)
    (acc groups : list (string * list value)) (k : string) (rs : list value)
    (x : value) :
  reduce_groups agentIdField records acc = Ok groups ->
  (k, rs) ∈ groups -> x ∈ rs ->
  x ∈ records \/ exists rs0, (k, rs0) ∈ acc /\ x ∈ rs0.
Proof.
  revert acc. induction records as [|r records IH]; intros acc;
    cbn [reduce_groups].
  - intros [= <-] Hk Hx. right. now exists rs.
  - unfold group_step.
    destruct (String.eqb _ "UNKNOWN_AGENT" || String.eqb _ ""); cbn;
      [discriminate|].
    intros Hred Hk Hx. destruct (IH _ Hred Hk Hx) as [Hin|(rs0 & Hk0 & Hx0)].
    + left. now right.
    + destruct (group_push_elem _ _ _ _ _ _ Hk0 Hx0) as [->|H].
      * left. left.
      * now right.
Qed.

Lemma insert_index_perm {A} (x : Z * A) (l : list (Z * A)) :
  insert_index x l ≡ₚ x :: l.
Proof.
  induction l as [|y l IH]; cbn [insert_index]; [reflexivity|].
  destruct (x.1 <=? y.1); [reflexivity|].
  rewrite IH. apply Permutation_swap.
Qed.

Lemma for_in_order_elem {A} (obj : list (string * A)) (kv : string * A) :
  kv ∈ for_in_order obj -> kv ∈ obj.
Proof.
  unfold for_in_order. intros H. apply elem_of_app in H as [H|H].
  - apply list_elem_of_fmap in H as ([n kv'] & -> & H). cbn [snd].
    assert (Hperm : forall l : list (Z * (string * A)),
               foldr insert_index [] l ≡ₚ l).
    { induction l as [|y l IH]; cbn [foldr]; [reflexivity|].
      now rewrite insert_index_perm, IH. }
    rewrite Hperm in H. apply list_elem_of_omap in H as (kv0 & Hin & Hsome).
    destruct (array_index kv0.1); cbn in Hsome; [|discriminate].
    now injection Hsome as _ <-.
  - now apply list_elem_of_filter in H as [_ H].
Qed.

Lemma assoc_get_set (k : string) (v : value) (fs : list (string * value)) :
  assoc_get k (assoc_set k v fs) = Some v.
Proof.
  induction fs as [|[k' v'] fs IH]; cbn.
  - now rewrite String.eqb_refl.
  - destruct (String.eqb k k') eqn:Hk; cbn.
    + now rewrite String.eqb_refl.
    + now rewrite Hk.
Qed.

Lemma with_identity_recordId (baseDataFile : string) (index : nat)
    (record : value) :
  get_prop (with_identity baseDataFile index record) "_recordId"
  = VStr (recordId_of baseDataFile index).
Proof. unfold with_identity. cbn [get_prop]. now rewrite assoc_get_set. Qed.

Lemma append_inj_r (s a b : string) : s ++ a = s ++ b -> a = b.
Proof. induction s as [|c s IH]; cbn; [auto|]. intros [= H]. auto. Qed.

Lemma recordId_of_inj (baseDataFile : string) (i j : nat) :
  recordId_of baseDataFile i = recordId_of baseDataFile j -> i = j.
Proof.
  unfold recordId_of. intros H.
  apply append_inj_r in H. apply (append_inj_r "-") in H.
  now apply (inj pretty) in H.
Qed.

(** Two records of the base dataset with the same [_recordId] are the same
    record. *)
Lemma identified_recordId_inj (baseDataFile : string) (rows : list value)
    (r1 r2 : value) :
  r1 ∈ imap (with_identity baseDataFile) rows ->
  r2 ∈ imap (with_identity baseDataFile) rows ->
  get_prop r1 "_recordId" = get_prop r2 "_recordId" -> r1 = r2.
Proof.
  intros H1 H2.
  apply elem_of_lookup_imap in H1 as (i & x & -> & Hi).
  apply elem_of_lookup_imap in H2 as (j & y & -> & Hj).
  rewrite !with_identity_recordId. intros [= H].
  apply recordId_of_inj in H as ->. congruence.
Qed.

Lemma group_push_complete (a : string) (r : value)
    (acc : list (string * list value)) :
  (exists rs, (a, rs) ∈ group_push a r acc /\ r ∈ rs) /\
  (forall k rs0,
      (k, rs0) ∈ acc ->
      exists rs, (k, rs) ∈ group_push a r acc /\
                 forall x, x ∈ rs0 -> x ∈ rs) /\
  (forall k rs,
      (k, rs) ∈ group_push a r acc -> k = a \/ exists rs0, (k, rs0) ∈ acc).
Proof.
  induction acc as [|[k0 rs0] acc (IH1 & IH2 & IH3)]; cbn [group_push].
  - split; [exists [r]; split; left|]. split.
    + intros k rs H. inversion H.
    + intros k rs H. apply list_elem_of_singleton in H as [= -> ->]. now left.
  - destruct (String.eqb_spec a k0) as [->|Hne].
    + split; [exists (rs0 ++ [r])%list; split;
              [left | apply elem_of_app; right; left]|].
      split.
      * intros k rs H. apply elem_of_cons in H as [[= -> ->]|H].
        -- exists (rs0 ++ [r])%list. split; [left|].
           intros x Hx. apply elem_of_app. now left.
        -- exists rs. split; [now right | auto].
      * intros k rs H. apply elem_of_cons in H as [[= -> ->]|H];
          [now left|]. right. exists rs. now right.
    + split; [destruct IH1 as (rs & ? & ?); exists rs; split;
              [now right | assumption]|].
      split.
      * intros k rs H. apply elem_of_cons in H as [[= -> ->]|H].
        -- exists rs0. split; [left | auto].
        -- destruct (IH2 k rs H) as (rs' & ? & ?). exists rs'.
           split; [now right | assumption].
      * intros k rs H. apply elem_of_cons in H as [[= -> ->]|H].
        -- right. exists rs0. left.
        -- destruct (IH3 k rs H) as [->|(rs' & ?)]; [now left|].
           right. exists rs'. now right.
Qed.

(** Grouping loses no record and makes no group for a missing agent. *)
Lemma reduce_groups_complete (agentIdField : string) (records : list value)
    (acc groups : list (string * list value)) :
  reduce_groups agentIdField records acc = Ok groups ->
  (forall r, r ∈ records -> exists k rs, (k, rs) ∈ groups /\ r ∈ rs) /\
  (forall k rs0 x,
      (k, rs0) ∈ acc -> x ∈ rs0 -> exists rs, (k, rs) ∈ groups /\ x ∈ rs) /\
  (forall k rs,
      (k, rs) ∈ groups ->
      k <> "UNKNOWN_AGENT" \/ exists rs0, (k, rs0) ∈ acc).
Proof.
  revert acc. induction records as [|r records IH]; intros acc;
    cbn [reduce_groups].
  - intros [= <-]. split; [intros r H; inversion H|]. split.
    + intros k rs0 x Hk Hx. now exists rs0.
    + intros k rs Hk. right. now exists rs.
  - unfold group_step.
    set (a := trim (js_String (safeGet r agentIdField (VStr "UNKNOWN_AGENT")))).
    destruct (String.eqb_spec a "UNKNOWN_AGENT") as [|Hne]; cbn [orb];
      [discriminate|].
    destruct (String.eqb a ""); cbn; [discriminate|].
    intros Hred. destruct (IH _ Hred) as (IH1 & IH2 & IH3). clear IH.
    destruct (group_push_complete a r acc) as (Hp1 & Hp2 & Hp3).
    split; [|split].
    + intros x Hx. apply elem_of_cons in Hx as [->|Hx]; [|now apply IH1].
      destruct Hp1 as (rs & Hrs & Hr).
      destruct (IH2 a rs r Hrs Hr) as (rs' & ? & ?). now exists a, rs'.
    + intros k rs0 x Hk Hx. destruct (Hp2 k rs0 Hk) as (rs & Hrs & Hsub).
      apply (IH2 k rs x Hrs). now apply Hsub.
    + intros k rs Hk. destruct (IH3 k rs Hk) as [?|(rs0 & Hk0)]; [now left|].
      destruct (Hp3 k rs0 Hk0) as [->|?]; [now left | now right].
Qed.

Lemma for_in_order_complete {A} (obj : list (string * A)) (kv : string * A) :
  kv ∈ obj -> kv ∈ for_in_order obj.
Proof.
  unfold for_in_order. intros H. apply elem_of_app.
  destruct (array_index kv.1) as [n|] eqn:Hidx.
  - left. apply list_elem_of_fmap. exists (n, kv). split; [reflexivity|].
    assert (Hperm : forall l : list (Z * (string * A)),
               foldr insert_index [] l ≡ₚ l).
    { induction l as [|y l IH]; cbn [foldr]; [reflexivity|].
      now rewrite insert_index_perm, IH. }
    rewrite Hperm. apply list_elem_of_omap. exists kv.
    split; [exact H|]. now rewrite Hidx.
  - right. apply list_elem_of_filter. now split.
Qed.

Lemma qualifiedRecords_identified (scheme : Scheme)
    (fieldMap : gmap string FieldInfo) (bm : BaseMapping)
    (schemeStart runDate : Date) (rows : list value) (r : value) :
  r ∈ qualifiedRecords scheme fieldMap bm schemeStart runDate rows ->
  r ∈ imap (with_identity (bm_sourceFile bm)) rows.
Proof.
  unfold qualifiedRecords, dateFilteredRecords. intros H.
  apply list_elem_of_filter in H as [_ H].
  now apply list_elem_of_filter in H as [_ H].
Qed.

End Grouping.

(** ** The shape of a run that returns *)

Lemma runScheme_returns (h : Heap) (runAsOfDate : value) (now : string)
    (res : RunResult) :
  fst (runScheme h runAsOfDate now) = Ok res ->
  exists runAsOf runDate schemeStart bm rows groups st,
    validate (heap_scheme h) (heap_uploadedFiles h) runAsOfDate
    = Ok (runAsOf, runDate, schemeStart, bm) /\
    safeGet (heap_uploadedFiles h) (bm_sourceFile bm) VUndef = VArr rows /\
    recordsByAgent (bm_agentField bm) (selected_in_run h runAsOfDate)
    = Ok groups /\
    agents_loop (ensure_payoutTiers (heap_scheme h))
      (build_fieldMap (ensure_payoutTiers (heap_scheme h)) bm) bm runAsOf now
      (hierarchyData_of (ensure_payoutTiers (heap_scheme h))
         (heap_uploadedFiles h))
      schemeStart runDate (for_in_order groups) (mkRunState ∅ ∅ ∅ [])
    = Ok st /\
    res = mkRunResult (st_agentPayouts st) (st_ruleHitLogs st)
            (st_creditDistributions st) (st_rawRecordLevelData st).
Proof.
  unfold runScheme, selected_in_run.
  destruct (validate (heap_scheme h) (heap_uploadedFiles h) runAsOfDate)
    as [[[[runAsOf runDate] schemeStart] bm]|e]; cbn [fst]; [|discriminate].
  unfold run_body.
  destruct (safeGet (heap_uploadedFiles h) (bm_sourceFile bm) VUndef)
    as [| | | | |rows|] eqn:Hrows; try discriminate.
  cbn [rows_of].
  destruct (recordsByAgent _ _) as [groups|e] eqn:Hgroups; cbn;
    [|discriminate].
  destruct (agents_loop _ _ _ _ _ _ _ _ _ _) as [st|e] eqn:Hloop; cbn;
    [|discriminate].
  intros [= <-]. exists runAsOf, runDate, schemeStart, bm, rows, groups, st.
  repeat split; assumption.
Qed.

(** ** When the run returns *)

Section Returns.

Variables (scheme : Scheme) (fieldMap : gmap string FieldInfo)
  (bm : BaseMapping) (runAsOf now : string) (hierarchyData : value)
  (schemeStart runDate : Date).

Lemma reduce_groups_ok (records : list value)
    (acc : list (string * list value)) :
  (forall r, r ∈ records -> has_agent (bm_agentField bm) r) ->
  is_Ok (reduce_groups (bm_agentField bm) records acc).
Proof.
  revert acc. induction records as [|r records IH]; intros acc Hall;
    cbn [reduce_groups]; [now eexists|].
  destruct (Hall r ltac:(left)) as [H1 H2]. unfold group_step.
  rewrite (proj2 (String.eqb_neq _ _) H1), (proj2 (String.eqb_neq _ _) H2).
  cbn. apply IH. intros x Hx. apply Hall. now right.
Qed.

Lemma process_records_ok (agent : string) (records : list value)
    (acc : AgentAcc) :
  (forall r, r ∈ records -> has_amount (bm_amountField bm) r) ->
  is_Ok (process_records scheme fieldMap bm now agent records acc).
Proof.
  revert acc. induction records as [|r records IH]; intros acc Hall;
    cbn [process_records]; [now eexists|].
  destruct (proj2 (processRecord_total scheme fieldMap bm now agent r)
              (Hall r ltac:(left))) as [o ->].
  cbn. apply IH. intros x Hx. apply Hall. now right.
Qed.

Lemma agents_loop_ok (groups : list (string * list value)) (st : RunState) :
  (forall a rs r, (a, rs) ∈ groups -> r ∈ rs ->
                  has_amount (bm_amountField bm) r) ->
  is_Ok (agents_loop scheme fieldMap bm runAsOf now hierarchyData schemeStart
           runDate groups st).
Proof.
  revert st. induction groups as [|[agent records] groups IH]; intros st Hall;
    cbn [agents_loop]; [now eexists|].
  assert (Hstep : is_Ok (agent_step scheme fieldMap bm runAsOf now
                           hierarchyData schemeStart runDate st
                           (agent, records))).
  { unfold agent_step. destruct (String.eqb agent "UNKNOWN_AGENT");
      [now eexists|].
    unfold run_agent.
    destruct (process_records_ok agent records
                (mkAgentAcc Dec.zero [] (st_rawRecordLevelData st)))
      as [acc ->].
    { intros r Hr. apply (Hall agent records r); [left | exact Hr]. }
    cbn. destruct (agent_qualification _ _ _ _ _ _).
    destruct (credit_splits _ _ _ _ _ _ _ _ _). cbn. now eexists. }
  destruct Hstep as [st1 ->]. cbn. apply IH.
  intros a rs r Hin Hr. apply (Hall a rs r); [now right | exact Hr].
Qed.

End Returns.

(** A run returns a result whenever the configuration passes validation, the
    base dataset is a sequence, and every selected record names an agent and
    carries an amount that reads as a decimal. *)
Lemma runScheme_returns_on_sound_records (h : Heap) (runAsOfDate : value)
    (now runAsOf : string) (runDate schemeStart : Date) (bm : BaseMapping)
    (rows : list value) :
  validate (heap_scheme h) (heap_uploadedFiles h) runAsOfDate
  = Ok (runAsOf, runDate, schemeStart, bm) ->
  safeGet (heap_uploadedFiles h) (bm_sourceFile bm) VUndef = VArr rows ->
  (forall r, r ∈ selected_in_run h runAsOfDate ->
             has_agent (bm_agentField bm) r /\
             has_amount (bm_amountField bm) r) ->
  is_Ok (fst (runScheme h runAsOfDate now)).
Proof.
  intros Hval Hrows Hall. unfold runScheme. rewrite Hval. cbn [fst].
  unfold run_body. rewrite Hrows.
  unfold selected_in_run in Hall. rewrite Hval, Hrows in Hall.
  cbn [rows_of] in Hall.
  destruct (reduce_groups_ok bm _ [] (fun r Hr => proj1 (Hall r Hr)))
    as [groups Hgroups].
  unfold recordsByAgent. rewrite Hgroups. cbn.
  match goal with
  | |- context [agents_loop ?a ?b ?c ?d ?e ?f ?g ?i ?j ?k] =>
      destruct (agents_loop_ok a b c d e f g i j k) as [st ->]
  end.
  - intros a rs r Hin Hr. apply for_in_order_elem in Hin.
    destruct (reduce_groups_elem _ _ _ _ _ _ _ Hgroups Hin Hr)
      as [H|(rs0 & H & _)]; [apply (Hall r H) | inversion H].
  - cbn. now eexists.
Qed.

(** ** The rule-hit logs *)

(** C10. A run over sound records returns a result, and in the result of a
    run no key of [ruleHitLogs] is bound to an empty sequence: an agent id is
    a key exactly when some entry was emitted for that agent during the
    run. *)
Theorem ruleHitLogs_keys_have_entries :
  (forall (h : Heap) (runAsOfDate : value) (now runAsOf : string)
          (runDate schemeStart : Date) (bm : BaseMapping) (rows : list value),
      validate (heap_scheme h) (heap_uploadedFiles h) runAsOfDate
      = Ok (runAsOf, runDate, schemeStart, bm) ->
      safeGet (heap_uploadedFiles h) (bm_sourceFile bm) VUndef = VArr rows ->
      (forall r, r ∈ selected_in_run h runAsOfDate ->
                 has_agent (bm_agentField bm) r /\
                 has_amount (bm_amountField bm) r) ->
      is_Ok (fst (runScheme h runAsOfDate now))) /\
  (forall (h : Heap) (runAsOfDate : value) (now : string) (res : RunResult),
      fst (runScheme h runAsOfDate now) = Ok res ->
      (forall a : string, ruleHitLogs res !! a <> Some []) /\
      (forall a : string,
          is_Some (ruleHitLogs res !! a) <->
          exists e : LogEntry,
            e ∈ emitted_in_run h runAsOfDate now /\ agentId e = a)).
Proof.
  split; [exact runScheme_returns_on_sound_records|].
  intros h runAsOfDate now res Hrun.
  destruct (runScheme_returns _ _ _ _ Hrun)
    as (runAsOf & runDate & schemeStart & bm & rows & groups & st
        & Hval & Hrows & Hgroups & Hloop & ->).
  cbn [ruleHitLogs]. unfold emitted_in_run. rewrite Hval, Hgroups.
  destruct (agents_loop_logs _ _ _ _ _ _ _ _ _ _ _ Hloop) as (H1 & H2 & _).
  cbn [st_ruleHitLogs] in H1, H2.
  assert (Hagent : forall a ar e,
             (a, ar) ∈ agent_runs (ensure_payoutTiers (heap_scheme h))
                         (build_fieldMap (ensure_payoutTiers (heap_scheme h)) bm)
                         bm runAsOf now
                         (hierarchyData_of (ensure_payoutTiers (heap_scheme h))
                            (heap_uploadedFiles h))
                         schemeStart runDate (for_in_order groups)
                         (mkRunState ∅ ∅ ∅ []) ->
             e ∈ ar_agentRuleLogs ar -> agentId e = a).
  { intros a ar e Hin He.
    apply agent_runs_source in Hin as (rs & st0 & _ & Hrun1).
    apply run_agent_inv in Hrun1 as [_ Hall].
    rewrite Forall_forall in Hall. now destruct (Hall e He). }
  split.
  - apply H1. intros a. now rewrite lookup_empty.
  - intros a. rewrite H2, lookup_empty. split.
    + intros [[x [=]]|(ar & e & Hin & He)]. exists e. split.
      * apply list_elem_of_join. exists (ar_agentRuleLogs ar).
        split; [exact He|]. apply list_elem_of_fmap. now exists (a, ar).
      * eauto.
    + intros (e & He & <-). right.
      apply list_elem_of_join in He as (l & He & Hl).
      apply list_elem_of_fmap in Hl as ([a ar] & -> & Hin). cbn [snd] in He.
      exists ar, e. rewrite (Hagent a ar e Hin He). now split.
Qed.

Lemma ruleHitLogs_keys_have_entries_witness :
  exists res : RunResult,
    fst (runScheme example_heap (VStr "2024-12-31") "t0") = Ok res /\
    (forall a : string, ruleHitLogs res !! a <> Some []) /\
    (forall a : string,
        is_Some (ruleHitLogs res !! a) <->
        exists e : LogEntry,
          e ∈ emitted_in_run example_heap (VStr "2024-12-31") "t0" /\
          agentId e = a).
Proof.
  eexists. split; [vm_compute; reflexivity|].
  apply (proj2 ruleHitLogs_keys_have_entries example_heap (VStr "2024-12-31")
           "t0").
  vm_compute. reflexivity.
Defined.

(** ** Exclusion and adjustment *)

(** C3. Processing a record returns whenever its amount reads as a decimal.
    Exclusion is first-match-wins: when [rule] is the first exclusion
    rule, in declaration order, that is mapped to the base file and whose
    condition holds on the record, the record is excluded with that rule's
    reason, exactly one entry is logged, an Exclusion entry for that rule, no
    adjustment is applied, the adjusted amount shown is "0.00" and the
    agent's total is left as it was; when no exclusion rule fires the record
    is not excluded and no Exclusion entry is logged.  In the result of a run
    every excluded record of [rawRecordLevelData] shows "0.00". *)
Theorem exclusion_first_match_wins :
  (forall (scheme : Scheme) (fieldMap : gmap string FieldInfo)
          (bm : BaseMapping) (now agent : string) (record : value),
      has_amount (bm_amountField bm) record ->
      is_Ok (processRecord scheme fieldMap bm now agent record)) /\
  (forall (scheme : Scheme) (fieldMap : gmap string FieldInfo)
          (bm : BaseMapping) (now agent : string) (record : value)
          (o : RecordOutcome),
      processRecord scheme fieldMap bm now agent record = Ok o ->
      (forall rule : Rule,
          first_firing (rule_fires fieldMap (bm_sourceFile bm) record)
            (exclusionRules scheme) rule ->
          ps_isExcluded (_processingStatus (ro_processed o)) = true /\
          ps_exclusionReason (_processingStatus (ro_processed o))
          = Some (exclusionReason_of rule) /\
          (exists e : LogEntry,
              ro_logs o = [e] /\ ruleType e = Exclusion /\
              ruleId e = rule_id rule /\ agentId e = agent /\
              recordId e = Some (get_prop record "_recordId")) /\
          ps_adjustmentApplied (_processingStatus (ro_processed o)) = None /\
          ps_rateMultiplier (_processingStatus (ro_processed o)) = "1.0000" /\
          ps_adjustedAmount (_processingStatus (ro_processed o)) = "0.00" /\
          forall acc : AgentAcc,
            acc_total (add_outcome acc o) = acc_total acc /\
            acc_raw (add_outcome acc o)
            = (acc_raw acc ++ [ro_processed o])%list) /\
      ((forall r : Rule,
           r ∈ exclusionRules scheme ->
           rule_fires fieldMap (bm_sourceFile bm) record r = false) ->
       ps_isExcluded (_processingStatus (ro_processed o)) = false /\
       Forall (fun e => ruleType e <> Exclusion) (ro_logs o))) /\
  (forall (h : Heap) (runAsOfDate : value) (now : string) (res : RunResult),
      fst (runScheme h runAsOfDate now) = Ok res ->
      forall p : ProcessedRecord,
        p ∈ rawRecordLevelData res ->
        ps_isExcluded (_processingStatus p) = true ->
        ps_adjustedAmount (_processingStatus p) = "0.00").
Proof.
  split; [|split].
  - intros scheme fieldMap bm now agent record.
    apply processRecord_total.
  - intros scheme fieldMap bm now agent record o Hproc. split.
    + intros rule Hfirst. apply exclusion_loop_some in Hfirst.
      unfold processRecord, newDecimal in Hproc.
      destruct (toDecimal _) as [d|]; cbn in Hproc; [|discriminate].
      rewrite Hfirst in Hproc. injection Hproc as <-. cbn.
      repeat split. eexists. repeat split.
    + intros Hnone. apply exclusion_loop_none in Hnone.
      unfold processRecord, newDecimal in Hproc.
      destruct (toDecimal _) as [d|]; cbn in Hproc; [|discriminate].
      rewrite Hnone in Hproc. injection Hproc as <-. cbn.
      split; [reflexivity|].
      destruct (adjustment_loop_amounts fieldMap bm now agent record d
                  (adjustmentRules scheme) (mkAdjState d Dec.one None []))
        as (_ & es & Hlogs & _ & Hall).
      unfold adjustment_loop. cbn zeta in Hlogs. rewrite Hlogs. cbn.
      eapply Forall_impl; [exact Hall|]. intros e (Hty & _). congruence.
  - intros h runAsOfDate now res Hrun p Hp Hex.
    destruct (runScheme_returns _ _ _ _ Hrun)
      as (runAsOf & runDate & schemeStart & bm & rows & groups & st
          & _ & _ & _ & Hloop & ->).
    cbn [rawRecordLevelData] in Hp.
    destruct (agents_loop_raw _ _ _ _ _ _ _ _ _ _ _ _ Hloop Hp)
      as [Hin|(agent & rs & r & o & _ & _ & Hproc & ->)];
      [inversion Hin|].
    apply processRecord_entries in Hproc as (_ & _ & H0). now apply H0.
Qed.

Lemma exclusion_first_match_wins_witness :
  exists (record : value) (o : RecordOutcome),
    processRecord example_scheme example_fieldMap example_mapping "t0" "102"
      record = Ok o /\
    ro_credited o = None /\
    ps_adjustedAmount (_processingStatus (ro_processed o)) = "0.00" /\
    exists res : RunResult,
      fst (runScheme example_heap (VStr "2024-12-31") "t0") = Ok res /\
      forall p : ProcessedRecord,
        p ∈ rawRecordLevelData res ->
        ps_isExcluded (_processingStatus p) = true ->
        ps_adjustedAmount (_processingStatus p) = "0.00".
Proof.
  exists (with_identity "SCH1" 2
            (example_row "102" 90000 "2024-12-10" "1810" "17100002"
               "Fully Delivered")).
  eexists. split; [vm_compute; reflexivity|].
  destruct exclusion_first_match_wins as (_ & Hrecord & Hrun).
  split; [reflexivity|]. split.
  - pose proof (Hrecord example_scheme example_fieldMap example_mapping "t0"
                  "102"
                  (with_identity "SCH1" 2
                     (example_row "102" 90000 "2024-12-10" "1810" "17100002"
                        "Fully Delivered")) _
                  ltac:(vm_compute; reflexivity)) as [Hfirst _].
    refine (proj1 (proj2 (proj2 (proj2 (proj2 (proj2
              (Hfirst (mkRule "e1" "Payer" "=" (VStr "17100002")) _))))))).
    exists [], []. split; [reflexivity|].
    split; [vm_compute; reflexivity|]. intros r Hr. inversion Hr.
  - eexists. split; [vm_compute; reflexivity|].
    apply (Hrun example_heap (VStr "2024-12-31") "t0").
    vm_compute. reflexivity.
Defined.

(** C4. Processing a record returns whenever its amount reads as a decimal.
    On a record that is not excluded every adjustment rule whose
    condition holds is applied, none is skipped after another has fired: a
    Rate/percentage rule multiplies the running rate multiplier (initially 1)
    by value/100, an Amount/percentage rule adds running amount times value
    over 100, an Amount/fixed rule adds the value, any other target and type
    leave both unchanged; the adjusted amount is the running amount times the
    running rate multiplier, and one Adjustment entry is logged per rule that
    fired, in order. *)
Theorem adjustments_all_apply :
  (forall (a m v : Dec.t) (target type : string),
      adjust_amounts (a, m) (mkAdjustment "Rate" "percentage" v)
      = (a, Dec.times m (Dec.div100 v)) /\
      adjust_amounts (a, m) (mkAdjustment "Amount" "percentage" v)
      = (Dec.plus a (Dec.div100 (Dec.times a v)), m) /\
      adjust_amounts (a, m) (mkAdjustment "Amount" "fixed" v)
      = (Dec.plus a v, m) /\
      ((target, type) <> ("Rate", "percentage") ->
       (target, type) <> ("Amount", "percentage") ->
       (target, type) <> ("Amount", "fixed") ->
       adjust_amounts (a, m) (mkAdjustment target type v) = (a, m))) /\
  (forall (scheme : Scheme) (fieldMap : gmap string FieldInfo)
          (bm : BaseMapping) (now agent : string) (record : value),
      has_amount (bm_amountField bm) record ->
      is_Ok (processRecord scheme fieldMap bm now agent record)) /\
  (forall (scheme : Scheme) (fieldMap : gmap string FieldInfo)
          (bm : BaseMapping) (now agent : string) (record : value)
          (o : RecordOutcome),
      processRecord scheme fieldMap bm now agent record = Ok o ->
      ps_isExcluded (_processingStatus (ro_processed o)) = false ->
      exists originalAmount amount multiplier : Dec.t,
        toDecimal (safeGet record (bm_amountField bm) (VNum Dec.zero))
        = Some originalAmount /\
        adjusted_amounts fieldMap (bm_sourceFile bm) record
          (adjustmentRules scheme) originalAmount = (amount, multiplier) /\
        ro_credited o = Some (Dec.times amount multiplier) /\
        ps_adjustedAmount (_processingStatus (ro_processed o))
        = formatDecimal (Dec.times amount multiplier) 2 /\
        ps_rateMultiplier (_processingStatus (ro_processed o))
        = formatDecimal multiplier 4 /\
        ruleId <$> ro_logs o
        = arule_id <$> firing_adjustments fieldMap (bm_sourceFile bm) record
                         (adjustmentRules scheme) /\
        Forall (entry_of Adjustment_ agent record) (ro_logs o)).
Proof.
  split; [|split].
  - intros a m v target type. repeat split.
    intros H1 H2 H3. unfold adjust_amounts. cbn [adj_target adj_type adj_value].
    destruct (String.eqb target "Rate") eqn:E1,
             (String.eqb type "percentage") eqn:E2,
             (String.eqb target "Amount") eqn:E3,
             (String.eqb type "fixed") eqn:E4;
      cbn; try reflexivity;
      rewrite ?String.eqb_eq in *; subst; congruence.
  - intros scheme fieldMap bm now agent record.
    apply processRecord_total.
  - intros scheme fieldMap bm now agent record o Hproc Hex.
    unfold processRecord, newDecimal in Hproc.
    destruct (toDecimal _) as [d|]; cbn in Hproc; [|discriminate].
    destruct (exclusion_loop _ _ _ _) as [rule|].
    { injection Hproc as <-. discriminate Hex. }
    injection Hproc as <-. cbn.
    destruct (adjustment_loop_amounts fieldMap bm now agent record d
                (adjustmentRules scheme) (mkAdjState d Dec.one None []))
      as (Hamt & es & Hlogs & Hids & Hall).
    cbn zeta in Hamt, Hlogs. cbn [currentAmount rateMultiplier adj_logs] in *.
    fold (adjustment_loop fieldMap (bm_sourceFile bm) now agent record d
            (adjustmentRules scheme)) in Hamt, Hlogs.
    fold (adjusted_amounts fieldMap (bm_sourceFile bm) record
            (adjustmentRules scheme) d) in Hamt.
    exists d, (currentAmount (adjustment_loop fieldMap (bm_sourceFile bm) now
                                agent record d (adjustmentRules scheme))),
      (rateMultiplier (adjustment_loop fieldMap (bm_sourceFile bm) now
                         agent record d (adjustmentRules scheme))).
    rewrite Hlogs. cbn [app].
    repeat split; auto.
Qed.

Lemma adjustments_all_apply_witness :
  exists (record : value) (o : RecordOutcome),
    processRecord example_scheme example_fieldMap example_mapping "t0" "101"
      record = Ok o /\
    ps_adjustedAmount (_processingStatus (ro_processed o)) = "100000.00" /\
    exists originalAmount amount multiplier : Dec.t,
      toDecimal (safeGet record "Net Value" (VNum Dec.zero))
      = Some originalAmount /\
      adjusted_amounts example_fieldMap "SCH1" record
        (adjustmentRules example_scheme) originalAmount = (amount, multiplier)
      /\ ro_credited o = Some (Dec.times amount multiplier).
Proof.
  exists (with_identity "SCH1" 0
            (example_row "101" 50000 "2024-12-05" "1810" "CUST001"
               "Fully Delivered")).
  eexists. split; [vm_compute; reflexivity|].
  split; [reflexivity|].
  destruct (proj2 (proj2 adjustments_all_apply) example_scheme example_fieldMap
              example_mapping "t0" "101"
              (with_identity "SCH1" 0
                 (example_row "101" 50000 "2024-12-05" "1810" "CUST001"
                    "Fully Delivered")) _
              ltac:(vm_compute; reflexivity) ltac:(reflexivity))
    as (d & a & m & H1 & H2 & H3 & _).
  exists d, a, m. repeat split; assumption.
Defined.
(** ** Record selection *)

Section Selection.

Lemma add_kpi_field_sourceField (m : gmap string FieldInfo) (f : KpiField) :
  map_Forall (fun _ fi => sourceField fi <> "") m ->
  map_Forall (fun _ fi => sourceField fi <> "") (add_kpi_field m f).
Proof.
  intros Hm. unfold add_kpi_field.
  destruct (String.eqb_spec (kpi_name f) ""); cbn [negb andb]; [exact Hm|].
  destruct (String.eqb_spec (kpi_sourceField f) ""); cbn [negb]; [exact Hm|].
  apply map_Forall_insert_2; [assumption | exact Hm].
Qed.

Lemma add_default_sourceField (name : string) (fi : FieldInfo)
    (m : gmap string FieldInfo) :
  sourceField fi <> "" ->
  map_Forall (fun _ fi => sourceField fi <> "") m ->
  map_Forall (fun _ fi => sourceField fi <> "") (add_default name fi m).
Proof.
  intros Hfi Hm. unfold add_default.
  destruct (m !! name); [exact Hm|]. now apply map_Forall_insert_2.
Qed.

(** Every entry of the field map has a source field. *)
Lemma build_fieldMap_sourceField (scheme : Scheme) (bm : BaseMapping) :
  bm_agentField bm <> "" -> bm_amountField bm <> "" ->
  bm_transactionDateField bm <> "" ->
  map_Forall (fun _ fi => sourceField fi <> "") (build_fieldMap scheme bm).
Proof.
  intros Ha Hm Hd. unfold build_fieldMap.
  repeat apply add_default_sourceField; try assumption.
  generalize (allKpiSections (kpiConfig scheme)).
  assert (Hgen : forall (sections : list (list KpiField)) m,
             map_Forall (fun _ fi => sourceField fi <> "") m ->
             map_Forall (fun _ fi => sourceField fi <> "")
               (fold_left (fun m section => fold_left add_kpi_field section m)
                  sections m)).
  { induction sections as [|sec sections IH]; intros m Hmap; cbn; [exact Hmap|].
    apply IH. clear IH. revert m Hmap.
    induction sec as [|f sec IH]; intros m Hmap; cbn; [exact Hmap|].
    apply IH. now apply add_kpi_field_sourceField. }
  intros sections. apply Hgen. apply map_Forall_empty.
Qed.

Lemma blank_is_no_date (v : value) :
  is_blank v = true -> parseDate (VStr (js_String v)) = None.
Proof.
  destruct v; cbn [is_blank]; try discriminate; try reflexivity.
  intros H. apply String.eqb_eq in H as ->. reflexivity.
Qed.

Lemma date_in_window_spec (transactionDateField : string)
    (schemeStart runDate : Date) (record : value) :
  date_in_window transactionDateField schemeStart runDate record = true <->
  exists d : Date,
    parseDate (VStr (js_String (safeGet record transactionDateField VUndef)))
    = Some d /\
    compareDates d schemeStart >= 0 /\ compareDates d runDate <= 0.
Proof.
  unfold date_in_window.
  destruct (is_blank (safeGet record transactionDateField VUndef)) eqn:Hb.
  - rewrite (blank_is_no_date _ Hb).
    split; [discriminate | intros (d & [=] & _)].
  - destruct (parseDate _) as [d|];
      [|split; [discriminate | intros (d & [=] & _)]].
    rewrite andb_true_iff, Z.geb_le, Z.leb_le. split.
    + intros [? ?]. exists d. split; [reflexivity | lia].
    + intros (d' & [= <-] & ? & ?). lia.
Qed.

End Selection.

(** C2. A record of the base dataset is selected if and only if its
    transaction-date field reads as a calendar date that lies between the
    scheme's start and the run-as-of date, both included, by year, month and
    day, and it passes every qualification rule whose field is mapped at
    level Per Record to the base dataset.  With run-as-of 2024-12-31 a record
    dated 2024-12-31 is in the window and one dated 2025-01-01 is not.  In
    a run that returns, a record that is not selected appears neither in
    [rawRecordLevelData] nor in any entry of [ruleHitLogs], and every
    selected record is processed into [rawRecordLevelData]. *)
Theorem record_selection :
  (forall (scheme : Scheme) (bm : BaseMapping) (schemeStart runDate : Date)
          (rows : list value) (record : value),
      bm_agentField bm <> "" -> bm_amountField bm <> "" ->
      bm_transactionDateField bm <> "" ->
      (record ∈ qualifiedRecords scheme (build_fieldMap scheme bm) bm
                  schemeStart runDate rows
       <->
       record ∈ imap (with_identity (bm_sourceFile bm)) rows /\
       (exists d : Date,
           parseDate (VStr (js_String
                              (safeGet record (bm_transactionDateField bm)
                                 VUndef))) = Some d /\
           compareDates d schemeStart >= 0 /\ compareDates d runDate <= 0) /\
       (forall (rule : Rule) (fieldInfo : FieldInfo),
           rule ∈ qualificationRules scheme ->
           build_fieldMap scheme bm !! rule_field rule = Some fieldInfo ->
           evaluationLevel fieldInfo = "Per Record" ->
           sourceFile fieldInfo = bm_sourceFile bm ->
           evaluateCondition
             (safeGet record (sourceField fieldInfo) VUndef)
             (rule_operator rule) (rule_value rule) (dataType fieldInfo)
           = true))) /\
  (date_in_window "Date" (mkDate 2024 11 1) (mkDate 2024 11 31)
     (demo_row (VStr "101") (VNum (Dec.of_Z 100)) (VStr "2024-12-31")) = true /\
   date_in_window "Date" (mkDate 2024 11 1) (mkDate 2024 11 31)
     (demo_row (VStr "101") (VNum (Dec.of_Z 100)) (VStr "2025-01-01")) = false /\
   parseDate (VStr "2024-12-31") = Some (mkDate 2024 11 31)) /\
  (forall (h : Heap) (runAsOfDate : value) (now : string) (res : RunResult)
          (record : value),
      fst (runScheme h runAsOfDate now) = Ok res ->
      record ∈ identified_in_run h runAsOfDate ->
      record ∉ selected_in_run h runAsOfDate ->
      (forall p : ProcessedRecord,
          p ∈ rawRecordLevelData res -> pr_record p <> record) /\
      (forall (a : string) (l : list LogEntry) (e : LogEntry),
          ruleHitLogs res !! a = Some l -> e ∈ l ->
          recordId e <> Some (get_prop record "_recordId"))) /\
  (forall (h : Heap) (runAsOfDate : value) (now : string) (res : RunResult)
          (record : value),
      fst (runScheme h runAsOfDate now) = Ok res ->
      record ∈ selected_in_run h runAsOfDate ->
      exists p : ProcessedRecord,
        p ∈ rawRecordLevelData res /\ pr_record p = record).
Proof.
  split; [|split; [vm_compute; repeat split|split]].
  - intros scheme bm schemeStart runDate rows record Ha Hm Hd.
    pose proof (build_fieldMap_sourceField scheme bm Ha Hm Hd) as Hsf.
    unfold qualifiedRecords, dateFilteredRecords.
    rewrite !list_elem_of_filter, date_in_window_spec, forallb_forall.
    split.
    + intros (Hrules & Hdate & Hin). split; [exact Hin|]. split; [exact Hdate|].
      intros rule fi Hrule Hfi Hlevel Hfile.
      assert (Hq : rule ∈ recordLevelQualRules scheme (build_fieldMap scheme bm)
                          (bm_sourceFile bm)).
      { unfold recordLevelQualRules. apply list_elem_of_filter.
        split; [|exact Hrule]. unfold is_record_level.
        rewrite Hfi, Hlevel, Hfile, !String.eqb_refl. reflexivity. }
      apply list_elem_of_In in Hq. specialize (Hrules rule Hq).
      unfold passes_rule in Hrules. rewrite Hfi in Hrules.
      rewrite (proj2 (String.eqb_neq _ _) (Hsf _ _ Hfi)) in Hrules.
      exact Hrules.
    + intros (Hin & Hdate & Hrules). split; [|split; assumption].
      intros rule Hq. apply list_elem_of_In in Hq.
      unfold recordLevelQualRules in Hq.
      apply list_elem_of_filter in Hq as [Hlevel Hrule].
      unfold is_record_level in Hlevel. unfold passes_rule.
      destruct (build_fieldMap scheme bm !! rule_field rule) as [fi|] eqn:Hfi;
        [|reflexivity].
      apply andb_true_iff in Hlevel as [Hl Hf].
      apply String.eqb_eq in Hl, Hf.
      rewrite (proj2 (String.eqb_neq _ _) (Hsf _ _ Hfi)).
      now apply (Hrules rule fi).
  - intros h runAsOfDate now res record Hrun Hid Hsel.
    destruct (runScheme_returns _ _ _ _ Hrun)
      as (runAsOf & runDate & schemeStart & bm & rows & groups & st
          & Hval & Hrows & Hgroups & Hloop & ->).
    cbn [rawRecordLevelData ruleHitLogs].
    assert (Hgrouped : forall a rs r,
               (a, rs) ∈ for_in_order groups -> r ∈ rs ->
               r ∈ selected_in_run h runAsOfDate).
    { intros a rs r Hin Hr. apply for_in_order_elem in Hin.
      destruct (reduce_groups_elem _ _ _ _ _ _ _ Hgroups Hin Hr)
        as [H|(rs0 & H & _)]; [exact H | inversion H]. }
    split.
    + intros p Hp Heq.
      destruct (agents_loop_raw _ _ _ _ _ _ _ _ _ _ _ _ Hloop Hp)
        as [Hin|(agent & rs & r & o & Hin & Hr & Hproc & ->)];
        [inversion Hin|].
      apply processRecord_entries in Hproc as (Hrec & _ & _).
      apply Hsel. rewrite <- Heq, Hrec. eauto.
    + intros a l e Hl He Hrid.
      destruct (agents_loop_logs _ _ _ _ _ _ _ _ _ _ _ Hloop) as (_ & _ & H3).
      destruct (H3 a l e Hl He) as [(l0 & Hl0 & _)|(ar & Hin & Hear)].
      { cbn [st_ruleHitLogs] in Hl0. rewrite lookup_empty in Hl0.
        discriminate Hl0. }
      apply agent_runs_source in Hin as (rs & st0 & Hin & Hrun1).
      apply run_agent_inv in Hrun1 as [_ Hall].
      rewrite Forall_forall in Hall.
      destruct (Hall e Hear) as [_ Hprov].
      destruct (Hprov _ Hrid) as (r & Hr & Hsame).
      pose proof (Hgrouped a rs r Hin Hr) as Hrsel.
      apply Hsel.
      assert (r = record); [|now subst].
      unfold selected_in_run, identified_in_run in *.
      rewrite Hval in *. rewrite Hrows in *. cbn [rows_of] in *.
      apply qualifiedRecords_identified in Hrsel.
      symmetry in Hsame.
      exact (identified_recordId_inj _ _ _ _ Hrsel Hid Hsame).
  - intros h runAsOfDate now res record Hrun Hsel.
    destruct (runScheme_returns _ _ _ _ Hrun)
      as (runAsOf & runDate & schemeStart & bm & rows & groups & st
          & Hval & Hrows & Hgroups & Hloop & ->).
    cbn [rawRecordLevelData].
    destruct (reduce_groups_complete _ _ _ _ Hgroups) as (Hall & _ & Hkeys).
    destruct (Hall record Hsel) as (k & rs & Hk & Hr).
    destruct (agents_loop_raw_complete _ _ _ _ _ _ _ _ _ _ _ Hloop)
      as [_ Hcompl].
    apply (Hcompl k rs record); [now apply for_in_order_complete| |exact Hr].
    destruct (Hkeys k rs Hk) as [?|(rs0 & H0)]; [assumption | inversion H0].
Qed.

Lemma record_selection_witness :
  (exists d : Date,
      parseDate (VStr (js_String
                         (safeGet
                            (with_identity "SCH1" 0
                               (example_row "101" 50000 "2024-12-05" "1810"
                                  "CUST001" "Fully Delivered"))
                            "Document Date" VUndef))) = Some d /\
      compareDates d (mkDate 2024 11 1) >= 0 /\
      compareDates d (mkDate 2024 11 31) <= 0) /\
  exists res : RunResult,
    fst (runScheme example_heap (VStr "2024-12-31") "t0") = Ok res /\
    forall (a : string) (l : list LogEntry) (e : LogEntry),
      ruleHitLogs res !! a = Some l -> e ∈ l ->
      recordId e
      <> Some (get_prop
                 (with_identity "SCH1" 5
                    (example_row "101" 10000 "2024-11-30" "1810" "CUST006"
                       "Partially")) "_recordId").
Proof.
  destruct record_selection as (Hiff & _ & Hsilent & _).
  split.
  - refine (proj1 (proj2 (proj1
              (Hiff example_scheme example_mapping (mkDate 2024 11 1)
                 (mkDate 2024 11 31)
                 (rows_of (get_prop example_files "SCH1"))
                 (with_identity "SCH1" 0
                    (example_row "101" 50000 "2024-12-05" "1810" "CUST001"
                       "Fully Delivered")) _ _ _) _)));
      [discriminate | discriminate | discriminate |].
    vm_compute. apply list_elem_of_here.
  - eexists. split; [vm_compute; reflexivity|].
    refine (proj2 (Hsilent example_heap (VStr "2024-12-31") "t0" _
                     (with_identity "SCH1" 5
                        (example_row "101" 10000 "2024-11-30" "1810" "CUST006"
                           "Partially")) _ _ _)).
    + vm_compute. reflexivity.
    + vm_compute.
      repeat first [apply list_elem_of_here | apply list_elem_of_further].
    + vm_compute. intros H.
      repeat (apply elem_of_cons in H as [H|H]; [discriminate H|]).
      inversion H.
Defined.

(** * Further properties of the engine *)

(** ** Dates *)

(** X1. [compareDates] is a three-way comparison for a total order on
    dates: it answers -1, 0 or 1, swapping the arguments negates the answer,
    the answer is 0 exactly on equal dates, and "not after" is transitive. *)
Theorem compareDates_is_a_total_order (a b c : Date) :
  (compareDates a b = -1 \/ compareDates a b = 0 \/ compareDates a b = 1) /\
  compareDates b a = - compareDates a b /\
  (compareDates a b = 0 <-> a = b) /\
  (compareDates a b <= 0 -> compareDates b c <= 0 -> compareDates a c <= 0).
Proof.
  destruct a as [ya ma da], b as [yb mb db], c as [yc mc dc].
  unfold compareDates. cbn [getUTCFullYear getUTCMonth getUTCDate].
  rewrite !Z.gtb_ltb.
  repeat split;
    repeat match goal with
           | |- context [Z.ltb ?x ?y] => destruct (Z.ltb_spec x y)
           | H : context [Z.ltb ?x ?y] |- _ => destruct (Z.ltb_spec x y)
           end;
    try lia; try (intros; lia); try (intros [= -> -> ->]; lia);
    try (intros _; f_equal; lia).
Qed.

Lemma compareDates_is_a_total_order_witness :
  compareDates (mkDate 2024 10 30) (mkDate 2025 0 1) <= 0.
Proof.
  apply (proj2 (proj2 (proj2
           (compareDates_is_a_total_order (mkDate 2024 10 30)
              (mkDate 2024 11 31) (mkDate 2025 0 1)))));
    vm_compute; discriminate.
Defined.

Section DateParsing.

Lemma is_digit_val (c : ascii) :
  Dec.is_digit c = true -> 0 <= Dec.digit_val c <= 9.
Proof.
  unfold Dec.is_digit, Dec.digit_val. intros H.
  apply andb_true_iff in H as [H1 H2].
  apply Nat.leb_le in H1, H2. lia.
Qed.

Lemma length_list_ascii_of_string (s : string) :
  length (list_ascii_of_string s) = String.length s.
Proof. induction s as [|c s IH]; cbn; [reflexivity | now rewrite IH]. Qed.

Lemma make_date_calendar (y m d : Z) (date : Date) :
  make_date y m d = Some date ->
  getUTCFullYear date = y /\
  0 <= getUTCMonth date <= 11 /\
  1 <= getUTCDate date <= days_in_month y (getUTCMonth date + 1).
Proof.
  unfold make_date.
  destruct ((1 <=? m) && (m <=? 12) && (1 <=? d) && (d <=? 31)) eqn:Hr;
    [|discriminate].
  apply andb_true_iff in Hr as [Hr H4]. apply andb_true_iff in Hr as [Hr H3].
  apply andb_true_iff in Hr as [H1 H2].
  apply Z.leb_le in H1, H2, H3, H4.
  destruct (Z.leb_spec d (days_in_month y m)) as [Hd|Hd]; intros [= <-];
    cbn [getUTCFullYear getUTCMonth getUTCDate].
  - replace (m - 1 + 1) with m by lia. lia.
  - split; [reflexivity|].
    unfold days_in_month in *.
    repeat match goal with
           | H : context [Z.eqb ?x ?y] |- _ => destruct (Z.eqb_spec x y)
           | |- context [Z.eqb ?x ?y] => destruct (Z.eqb_spec x y)
           end;
      cbn [orb] in *; destruct (is_leap y); lia.
Qed.

End DateParsing.
(** X2. [parseDate] answers a date only on a string of ten characters, and
    the date it answers is a day of the calendar: the year is the one
    written, within 0..9999, the month index within 0..11, and the day
    within the days of that month (a day number the written month does not
    have has moved into the next month). *)
Theorem parseDate_yields_calendar_dates (dateString : value) (date : Date) :
  parseDate dateString = Some date ->
  (exists s : string, dateString = VStr s /\ String.length s = 10%nat) /\
  0 <= getUTCFullYear date <= 9999 /\
  0 <= getUTCMonth date <= 11 /\
  1 <= getUTCDate date
    <= days_in_month (getUTCFullYear date) (getUTCMonth date + 1).
Proof.
  intros H. destruct dateString as [| | | |s| |]; try discriminate H.
  cbn [parseDate] in H.
  pose proof (length_list_ascii_of_string s) as Hlen.
  destruct (list_ascii_of_string s)
    as [|y1 [|y2 [|y3 [|y4 [|c1 [|m1 [|m2 [|c2 [|d1 [|d2 [|x l]]]]]]]]]]];
    try discriminate H.
  all: try (destruct c1 as [[] [] [] [] [] [] [] []]; try discriminate H).
  all: try (destruct c2 as [[] [] [] [] [] [] [] []]; try discriminate H).
  destruct (forallb Dec.is_digit [y1; y2; y3; y4; m1; m2; d1; d2]) eqn:Hd;
    [|discriminate H].
  cbn [forallb] in Hd.
  repeat (apply andb_true_iff in Hd as [?%is_digit_val Hd]).
  apply make_date_calendar in H as (Hy & Hm & Hday).
  split; [exists s; split; [reflexivity | now rewrite <- Hlen]|].
  rewrite Hy. split; [|now split].
  unfold Dec.digits_val. cbn [fold_left]. lia.
Qed.

Lemma parseDate_yields_calendar_dates_witness :
  1 <= getUTCDate (mkDate 2023 2 2) <= days_in_month 2023 (2 + 1).
Proof.
  apply (parseDate_yields_calendar_dates (VStr "2023-02-30") (mkDate 2023 2 2)).
  vm_compute. reflexivity.
Defined.

(** ** Operators of the condition evaluator *)

Section Operators.

Lemma append_cons (c : ascii) (a b : string) :
  String c a ++ b = String c (a ++ b).
Proof. reflexivity. Qed.

Lemma prefix_spec (a b : string) :
  String.prefix a b = true <-> exists post : string, b = a ++ post.
Proof.
  revert b. induction a as [|c a IH]; intros b.
  - split; [intros _; now exists b | intros _; now destruct b].
  - destruct b as [|c' b]; cbn.
    + split; [discriminate | intros [post [=]]].
    + destruct (Ascii.ascii_dec c c') as [->|Hne].
      * rewrite IH. split; intros [post H]; exists post;
          rewrite ?append_cons in *; congruence.
      * split; [discriminate|]. intros [post H].
        rewrite append_cons in H. congruence.
Qed.

Lemma includes_spec (s sub : string) :
  includes s sub = true <-> exists pre post : string, s = pre ++ sub ++ post.
Proof.
  induction s as [|c s IH]; cbn [includes].
  - rewrite orb_false_r, prefix_spec. split.
    + intros [post H]. now exists "", post.
    + intros (pre & post & H). destruct pre; [now exists post|discriminate H].
  - rewrite orb_true_iff, prefix_spec, IH. split.
    + intros [[post H]|(pre & post & H)].
      * now exists "", post.
      * exists (String c pre), post. now rewrite append_cons, H.
    + intros (pre & post & H). destruct pre as [|c' pre].
      * left. now exists post.
      * right. rewrite append_cons in H. injection H as _ H.
        now exists pre, post.
Qed.

Lemma list_of_chars (l : list ascii) :
  list_ascii_of_string (Dec.string_of_chars l) = l.
Proof.
  induction l as [|c l IH]; [reflexivity|].
  cbn. rewrite ?append_cons. cbn. f_equal. exact IH.
Qed.

Lemma chars_of_list (s : string) :
  Dec.string_of_chars (list_ascii_of_string s) = s.
Proof.
  induction s as [|c s IH]; [reflexivity|].
  cbn. rewrite ?append_cons. cbn. f_equal. exact IH.
Qed.

Lemma list_of_append (a b : string) :
  list_ascii_of_string (a ++ b)
  = (list_ascii_of_string a ++ list_ascii_of_string b)%list.
Proof.
  induction a as [|c a IH]; [reflexivity|].
  cbn. rewrite ?append_cons. cbn. f_equal. exact IH.
Qed.

Lemma chars_of_app (l k : list ascii) :
  Dec.string_of_chars (l ++ k)%list
  = Dec.string_of_chars l ++ Dec.string_of_chars k.
Proof.
  induction l as [|c l IH]; [reflexivity|].
  cbn. rewrite ?append_cons. cbn. f_equal. exact IH.
Qed.

Lemma rev_string_append (a b : string) :
  rev_string (a ++ b) = rev_string b ++ rev_string a.
Proof.
  unfold rev_string. now rewrite list_of_append, rev_app_distr, chars_of_app.
Qed.

Lemma rev_string_involutive (s : string) : rev_string (rev_string s) = s.
Proof.
  unfold rev_string. now rewrite list_of_chars, rev_involutive, chars_of_list.
Qed.

Lemma endsWith_spec (s sub : string) :
  endsWith s sub = true <-> exists pre : string, s = pre ++ sub.
Proof.
  unfold endsWith. rewrite prefix_spec. split.
  - intros [post H]. exists (rev_string post).
    rewrite <- (rev_string_involutive s), H, rev_string_append.
    now rewrite rev_string_involutive.
  - intros [pre ->]. exists (rev_string pre). apply rev_string_append.
Qed.

Lemma compareDates_swap (a b : Date) :
  compareDates b a = - compareDates a b.
Proof.
  destruct a as [ya ma da], b as [yb mb db].
  unfold compareDates. cbn [getUTCFullYear getUTCMonth getUTCDate].
  rewrite !Z.gtb_ltb.
  repeat match goal with
         | |- context [Z.ltb ?x ?y] => destruct (Z.ltb_spec x y)
         end; lia.
Qed.

Lemma compareDates_values (a b : Date) :
  compareDates a b = -1 \/ compareDates a b = 0 \/ compareDates a b = 1.
Proof.
  unfold compareDates.
  repeat match goal with
         | |- context [if ?c then _ else _] => destruct c
         end; auto.
Qed.

Lemma compareDates_zero (a b : Date) : compareDates a b = 0 <-> a = b.
Proof.
  destruct a as [ya ma da], b as [yb mb db].
  unfold compareDates. cbn [getUTCFullYear getUTCMonth getUTCDate].
  rewrite !Z.gtb_ltb.
  repeat match goal with
         | |- context [Z.ltb ?x ?y] => destruct (Z.ltb_spec x y)
         end;
    split; try lia; try (intros [= -> -> ->]; lia).
  intros _. f_equal; lia.
Qed.

Lemma equals_sym (a b : Dec.t) : Dec.equals a b = Dec.equals b a.
Proof.
  unfold Dec.equals. rewrite (DecFacts.cmp_antisym a b).
  destruct (Dec.cmp a b); reflexivity.
Qed.

Lemma equals_lte (a b : Dec.t) :
  Dec.equals a b = true <-> Dec.lte a b = true /\ Dec.lte b a = true.
Proof.
  unfold Dec.equals, Dec.lte. rewrite (DecFacts.cmp_antisym a b).
  destruct (Dec.cmp a b); cbn; split; try tauto; try discriminate;
    intros [? ?]; discriminate.
Qed.

Lemma equals_trans (a b c : Dec.t) :
  Dec.equals a b = true -> Dec.equals b c = true -> Dec.equals a c = true.
Proof.
  rewrite !equals_lte. intros [H1 H2] [H3 H4].
  split; eapply DecFacts.lte_trans; eauto.
Qed.

End Operators.

Ltac eval_ops :=
  cbn [String.eqb Ascii.eqb Bool.eqb andb orb negb] in *.

(** X3. An operator that no branch knows is false on every input and data
    type; the ordering operators are false on values compared as strings;
    the text operators are false on values compared as numbers or dates. *)
Theorem evaluateCondition_unsupported_operator
    (recordValue : value) (operator : string) (ruleValue : value)
    (dataType : string) :
  (operator ∉ known_operators ->
   evaluateCondition recordValue operator ruleValue dataType = false) /\
  (string_typed dataType -> operator ∈ [">"; ">="; "<"; "<="] ->
   evaluateCondition recordValue operator ruleValue dataType = false) /\
  (dataType = "Number" \/ dataType = "Date" ->
   operator ∈ ["CONTAINS"; "STARTSWITH"; "ENDSWITH"; "NOT CONTAINS"] ->
   evaluateCondition recordValue operator ruleValue dataType = false).
Proof.
  split; [|split].
  - intros Hop.
    assert (Hne : forall k, k ∈ known_operators -> String.eqb operator k = false).
    { intros k Hk. apply String.eqb_neq. intros ->. contradiction. }
    unfold known_operators in Hne. unfold evaluateCondition.
    rewrite !Hne by (repeat first [apply list_elem_of_here
                                  | apply list_elem_of_further]).
    cbn [andb].
    destruct (is_blank recordValue); [reflexivity|].
    destruct (is_blank ruleValue); [reflexivity|].
    destruct (String.eqb dataType "Number");
      [destruct (toDecimal recordValue), (toDecimal ruleValue); reflexivity|].
    destruct (String.eqb dataType "Date"); [|reflexivity].
    repeat match goal with
           | |- context [parseDate ?x] => destruct (parseDate x)
           end; reflexivity.
  - intros [Hn Hd] Hop. unfold evaluateCondition.
    rewrite (proj2 (String.eqb_neq _ _) Hn), (proj2 (String.eqb_neq _ _) Hd).
    repeat (apply elem_of_cons in Hop as [->|Hop]);
      [| | | |inversion Hop];
      eval_ops; destruct (is_blank recordValue), (is_blank ruleValue); reflexivity.
  - intros Hdt Hop. unfold evaluateCondition.
    repeat (apply elem_of_cons in Hop as [->|Hop]);
      [| | | |inversion Hop];
      destruct Hdt as [-> | ->]; eval_ops;
      destruct (is_blank recordValue), (is_blank ruleValue);
      try reflexivity;
      try (destruct (toDecimal recordValue), (toDecimal ruleValue);
           reflexivity);
      repeat match goal with
             | |- context [parseDate ?x] => destruct (parseDate x)
             end; reflexivity.
Qed.

Lemma evaluateCondition_unsupported_operator_witness :
  evaluateCondition (VStr "east") "IN" (VStr "east,west") "String" = false /\
  evaluateCondition (VStr "b") ">" (VStr "a") "String" = false /\
  evaluateCondition (VNum (Dec.of_Z 2024)) "CONTAINS" (VStr "20") "Number"
  = false.
Proof.
  split; [|split].
  - apply (proj1 (evaluateCondition_unsupported_operator _ _ _ _)).
    unfold known_operators. intros H.
    repeat (apply elem_of_cons in H as [H|H]; [discriminate H|]).
    inversion H.
  - apply (proj1 (proj2 (evaluateCondition_unsupported_operator _ _ _ _))).
    + split; discriminate.
    + apply list_elem_of_here.
  - apply (proj2 (proj2 (evaluateCondition_unsupported_operator _ _ _ _))).
    + now left.
    + apply list_elem_of_here.
Defined.

(** X4. Under every data type the operator [=] is symmetric in its two
    values, blank or not, and transitive. *)
Theorem evaluateCondition_eq_is_symmetric_and_transitive
    (a b c : value) (dataType : string) :
  evaluateCondition a "=" b dataType = evaluateCondition b "=" a dataType /\
  (evaluateCondition a "=" b dataType = true ->
   evaluateCondition b "=" c dataType = true ->
   evaluateCondition a "=" c dataType = true).
Proof.
  unfold evaluateCondition.
  change (String.eqb "=" "=") with true.
  change (String.eqb "=" "!=") with false. cbn [andb].
  destruct (is_blank a) eqn:Ha, (is_blank b) eqn:Hb, (is_blank c) eqn:Hc;
    cbn [andb negb]; try (split; [reflexivity | congruence]).
  - destruct (String.eqb dataType "Number");
      [|destruct (String.eqb dataType "Date")].
    + split; [|discriminate].
      destruct (toDecimal a), (toDecimal b); try reflexivity. apply equals_sym.
    + split; [|discriminate].
      destruct (parseDate (VStr (js_String a))), (parseDate (VStr (js_String b)));
        try reflexivity.
      rewrite (compareDates_swap d d0). now destruct (compareDates d d0).
    + split; [apply String.eqb_sym | discriminate].
  - destruct (String.eqb dataType "Number");
      [|destruct (String.eqb dataType "Date")].
    + destruct (toDecimal a) as [da|], (toDecimal b) as [db|],
        (toDecimal c) as [dc|];
        (split; [try reflexivity; apply equals_sym
                | try discriminate; try apply equals_trans]).
    + destruct (parseDate (VStr (js_String a))) as [da|],
        (parseDate (VStr (js_String b))) as [db|],
        (parseDate (VStr (js_String c))) as [dc|];
        (split;
         [ try reflexivity;
           rewrite (compareDates_swap da db); now destruct (compareDates da db)
         | try discriminate ]).
      rewrite !Z.eqb_eq, !compareDates_zero. congruence.
    + split; [apply String.eqb_sym|].
      rewrite !String.eqb_eq. congruence.
Qed.

Lemma evaluateCondition_eq_is_symmetric_and_transitive_witness :
  evaluateCondition (VStr "1.50") "=" (VStr "15e-1") "Number" = true.
Proof.
  apply (proj2 (evaluateCondition_eq_is_symmetric_and_transitive
                  (VStr "1.50") (VNum (Dec.mk 15 (-1))) (VStr "15e-1")
                  "Number"));
    vm_compute; reflexivity.
Defined.

(** X5. On two values that are not blank and read as numbers, or as dates,
    the ordering operators fit together: [>=] is the negation of [<], [<=]
    the negation of [>], [a > b] is [b < a], and [>=] holds exactly when [>]
    or [=] does. *)
Theorem evaluateCondition_ordering_is_coherent
    (dataType : string) (a b : value) :
  dataType = "Number" \/ dataType = "Date" ->
  is_blank a = false -> is_blank b = false ->
  well_typed dataType a -> well_typed dataType b ->
  evaluateCondition a ">=" b dataType
  = negb (evaluateCondition a "<" b dataType) /\
  evaluateCondition a "<=" b dataType
  = negb (evaluateCondition a ">" b dataType) /\
  evaluateCondition a ">" b dataType = evaluateCondition b "<" a dataType /\
  evaluateCondition a ">=" b dataType
  = (evaluateCondition a ">" b dataType
     || evaluateCondition a "=" b dataType).
Proof.
  intros Hdt Ha Hb Hwa Hwb. unfold evaluateCondition, well_typed in *.
  rewrite Ha, Hb. destruct Hdt as [-> | ->]; eval_ops.
  - destruct Hwa as [da ->], Hwb as [db ->].
    unfold Dec.gte, Dec.lt, Dec.lte, Dec.gt, Dec.equals.
    rewrite (DecFacts.cmp_antisym da db).
    destruct (Dec.cmp da db); repeat split.
  - destruct Hwa as [da ->], Hwb as [db ->].
    rewrite (compareDates_swap da db).
    destruct (compareDates_values da db) as [-> | [-> | ->]]; repeat split.
Qed.

Lemma evaluateCondition_ordering_is_coherent_witness :
  evaluateCondition (VStr "2024-12-31") ">=" (VStr "2024-12-01") "Date"
  = negb (evaluateCondition (VStr "2024-12-31") "<" (VStr "2024-12-01") "Date").
Proof.
  apply (evaluateCondition_ordering_is_coherent "Date" (VStr "2024-12-31")
           (VStr "2024-12-01"));
    [now right | reflexivity | reflexivity
     | vm_compute; eexists; reflexivity | vm_compute; eexists; reflexivity].
Defined.

(** X6. On two values that are not blank and are compared as strings, after
    trimming and case folding: CONTAINS holds exactly when the rule text
    occurs in the record text, STARTSWITH when it is a prefix, ENDSWITH when
    it is a suffix, [=] when the texts are equal, and NOT CONTAINS is the
    negation of CONTAINS. *)
Theorem evaluateCondition_text_operators
    (dataType : string) (recordValue ruleValue : value) :
  string_typed dataType ->
  is_blank recordValue = false -> is_blank ruleValue = false ->
  (evaluateCondition recordValue "CONTAINS" ruleValue dataType = true <->
   exists pre post : string,
     folded recordValue = pre ++ folded ruleValue ++ post) /\
  (evaluateCondition recordValue "STARTSWITH" ruleValue dataType = true <->
   exists post : string, folded recordValue = folded ruleValue ++ post) /\
  (evaluateCondition recordValue "ENDSWITH" ruleValue dataType = true <->
   exists pre : string, folded recordValue = pre ++ folded ruleValue) /\
  (evaluateCondition recordValue "=" ruleValue dataType = true <->
   folded recordValue = folded ruleValue) /\
  evaluateCondition recordValue "NOT CONTAINS" ruleValue dataType
  = negb (evaluateCondition recordValue "CONTAINS" ruleValue dataType).
Proof.
  intros [Hn Hd] Ha Hb. unfold evaluateCondition, folded.
  rewrite Ha, Hb, (proj2 (String.eqb_neq _ _) Hn),
    (proj2 (String.eqb_neq _ _) Hd).
  eval_ops. unfold startsWith.
  rewrite includes_spec, prefix_spec, endsWith_spec, String.eqb_eq.
  repeat split; auto.
Qed.

Lemma evaluateCondition_text_operators_witness :
  evaluateCondition (VStr " Fully Delivered ") "STARTSWITH" (VStr "FULLY")
    "String" = true.
Proof.
  apply (proj1 (proj2 (evaluateCondition_text_operators "String"
                         (VStr " Fully Delivered ") (VStr "FULLY")
                         ltac:(split; discriminate) eq_refl eq_refl))).
  exists " delivered". vm_compute. reflexivity.
Defined.


(** ** Property paths *)

Section PropertyPaths.

Lemma split_dot_aux_free (a : string) (cur : list ascii) (rest : string) :
  dot_free a ->
  split_dot_aux cur (a ++ rest)
  = split_dot_aux (rev (list_ascii_of_string a) ++ cur)%list rest.
Proof.
  revert cur. induction a as [|c a IH]; intros cur Hfree; [reflexivity|].
  rewrite append_cons. cbn [split_dot_aux list_ascii_of_string rev].
  assert (Hc : (c =? ".")%char = false).
  { apply Ascii.eqb_neq. apply Hfree. cbn. left. }
  rewrite Hc, IH.
  - now rewrite <- app_assoc.
  - intros x Hx. apply Hfree. cbn. now right.
Qed.



Lemma split_dot_first (a b : string) :
  dot_free a -> split_dot (a ++ "." ++ b) = a :: split_dot b.
Proof.
  intros Hfree. unfold split_dot.
  rewrite split_dot_aux_free by exact Hfree.
  rewrite append_cons. cbn [split_dot_aux]. change (("." =? ".")%char) with true.
  cbn iota. now rewrite app_nil_r, rev_involutive, chars_of_list.
Qed.



Lemma fold_stays_plain (defaultValue : value) (keys : list string) :
  plain defaultValue ->
  fold_left
    (fun acc key =>
       if truthy acc then
         match get_prop acc key with
         | VUndef => defaultValue
         | v => v
         end
       else defaultValue) keys defaultValue = defaultValue.
Proof.
  intros Hp. induction keys as [|k keys IH]; cbn [fold_left]; [reflexivity|].
  assert (Hstep : (if truthy defaultValue then
                     match get_prop defaultValue k with
                     | VUndef => defaultValue
                     | v => v
                     end
                   else defaultValue) = defaultValue).
  { destruct defaultValue; cbn in Hp |- *; try reflexivity;
      try contradiction;
      match goal with |- (if ?b then _ else _) = _ => now destruct b end. }
  rewrite Hstep. exact IH.
Qed.

End PropertyPaths.



(** X8. A base file name is read as a path too.  When the configuration
    passes validation, the name of the base file has a dot, and the uploaded
    files have no property named by the part before the dot, the run aborts
    with the error that the base data file was not found, even if the files
    are stored under the full name. *)
Theorem runScheme_dotted_base_file
    (h : Heap) (runAsOfDate : value) (now runAsOf : string)
    (runDate schemeStart : Date) (bm : BaseMapping) (a b : string) :
  validate (heap_scheme h) (heap_uploadedFiles h) runAsOfDate
  = Ok (runAsOf, runDate, schemeStart, bm) ->
  bm_sourceFile bm = a ++ "." ++ b ->
  dot_free a ->
  get_prop (heap_uploadedFiles h) a = VUndef ->
  fst (runScheme h runAsOfDate now)
  = Throw (Error ("Base data file " ++ bm_sourceFile bm
                  ++ " not found or is not an array in uploadedFiles.")).
Proof.
  intros Hval Hname Hfree Hprop. unfold runScheme. rewrite Hval. cbn [fst].
  unfold run_body.
  assert (Hbase : safeGet (heap_uploadedFiles h) (bm_sourceFile bm) VUndef
                  = VUndef).
  { unfold safeGet. destruct (truthy (heap_uploadedFiles h)); [|reflexivity].
    cbn [negb]. rewrite Hname.
    assert (Hne : String.eqb (a ++ "." ++ b) "" = false).
    { apply String.eqb_neq. destruct a; discriminate. }
    rewrite Hne, split_dot_first by exact Hfree.
    cbn [fold_left]. rewrite Hprop.
    destruct (truthy (heap_uploadedFiles h));
      now apply (fold_stays_plain VUndef). }
  now rewrite Hbase.
Qed.

Lemma runScheme_dotted_base_file_witness :
  fst (runScheme
         (mkHeap
            (mkScheme "demo" (VStr "2024-12-01")
               (Some (mkBaseMapping "SCH1_Example.csv" "Agent" "Amount" "Date"))
               (Some []) [] [] [] [] [] "" (mkKpiConfig [] [] [] [] []))
            (VObj [("SCH1_Example.csv",
                    VArr [demo_row (VStr "101") (VNum (Dec.of_Z 100))
                            (VStr "2024-12-05")])]))
         (VStr "2024-12-31") "t0")
  = Throw (Error ("Base data file " ++ "SCH1_Example.csv"
                  ++ " not found or is not an array in uploadedFiles.")).
Proof.
  apply (runScheme_dotted_base_file _ _ _ "2024-12-31" (mkDate 2024 11 31)
           (mkDate 2024 11 1)
           (mkBaseMapping "SCH1_Example.csv" "Agent" "Amount" "Date")
           "SCH1_Example" "csv").
  - vm_compute. reflexivity.
  - reflexivity.
  - intros c Hc ->. vm_compute in Hc.
    repeat (apply elem_of_cons in Hc as [Hc|Hc]; [discriminate Hc|]).
    inversion Hc.
  - reflexivity.
Defined.

(** ** More on the manager lookup *)

Section Trimming.

Lemma drop_spaces_idem (l : list ascii) :
  drop_spaces (drop_spaces l) = drop_spaces l.
Proof.
  induction l as [|c l IH]; [reflexivity|]. cbn [drop_spaces].
  destruct (is_space c) eqn:Hc; [exact IH|].
  cbn [drop_spaces]. now rewrite Hc.
Qed.

Lemma drop_spaces_suffix (l : list ascii) :
  exists p : list ascii, l = (p ++ drop_spaces l)%list.
Proof.
  induction l as [|c l [p IH]]; [now exists []|]. cbn [drop_spaces].
  destruct (is_space c).
  - exists (c :: p). cbn. now rewrite <- IH.
  - now exists [].
Qed.

Lemma drop_spaces_head (l : list ascii) (c : ascii) (t : list ascii) :
  drop_spaces l = c :: t -> is_space c = false.
Proof.
  induction l as [|x l IH]; [discriminate|]. cbn [drop_spaces].
  destruct (is_space x) eqn:Hx; [exact IH|]. now intros [= <- _].
Qed.

Lemma trim_chars_idem (l : list ascii) :
  let t := rev (drop_spaces (rev (drop_spaces l))) in
  rev (drop_spaces (rev (drop_spaces t))) = t.
Proof.
  cbn zeta. set (u := drop_spaces l). set (w := drop_spaces (rev u)).
  assert (Ht : drop_spaces (rev w) = rev w).
  { destruct (drop_spaces_suffix (rev u)) as [p Hp]. fold w in Hp.
    assert (Hu : u = (rev w ++ rev p)%list).
    { rewrite <- (rev_involutive u), Hp, rev_app_distr. reflexivity. }
    destruct (rev w) as [|c t'] eqn:Hrw; [reflexivity|].
    cbn [drop_spaces].
    assert (Hc : is_space c = false).
    { apply (drop_spaces_head l c (t' ++ rev p)%list). fold u. now rewrite Hu. }
    now rewrite Hc. }
  rewrite Ht, rev_involutive. unfold w. now rewrite drop_spaces_idem.
Qed.

Lemma trim_idem (s : string) : trim (trim s) = trim s.
Proof.
  unfold trim. rewrite list_of_chars. f_equal.
  apply (trim_chars_idem (list_ascii_of_string s)).
Qed.

Lemma map_string_empty (f : ascii -> ascii) (s : string) :
  map_string f s = "" <-> s = "".
Proof. destruct s; cbn; split; congruence. Qed.

End Trimming.

Section ManagerLookupMore.

Variables (schemeStart runAsOf : Date).

Lemma findManager_loop_app (agentId levelUpper : string)
    (rows more : list value) :
  findManager_loop agentId levelUpper schemeStart runAsOf (rows ++ more)
  = match findManager_loop agentId levelUpper schemeStart runAsOf rows with
    | Some m => Some m
    | None => findManager_loop agentId levelUpper schemeStart runAsOf more
    end.
Proof.
  induction rows as [|row rows IH]; cbn [app findManager_loop]; [reflexivity|].
  destruct (manager_of_row _ _ _ _ row); [reflexivity | exact IH].
Qed.

Lemma manager_of_row_trimmed (agentId levelUpper : string) (row : value)
    (m : string) :
  manager_of_row agentId levelUpper schemeStart runAsOf row = Some m ->
  m <> "" /\ trim m = m.
Proof.
  unfold manager_of_row.
  destruct (_ && _); [|discriminate].
  destruct (parseDate _); [|discriminate].
  destruct (parseDate _); [|discriminate].
  destruct (_ && _); [|discriminate].
  destruct (safeGet row "ManagerID" VNull) eqn:HM; try discriminate;
    match goal with
    | |- context [String.eqb ?x ""] =>
        destruct (String.eqb_spec x ""); [discriminate|]
    end;
    intros [= <-]; (split; [assumption | apply trim_idem]).
Qed.

End ManagerLookupMore.

(** X9. The manager [findManager] answers is never empty and carries no
    surrounding blanks.  The answer does not depend on the letter case of
    the role.  Rows that come later never change an answer already found:
    with more rows appended a found manager stays, and when none was found
    the lookup is the lookup in the appended rows. *)
Theorem findManager_answers
    (agentId role : string) (rows : list value) (schemeStart runAsOf : Date) :
  (forall m : string,
      findManager agentId role rows schemeStart runAsOf = Some m ->
      m <> "" /\ trim m = m) /\
  (forall role' : string,
      toUpperCase role = toUpperCase role' ->
      findManager agentId role rows schemeStart runAsOf
      = findManager agentId role' rows schemeStart runAsOf) /\
  (forall (more : list value) (m : string),
      findManager agentId role rows schemeStart runAsOf = Some m ->
      findManager agentId role (rows ++ more) schemeStart runAsOf = Some m) /\
  (forall more : list value,
      findManager agentId role rows schemeStart runAsOf = None ->
      findManager agentId role (rows ++ more) schemeStart runAsOf
      = findManager agentId role more schemeStart runAsOf).
Proof.
  unfold findManager. split; [|split; [|split]].
  - intros m. destruct (_ || _); [discriminate|].
    induction rows as [|row rows' IH]; cbn [findManager_loop]; [discriminate|].
    destruct (manager_of_row _ _ _ _ row) as [m0|] eqn:Hrow; [|exact IH].
    intros [= <-]. eapply manager_of_row_trimmed; exact Hrow.
  - intros role' Hup. rewrite <- Hup.
    assert (He : String.eqb role "" = String.eqb role' "").
    { destruct (String.eqb_spec role ""), (String.eqb_spec role' "");
        try reflexivity; exfalso.
      - subst role. symmetry in Hup. apply map_string_empty in Hup. auto.
      - subst role'. apply map_string_empty in Hup. auto. }
    now rewrite He.
  - intros more m. destruct (_ || _); [discriminate|].
    intros H. now rewrite findManager_loop_app, H.
  - intros more. destruct (_ || _); [reflexivity|].
    intros H. now rewrite findManager_loop_app, H.
Qed.

Lemma findManager_answers_witness :
  findManager "101" "L1"
    ([hierarchy_row "101" "L1" " MGR_A " "2024-01-01" "2024-12-31"]
     ++ [hierarchy_row "101" "L1" "MGR_NEW" "2024-06-01" "2024-12-31"])
    (mkDate 2024 11 1) (mkDate 2024 11 31) = Some "MGR_A" /\
  findManager "101" "L1"
    [hierarchy_row "101" "L1" " MGR_A " "2024-01-01" "2024-12-31"]
    (mkDate 2024 11 1) (mkDate 2024 11 31)
  = findManager "101" "l1"
      [hierarchy_row "101" "L1" " MGR_A " "2024-01-01" "2024-12-31"]
      (mkDate 2024 11 1) (mkDate 2024 11 31).
Proof.
  split.
  - apply (proj1 (proj2 (proj2
             (findManager_answers "101" "L1"
                [hierarchy_row "101" "L1" " MGR_A " "2024-01-01" "2024-12-31"]
                (mkDate 2024 11 1) (mkDate 2024 11 31))))).
    vm_compute. reflexivity.
  - apply (proj1 (proj2
             (findManager_answers "101" "L1"
                [hierarchy_row "101" "L1" " MGR_A " "2024-01-01" "2024-12-31"]
                (mkDate 2024 11 1) (mkDate 2024 11 31)))).
    vm_compute. reflexivity.
Defined.

(** ** More on the tiered payout *)

Section TierOrder.

(** Two sorted rearrangements of each other are equal when the order cannot
    tie on different elements. *)
Lemma sorted_perm_unique (l l' : list Tier) :
  StronglySorted from_le l -> StronglySorted from_le l' -> l ≡ₚ l' ->
  (forall t1 t2, t1 ∈ l -> t2 ∈ l -> from_le t1 t2 -> from_le t2 t1 -> t1 = t2) ->
  l = l'.
Proof.
  intros Hs. revert l'. induction Hs as [|x l Hs IH Hx]; intros l' Hs' Hp Ha.
  - now apply Permutation_nil in Hp.
  - destruct Hs' as [|y l' Hs' Hy].
    { symmetry in Hp. now apply Permutation_nil in Hp. }
    assert (Hxy : x = y).
    { assert (Hxin : x ∈ y :: l') by (rewrite <- Hp; left).
      assert (Hyin : y ∈ x :: l) by (rewrite Hp; left).
      apply elem_of_cons in Hxin as [?|Hxin]; [assumption|].
      apply elem_of_cons in Hyin as [?|Hyin]; [congruence|].
      rewrite Forall_forall in Hx, Hy.
      apply Ha; [left | now right | | ].
      - now apply Hx.
      - now apply Hy. }
    subst y. f_equal. apply IH; [exact Hs'| |].
    + now apply Permutation_cons_inv in Hp.
    + intros t1 t2 H1 H2. apply Ha; now right.
Qed.

End TierOrder.

(** X10. An amount that is not positive pays nothing, whatever the tiers.
    When no two different tiers start at the same amount, the payout does
    not depend on the order in which the tiers are listed. *)
Theorem marginal_payout_edge_cases (amount : Dec.t) (tiers : list Tier) :
  (Dec.lte amount Dec.zero = true ->
   calculateMarginalTieredPayout amount tiers = Dec.zero) /\
  (forall tiers' : list Tier,
      tiers ≡ₚ tiers' -> distinct_from tiers ->
      calculateMarginalTieredPayout amount tiers
      = calculateMarginalTieredPayout amount tiers').
Proof.
  split.
  - intros Hle. unfold calculateMarginalTieredPayout.
    destruct tiers as [|t tiers]; [reflexivity|].
    destruct (sortedTiers (t :: tiers)) as [|t0 rest]; [reflexivity|].
    cbn [tier_loop]. rewrite Hle. now rewrite orb_true_r.
  - intros tiers' Hp Hd.
    assert (Hsorted : sortedTiers tiers = sortedTiers tiers').
    { apply sorted_perm_unique; try apply sortedTiers_sorted.
      - now rewrite !sortedTiers_perm.
      - intros t1 t2 H1 H2. rewrite sortedTiers_perm in H1, H2.
        now apply Hd. }
    unfold calculateMarginalTieredPayout. rewrite Hsorted.
    destruct tiers as [|t tiers].
    + now apply Permutation_nil in Hp as ->.
    + destruct tiers' as [|t' tiers'']; [|reflexivity].
      symmetry in Hp. now apply Permutation_nil in Hp.
Qed.

Lemma marginal_payout_edge_cases_witness :
  calculateMarginalTieredPayout (Dec.of_Z (-10)) example_tiers = Dec.zero /\
  calculateMarginalTieredPayout (Dec.of_Z 200000) example_tiers
  = calculateMarginalTieredPayout (Dec.of_Z 200000) (rev example_tiers).
Proof.
  split.
  - apply (proj1 (marginal_payout_edge_cases (Dec.of_Z (-10)) example_tiers)).
    reflexivity.
  - apply (proj2 (marginal_payout_edge_cases (Dec.of_Z 200000) example_tiers)).
    + apply Permutation_rev.
    + intros t1 t2 H1 H2. unfold example_tiers in H1, H2.
      repeat (apply elem_of_cons in H1 as [->|H1]);
        repeat (apply elem_of_cons in H2 as [->|H2]);
        try (inversion H1; fail); try (inversion H2; fail);
        try reflexivity; vm_compute; discriminate.
Defined.

Section PayoutCap.

Lemma min_inf_reached (upper amount : Dec.t) :
  Dec.lte upper amount = true -> Dec.min_inf (Some upper) amount = upper.
Proof.
  intros H. cbn [Dec.min_inf]. unfold Dec.min.
  now rewrite DecFacts.gt_not_lte, H.
Qed.

Lemma bracket_scan_capped (amount amount' : Dec.t) (tiers : list Tier) :
  Forall (fun t => exists upper, tier_to t = Some upper /\
                                 Dec.lte upper amount = true /\
                                 Dec.lte upper amount' = true) tiers ->
  forall total processed,
    bracket_scan amount tiers total processed
    = bracket_scan amount' tiers total processed.
Proof.
  induction 1 as [|t tiers (upper & Hto & H1 & H2) _ IH]; intros total processed;
    cbn [bracket_scan]; [reflexivity|].
  rewrite Hto, !min_inf_reached by assumption.
  destruct (Dec.gt _ _); apply IH.
Qed.

End PayoutCap.

(** X11. When every tier is bounded, the payout is capped: two amounts that
    both reach the end of every tier pay the same. *)
Theorem marginal_payout_is_capped
    (amount amount' : Dec.t) (tiers : list Tier) :
  (forall t : Tier,
      t ∈ tiers ->
      exists upper : Dec.t,
        tier_to t = Some upper /\ Dec.lte upper amount = true /\
        Dec.lte upper amount' = true) ->
  calculateMarginalTieredPayout amount tiers
  = calculateMarginalTieredPayout amount' tiers.
Proof.
  intros Hall. unfold calculateMarginalTieredPayout.
  destruct tiers as [|t tiers]; [reflexivity|].
  rewrite !tier_loop_bracket_scan by apply sortedTiers_sorted.
  apply bracket_scan_capped. apply Forall_forall. intros x Hx.
  apply Hall. now rewrite <- sortedTiers_perm.
Qed.

Lemma marginal_payout_is_capped_witness :
  calculateMarginalTieredPayout (Dec.of_Z 125000)
    [pct_tier "t1" 0 (Some 25000) 3; pct_tier "t2" 25000 (Some 125000) 7]
  = calculateMarginalTieredPayout (Dec.of_Z 900000)
      [pct_tier "t1" 0 (Some 25000) 3; pct_tier "t2" 25000 (Some 125000) 7].
Proof.
  apply marginal_payout_is_capped. intros t Ht.
  repeat (apply elem_of_cons in Ht as [->|Ht]); [| |inversion Ht];
    eexists; (split; [reflexivity|]); split; vm_compute; reflexivity.
Defined.


(** ** The field map *)

Section FieldMap.

Lemma add_kpi_field_lookup (m : gmap string FieldInfo) (f : KpiField)
    (name : string) :
  add_kpi_field m f !! name
  = if decide (kpi_name f = name /\ kpi_name f <> "" /\ kpi_sourceField f <> "")
    then Some (kpi_info f) else m !! name.
Proof.
  unfold add_kpi_field, kpi_info.
  destruct (String.eqb_spec (kpi_name f) "") as [He|Hne]; cbn [negb andb].
  { rewrite decide_False; [reflexivity | tauto]. }
  destruct (String.eqb_spec (kpi_sourceField f) "") as [Hs|Hs]; cbn [negb].
  { rewrite decide_False; [reflexivity | tauto]. }
  destruct (decide (kpi_name f = name)) as [<-|Hn].
  - rewrite decide_True by tauto. now rewrite lookup_insert_eq.
  - rewrite decide_False by tauto. now rewrite lookup_insert_ne.
Qed.

Lemma fold_fields_lookup (fields : list KpiField) (m : gmap string FieldInfo)
    (name : string) :
  (exists f, f ∈ fields /\ kpi_name f = name /\ kpi_name f <> "" /\
             kpi_sourceField f <> "" /\
             fold_left add_kpi_field fields m !! name = Some (kpi_info f)) \/
  ((forall f, f ∈ fields -> kpi_name f = name -> kpi_name f <> "" ->
              kpi_sourceField f = "") /\
   fold_left add_kpi_field fields m !! name = m !! name).
Proof.
  revert m. induction fields as [|f fields IH]; intros m; cbn [fold_left].
  - right. split; [intros f Hf; inversion Hf | reflexivity].
  - destruct (IH (add_kpi_field m f)) as [(g & Hg & Hn & H1 & H2 & Hl)|[Hno Hl]].
    + left. exists g. split; [now right | auto].
    + rewrite Hl, add_kpi_field_lookup.
      destruct (decide _) as [(Hn & H1 & H2)|Hnot].
      * left. exists f. split; [left | auto].
      * right. split; [|reflexivity].
        intros g Hg Hn H1. apply elem_of_cons in Hg as [->|Hg]; [|now apply Hno].
        destruct (String.eqb_spec (kpi_sourceField f) ""); [assumption|].
        exfalso. apply Hnot. auto.
Qed.

Lemma fold_sections_flat (sections : list (list KpiField))
    (m : gmap string FieldInfo) :
  fold_left (fun m section => fold_left add_kpi_field section m) sections m
  = fold_left add_kpi_field (mjoin sections) m.
Proof.
  revert m. induction sections as [|sec sections IH]; intros m; [reflexivity|].
  cbn [fold_left]. rewrite IH. change (mjoin (sec :: sections))
    with (sec ++ mjoin sections)%list.
  now rewrite fold_left_app.
Qed.

Lemma add_default_lookup (name : string) (fi : FieldInfo)
    (m : gmap string FieldInfo) (k : string) :
  add_default name fi m !! k
  = if decide (k = name)
    then Some (default fi (m !! name))
    else m !! k.
Proof.
  unfold add_default. destruct (decide (k = name)) as [->|Hne].
  - destruct (m !! name) eqn:Hm; [exact Hm | now rewrite lookup_insert_eq].
  - destruct (m !! name); [reflexivity | now rewrite lookup_insert_ne].
Qed.

End FieldMap.

(** X12. The field map always maps the logical names Agent, Amount and
    TransactionDate.  A name that a complete [kpiConfig] field defines is
    mapped to the entry of such a field, also when it is one of the three
    base names; a base name that no complete field defines is mapped to the
    base mapping with the type String, Number or Date; any other name that
    no complete field defines is not mapped. *)
Theorem fieldMap_contents (scheme : Scheme) (bm : BaseMapping) :
  let fieldMap := build_fieldMap scheme bm in
  (is_Some (fieldMap !! "Agent") /\ is_Some (fieldMap !! "Amount") /\
   is_Some (fieldMap !! "TransactionDate")) /\
  (forall name : string,
      kpi_defines scheme name ->
      exists f : KpiField,
        f ∈ kpi_fields scheme /\ kpi_name f = name /\
        kpi_sourceField f <> "" /\ fieldMap !! name = Some (kpi_info f)) /\
  (~ kpi_defines scheme "Agent" ->
   fieldMap !! "Agent"
   = Some (mkFieldInfo (bm_agentField bm) "String" "Per Record" ""
             (bm_sourceFile bm))) /\
  (~ kpi_defines scheme "Amount" ->
   fieldMap !! "Amount"
   = Some (mkFieldInfo (bm_amountField bm) "Number" "Per Record" ""
             (bm_sourceFile bm))) /\
  (~ kpi_defines scheme "TransactionDate" ->
   fieldMap !! "TransactionDate"
   = Some (mkFieldInfo (bm_transactionDateField bm) "Date" "Per Record" ""
             (bm_sourceFile bm))) /\
  (forall name : string,
      ~ kpi_defines scheme name ->
      name <> "Agent" -> name <> "Amount" -> name <> "TransactionDate" ->
      fieldMap !! name = None).
Proof.
  cbn zeta. unfold build_fieldMap. rewrite fold_sections_flat.
  fold (kpi_fields scheme).
  set (m0 := fold_left add_kpi_field (kpi_fields scheme) ∅).
  assert (Hdef : forall name,
             kpi_defines scheme name ->
             exists f, f ∈ kpi_fields scheme /\ kpi_name f = name /\
                       kpi_sourceField f <> "" /\ m0 !! name = Some (kpi_info f)).
  { intros name (g & Hg & Hn & H1 & H2).
    destruct (fold_fields_lookup (kpi_fields scheme) ∅ name)
      as [(f & Hf & Hfn & _ & Hfs & Hl)|[Hno _]].
    - exists f. auto.
    - exfalso. apply H2. now apply Hno. }
  assert (Hundef : forall name, ~ kpi_defines scheme name -> m0 !! name = None).
  { intros name Hnot.
    destruct (fold_fields_lookup (kpi_fields scheme) ∅ name)
      as [(f & Hf & Hfn & H1 & H2 & _)|[_ Hl]].
    - exfalso. apply Hnot. exists f. auto.
    - unfold m0. now rewrite Hl, lookup_empty. }
  clearbody m0. repeat split.
  - rewrite !add_default_lookup. cbn. now eexists.
  - rewrite !add_default_lookup. cbn. now eexists.
  - rewrite !add_default_lookup. cbn. now eexists.
  - intros name Hk. destruct (Hdef name Hk) as (f & Hf & Hn & Hs & Hl).
    exists f. repeat split; try assumption.
    rewrite !add_default_lookup.
    repeat (destruct (decide _) as [->|_]); rewrite ?Hl; try reflexivity;
      rewrite ?add_default_lookup;
      repeat (destruct (decide _) as [?|_]; try discriminate);
      rewrite ?Hl; reflexivity.
  - intros Hnot. rewrite !add_default_lookup. cbn.
    now rewrite (Hundef _ Hnot).
  - intros Hnot. rewrite !add_default_lookup. cbn.
    now rewrite (Hundef _ Hnot).
  - intros Hnot. rewrite !add_default_lookup. cbn.
    now rewrite (Hundef _ Hnot).
  - intros name Hnot H1 H2 H3. rewrite !add_default_lookup.
    rewrite !decide_False by assumption. now apply Hundef.
Qed.

Lemma fieldMap_contents_witness :
  build_fieldMap (demo_scheme None) demo_mapping !! "Amount"
  = Some (mkFieldInfo "Amount" "Number" "Per Record" "" "sales") /\
  build_fieldMap (demo_scheme None) demo_mapping !! "Region" = None.
Proof.
  destruct (fieldMap_contents (demo_scheme None) demo_mapping)
    as (_ & _ & _ & Hamount & _ & Hother).
  assert (Hnone : forall name, ~ kpi_defines (demo_scheme None) name).
  { intros name (f & Hf & _). vm_compute in Hf. inversion Hf. }
  split.
  - apply Hamount, Hnone.
  - apply Hother; [apply Hnone | discriminate | discriminate | discriminate].
Defined.


(** ** Agent-level qualification and payout *)

Section AgentQualification.

Variables (fieldMap : gmap string FieldInfo) (amountField : string)
  (total : Dec.t).

Let fails := agent_rule_fails fieldMap amountField total.
Let agent_rules (rules : list Rule) : list Rule :=
  filter (fun rule => is_agent_level fieldMap rule = true) rules.

Lemma agent_qual_loop_step (r : Rule) (rules : list Rule) :
  agent_qual_loop fieldMap amountField total (agent_rules (r :: rules))
  = if fails r then Some r
    else agent_qual_loop fieldMap amountField total (agent_rules rules).
Proof.
  unfold agent_rules, fails, agent_rule_fails.
  destruct (is_agent_level fieldMap r) eqn:Hlevel.
  - rewrite filter_cons_True by exact Hlevel. cbn [agent_qual_loop].
    unfold is_agent_level in Hlevel.
    destruct (fieldMap !! rule_field r) as [fi|]; [|discriminate].
    rewrite Hlevel. cbn [andb].
    destruct (String.eqb (sourceField fi) amountField
              && String.eqb (aggregation fi) "Sum"); [|reflexivity].
    cbn [andb]. now destruct (evaluateCondition _ _ _ _).
  - rewrite filter_cons_False by (rewrite Hlevel; discriminate).
    unfold is_agent_level in Hlevel.
    destruct (fieldMap !! rule_field r) as [fi|]; [|reflexivity].
    now rewrite Hlevel.
Qed.

Lemma agent_qual_loop_some (rules : list Rule) (rule : Rule) :
  agent_qual_loop fieldMap amountField total (agent_rules rules) = Some rule
  <-> first_firing fails rules rule.
Proof.
  unfold first_firing.
  induction rules as [|r rules IH].
  - split; [discriminate|]. intros (pre & post & H & _). now destruct pre.
  - rewrite agent_qual_loop_step. destruct (fails r) eqn:Hr.
    + split.
      * intros [= <-]. exists [], rules. split; [reflexivity|].
        split; [exact Hr|]. intros x Hx. inversion Hx.
      * intros (pre & post & Heq & Hf & Hpre). destruct pre as [|x pre].
        -- now injection Heq as ->.
        -- injection Heq as <- _. rewrite Hpre in Hr by left. discriminate.
    + rewrite IH. split.
      * intros (pre & post & -> & Hf & Hpre). exists (r :: pre), post.
        split; [reflexivity|]. split; [exact Hf|].
        intros x Hx. apply elem_of_cons in Hx as [->|Hx]; auto.
      * intros (pre & post & Heq & Hf & Hpre). destruct pre as [|x pre].
        -- injection Heq as <- _. congruence.
        -- injection Heq as <- ->. exists pre, post.
           split; [reflexivity|]. split; [exact Hf|].
           intros y Hy. apply Hpre. now right.
Qed.

Lemma agent_qual_loop_none (rules : list Rule) :
  agent_qual_loop fieldMap amountField total (agent_rules rules) = None
  <-> forall r : Rule, r ∈ rules -> fails r = false.
Proof.
  induction rules as [|r rules IH].
  - split; [intros _ x Hx; inversion Hx | reflexivity].
  - rewrite agent_qual_loop_step. destruct (fails r) eqn:Hr.
    + split; [discriminate|]. intros H. rewrite H in Hr by left. discriminate.
    + rewrite IH. split.
      * intros H x Hx. apply elem_of_cons in Hx as [->|Hx]; auto.
      * intros H x Hx. apply H. now right.
Qed.

End AgentQualification.

(** X13. An agent whose total is not positive never qualifies, and nothing
    is logged for that.  With a positive total the agent qualifies exactly
    when no agent-level rule on the summed primary amount fails; otherwise
    the first such rule that fails, in declaration order, disqualifies the
    agent and exactly one Qualification entry is logged, for that rule.
    Agent-level rules on other fields never disqualify. *)
Theorem agent_qualification_first_failure
    (scheme : Scheme) (fieldMap : gmap string FieldInfo) (bm : BaseMapping)
    (now agent : string) (total : Dec.t) :
  (Dec.lte total Dec.zero = true ->
   agent_qualification scheme fieldMap bm now agent total = (false, [])) /\
  (Dec.lte total Dec.zero = false ->
   (forall r : Rule,
       r ∈ qualificationRules scheme ->
       agent_rule_fails fieldMap (bm_amountField bm) total r = false) ->
   agent_qualification scheme fieldMap bm now agent total = (true, [])) /\
  (forall rule : Rule,
      Dec.lte total Dec.zero = false ->
      first_firing (agent_rule_fails fieldMap (bm_amountField bm) total)
        (qualificationRules scheme) rule ->
      agent_qualification scheme fieldMap bm now agent total
      = (false, [qualification_log now agent total rule])).
Proof.
  unfold agent_qualification. split; [|split].
  - now intros ->.
  - intros -> Hall. apply agent_qual_loop_none in Hall. now rewrite Hall.
  - intros rule -> Hfirst. apply agent_qual_loop_some in Hfirst.
    now rewrite Hfirst.
Qed.

Lemma agent_qualification_first_failure_witness :
  agent_qualification example_scheme example_fieldMap example_mapping "t0"
    "103" (Dec.of_Z 40000)
  = (false,
     [qualification_log "t0" "103" (Dec.of_Z 40000)
        (mkRule "q2" "MinSales" ">=" (VStr "70000"))]) /\
  agent_qualification example_scheme example_fieldMap example_mapping "t0"
    "102" Dec.zero = (false, []).
Proof.
  destruct (agent_qualification_first_failure example_scheme example_fieldMap
              example_mapping "t0" "103" (Dec.of_Z 40000)) as (_ & _ & H3).
  destruct (agent_qualification_first_failure example_scheme example_fieldMap
              example_mapping "t0" "102" Dec.zero) as (H1 & _ & _).
  split.
  - apply H3; [reflexivity|].
    exists [mkRule "q1" "SalesOrg" "=" (VStr "1810")], [].
    split; [reflexivity|]. split; [vm_compute; reflexivity|].
    intros r Hr. apply list_elem_of_singleton in Hr as ->.
    vm_compute. reflexivity.
  - apply H1. reflexivity.
Defined.


Section AgentWithoutCredit.

Variables (scheme : Scheme) (fieldMap : gmap string FieldInfo)
  (bm : BaseMapping) (runAsOf now : string) (hierarchyData : value)
  (schemeStart runDate : Date).

Lemma processRecord_log_types (agent : string) (record : value)
    (o : RecordOutcome) :
  processRecord scheme fieldMap bm now agent record = Ok o ->
  Forall record_level (ro_logs o).
Proof.
  unfold processRecord, newDecimal.
  destruct (toDecimal _) as [d|]; cbn; [|discriminate].
  destruct (exclusion_loop _ _ _ _) as [rule|]; intros [= <-]; cbn.
  - repeat constructor.
  - destruct (adjustment_loop_amounts fieldMap bm now agent record d
                (adjustmentRules scheme) (mkAdjState d Dec.one None []))
      as (_ & es & Hlogs & _ & Hall).
    unfold adjustment_loop. cbn zeta in Hlogs. rewrite Hlogs. cbn.
    eapply Forall_impl; [exact Hall|]. intros e (Hty & _). now right.
Qed.

Lemma outcomes_log_types (agent : string) (records : list value)
    (outcomes : list RecordOutcome) :
  Forall2 (fun r o => processRecord scheme fieldMap bm now agent r = Ok o)
    records outcomes ->
  Forall record_level (mjoin (ro_logs <$> outcomes)).
Proof.
  induction 1 as [|r o rs os Hr _ IH]; cbn; [constructor|].
  apply Forall_app. split; [|exact IH].
  eapply processRecord_log_types; exact Hr.
Qed.

End AgentWithoutCredit.

(** X14. An agent whose total credited amount is not positive gets the
    payout "0.00": no tier is applied, no credit is distributed, and the
    only entries logged for the agent are those of its records (exclusions
    and adjustments), so neither a Qualification nor a CreditSplit entry. *)
Theorem agent_without_credit
    (scheme : Scheme) (fieldMap : gmap string FieldInfo) (bm : BaseMapping)
    (runAsOf now : string) (hierarchyData : value)
    (schemeStart runDate : Date) (agent : string) (records : list value)
    (st : RunState) (ar : AgentRun) :
  run_agent scheme fieldMap bm runAsOf now hierarchyData schemeStart runDate
    agent records st = Ok ar ->
  Dec.lte (ar_total ar) Dec.zero = true ->
  ar_basePayout ar = Dec.zero /\
  ar_dist ar = st_creditDistributions st /\
  Forall record_level (ar_agentRuleLogs ar) /\
  st_agentPayouts (store_agent st agent ar) !! agent = Some "0.00".
Proof.
  unfold run_agent.
  destruct (process_records _ _ _ _ _ _ _) as [acc|e] eqn:Hacc; cbn;
    [|discriminate].
  destruct (agent_qualification scheme fieldMap bm now agent (acc_total acc))
    as [q qualLogs] eqn:Hq.
  destruct (Dec.lte (acc_total acc) Dec.zero) eqn:Hle.
  - unfold agent_qualification in Hq. rewrite Hle in Hq. injection Hq as <- <-.
    unfold credit_splits. change (Dec.gt Dec.zero Dec.zero) with false.
    cbn [andb]. intros [= <-] _.
    cbn [ar_basePayout ar_dist ar_agentRuleLogs store_agent st_agentPayouts].
    rewrite lookup_insert_eq, !app_nil_r.
    repeat split; try reflexivity.
    apply process_records_outcomes in Hacc as (os & Hos & ->).
    destruct (fold_add_outcome os
                (mkAgentAcc Dec.zero [] (st_rawRecordLevelData st)))
      as [-> _].
    cbn [acc_logs app]. eapply outcomes_log_types; exact Hos.
  - destruct (credit_splits _ _ _ _ _ _ _ _ _). intros [= <-].
    cbn [ar_total]. congruence.
Qed.

Lemma agent_without_credit_witness :
  exists ar : AgentRun,
    run_agent example_scheme example_fieldMap example_mapping "2024-12-31"
      "t0" (get_prop example_files "MH") (mkDate 2024 11 1)
      (mkDate 2024 11 31) "102"
      [with_identity "SCH1" 2
         (example_row "102" 90000 "2024-12-10" "1810" "17100002"
            "Fully Delivered")]
      (mkRunState ∅ ∅ ∅ []) = Ok ar /\
    ar_basePayout ar = Dec.zero /\
    Forall record_level (ar_agentRuleLogs ar).
Proof.
  eexists. split; [vm_compute; reflexivity|].
  match goal with
  | |- ar_basePayout ?a = _ /\ _ =>
      destruct (agent_without_credit example_scheme example_fieldMap
                  example_mapping "2024-12-31" "t0"
                  (get_prop example_files "MH") (mkDate 2024 11 1)
                  (mkDate 2024 11 31) "102"
                  [with_identity "SCH1" 2
                     (example_row "102" 90000 "2024-12-10" "1810" "17100002"
                        "Fully Delivered")]
                  (mkRunState ∅ ∅ ∅ []) a)
        as (H1 & _ & H3 & _)
  end.
  - vm_compute. reflexivity.
  - vm_compute. reflexivity.
  - split; assumption.
Defined.


(** ** Credit splits *)

Section CreditSplits.

Variables (scheme : Scheme) (runAsOf now agent : string) (rows : list value)
  (schemeStart runDate : Date) (basePayout : Dec.t).

Let step := split_step scheme runAsOf now agent rows schemeStart runDate
              basePayout.
Let pays := pays_to agent rows schemeStart runDate basePayout.

Lemma split_step_dist (dist : gmap string (list DistributionRecord))
    (logs : list LogEntry) (split : CreditSplit) (m : string) :
  (step (dist, logs) split).1 !! m
  = if pays m split
    then Some (default [] (dist !! m)
               ++ [distribution_of now agent basePayout split])%list
    else dist !! m.
Proof.
  unfold step, pays, split_step, pays_to.
  destruct (String.eqb (split_role split) ""
            || Dec.lte (split_percentage split) Dec.zero);
    cbn [negb andb fst]; [reflexivity|].
  destruct (findManager _ _ _ _ _) as [m'|]; cbn [andb fst]; [|reflexivity].
  destruct (Dec.gt _ _); cbn [fst];
    [|now destruct (String.eqb m' m)].
  unfold push_distribution.
  destruct (String.eqb_spec m' m) as [->|Hne]; cbn [andb].
  - now rewrite lookup_insert_eq.
  - now rewrite lookup_insert_ne.
Qed.

Lemma split_fold_dist (splits : list CreditSplit)
    (dist : gmap string (list DistributionRecord)) (logs : list LogEntry)
    (m : string) :
  let added := distribution_of now agent basePayout
               <$> filter (fun split => pays m split = true) splits in
  (fold_left step splits (dist, logs)).1 !! m
  = match added with
    | [] => dist !! m
    | _ => Some (default [] (dist !! m) ++ added)%list
    end.
Proof.
  revert dist logs.
  induction splits as [|split splits IH]; intros dist logs; [reflexivity|].
  cbn [fold_left]. destruct (step (dist, logs) split) as [dist1 logs1] eqn:Hs.
  pose proof (split_step_dist dist logs split m) as Hm. rewrite Hs in Hm.
  cbn [fst] in Hm. cbn zeta in IH |- *. rewrite IH.
  destruct (pays m split) eqn:Hp.
  - rewrite filter_cons_True by exact Hp. rewrite Hm. rewrite fmap_cons.
    destruct (distribution_of now agent basePayout <$> _) as [|d ds];
      cbn [default]; [reflexivity|].
    unfold id. now rewrite <- app_assoc.
  - rewrite filter_cons_False by (rewrite Hp; discriminate).
    now rewrite Hm.
Qed.

End CreditSplits.

(** X15. Credit splits only add to what was distributed before.  Under each
    manager the agent's iteration appends, in the order of the scheme's
    splits, one record for every split that names a role and a positive
    percentage, for which [findManager] resolves that manager and whose
    share, the base payout times the percentage over 100, is positive; it
    appends them only when the base payout is positive and the hierarchy
    has rows.  Nothing else changes, and no key appears for a manager who
    receives nothing.  Manager ids are not names that every object
    inherits ([constructor], [toString] and the like), which the maps of
    the model do not know. *)
Theorem credit_splits_distribute
    (scheme : Scheme) (runAsOf now agent : string) (hierarchyData : value)
    (schemeStart runDate : Date) (basePayout : Dec.t)
    (dist : gmap string (list DistributionRecord)) (manager : string) :
  let dist' := (credit_splits scheme runAsOf now agent hierarchyData
                  schemeStart runDate basePayout dist).1 in
  let added :=
    if Dec.gt basePayout Dec.zero
       && match rows_of hierarchyData with [] => false | _ => true end
    then distribution_of now agent basePayout
         <$> filter (fun split =>
                       pays_to agent (rows_of hierarchyData) schemeStart
                         runDate basePayout manager split = true)
               (creditSplits scheme)
    else [] in
  default [] (dist' !! manager)
  = (default [] (dist !! manager) ++ added)%list /\
  (is_Some (dist' !! manager)
   <-> is_Some (dist !! manager) \/ added <> []).
Proof.
  cbn zeta. unfold credit_splits.
  destruct (Dec.gt basePayout Dec.zero); cbn [andb];
    [|rewrite app_nil_r; split; [reflexivity | tauto]].
  destruct (creditSplits scheme) as [|s0 ss] eqn:Hsplits.
  { cbn [andb]. rewrite filter_nil. cbn.
    destruct (match rows_of hierarchyData with [] => false | _ => true end);
      rewrite app_nil_r; split; try reflexivity; tauto. }
  cbn [andb].
  destruct hierarchyData as [| | | | |[|row rows']|]; cbn [rows_of negb fst];
    try (rewrite app_nil_r; split; [reflexivity | tauto]).
  rewrite split_fold_dist. cbn zeta.
  destruct (distribution_of now agent basePayout <$> _) as [|d ds];
    cbn [default].
  - rewrite app_nil_r. split; [reflexivity | tauto].
  - split; [reflexivity|]. split; [intros _; now right | intros _; now eexists].
Qed.


(** ** The result of a run *)

Section GroupingMore.

Lemma group_push_keyed (a : string) (r : value)
    (acc : list (string * list value)) (k : string) (rs : list value)
    (x : value) :
  (k, rs) ∈ group_push a r acc -> x ∈ rs ->
  (k = a /\ x = r) \/ exists rs0, (k, rs0) ∈ acc /\ x ∈ rs0.
Proof.
  induction acc as [|[k0 rs0] acc IH]; cbn [group_push].
  - intros H Hx. apply list_elem_of_singleton in H. injection H as -> ->.
    apply list_elem_of_singleton in Hx. now left.
  - destruct (String.eqb_spec a k0) as [->|Hne].
    + intros H Hx. apply elem_of_cons in H as [[= -> ->]|H].
      * apply elem_of_app in Hx as [Hx|Hx].
        -- right. exists rs0. split; [left | exact Hx].
        -- apply list_elem_of_singleton in Hx. now left.
      * right. exists rs. split; [now right | exact Hx].
    + intros H Hx. apply elem_of_cons in H as [[= -> ->]|H].
      * right. exists rs0. split; [left | exact Hx].
      * destruct (IH H Hx) as [?|(rs1 & ? & ?)]; [now left|].
        right. exists rs1. split; [now right | assumption].
Qed.

Lemma group_push_nonempty (a : string) (r : value)
    (acc : list (string * list value)) :
  (forall k rs, (k, rs) ∈ acc -> rs <> []) ->
  forall k rs, (k, rs) ∈ group_push a r acc -> rs <> [].
Proof.
  induction acc as [|[k0 rs0] acc IH]; cbn [group_push]; intros Hacc k rs H.
  - apply list_elem_of_singleton in H. now injection H as -> ->.
  - destruct (String.eqb a k0).
    + apply elem_of_cons in H as [[= -> ->]|H].
      * now destruct rs0.
      * apply (Hacc k rs). now right.
    + apply elem_of_cons in H as [[= -> ->]|H].
      * apply (Hacc k0 rs0). left.
      * apply (IH (fun k' rs' H' => Hacc k' rs' (list_elem_of_further _ _ _ H'))
                 k rs H).
Qed.

Lemma group_push_flat (a : string) (r : value)
    (acc : list (string * list value)) :
  mjoin (snd <$> group_push a r acc) ≡ₚ r :: mjoin (snd <$> acc).
Proof.
  induction acc as [|[k0 rs0] acc IH]; cbn [group_push]; [reflexivity|].
  destruct (String.eqb a k0); rewrite !fmap_cons; cbn [snd mjoin list_join].
  - rewrite <- app_assoc. cbn [app].
    now rewrite <- Permutation_middle.
  - change (list_join (snd <$> ?l)) with (mjoin (snd <$> l)).
    rewrite IH. now rewrite <- Permutation_middle.
Qed.

Lemma reduce_groups_keyed (agentIdField : string) (records : list value)
    (acc groups : list (string * list value)) :
  reduce_groups agentIdField records acc = Ok groups ->
  (forall k rs x,
      (k, rs) ∈ groups -> x ∈ rs ->
      (x ∈ records /\ agent_key agentIdField x = k) \/
      exists rs0, (k, rs0) ∈ acc /\ x ∈ rs0) /\
  ((forall k rs, (k, rs) ∈ acc -> rs <> []) ->
   forall k rs, (k, rs) ∈ groups -> rs <> []) /\
  mjoin (snd <$> groups) ≡ₚ (mjoin (snd <$> acc) ++ records)%list.
Proof.
  revert acc. induction records as [|r records IH]; intros acc;
    cbn [reduce_groups].
  - intros [= <-]. split; [|split].
    + intros k rs x Hk Hx. right. now exists rs.
    + auto.
    + now rewrite app_nil_r.
  - unfold group_step. fold (agent_key agentIdField r).
    destruct (String.eqb _ "UNKNOWN_AGENT" || String.eqb _ ""); cbn;
      [discriminate|].
    intros Hred. destruct (IH _ Hred) as (IH1 & IH2 & IH3). clear IH.
    split; [|split].
    + intros k rs x Hk Hx.
      destruct (IH1 k rs x Hk Hx) as [[Hin Hkey]|(rs0 & Hk0 & Hx0)].
      * left. split; [now right | exact Hkey].
      * destruct (group_push_keyed _ _ _ _ _ _ Hk0 Hx0) as [[-> ->]|H].
        -- left. split; [left | reflexivity].
        -- now right.
    + intros Hacc. apply IH2. now apply group_push_nonempty.
    + rewrite IH3, group_push_flat. cbn [app].
      now rewrite <- Permutation_middle.
Qed.

Lemma for_in_order_perm {A} (obj : list (string * A)) :
  for_in_order obj ≡ₚ obj.
Proof.
  unfold for_in_order.
  assert (Hperm : forall l : list (Z * (string * A)),
             foldr insert_index [] l ≡ₚ l).
  { induction l as [|y l IH]; cbn [foldr]; [reflexivity|].
    now rewrite insert_index_perm, IH. }
  rewrite Hperm. clear Hperm.
  induction obj as [|kv obj IH]; [reflexivity|].
  cbn [omap list_omap].
  destruct (array_index kv.1) as [n|] eqn:Hidx; cbn [mbind option_bind].
  - rewrite filter_cons_False by (rewrite Hidx; discriminate).
    rewrite fmap_cons. cbn [snd app]. now rewrite IH.
  - rewrite filter_cons_True by exact Hidx.
    rewrite <- Permutation_middle. now rewrite IH.
Qed.

End GroupingMore.

Section AgentLoopMore.

Variables (scheme : Scheme) (fieldMap : gmap string FieldInfo)
  (bm : BaseMapping) (runAsOf now : string) (hierarchyData : value)
  (schemeStart runDate : Date).

Let loop := agents_loop scheme fieldMap bm runAsOf now hierarchyData
              schemeStart runDate.

Lemma outcomes_records (agent : string) (records : list value)
    (outcomes : list RecordOutcome) :
  Forall2 (fun r o => processRecord scheme fieldMap bm now agent r = Ok o)
    records outcomes ->
  pr_record <$> (ro_processed <$> outcomes) = records.
Proof.
  induction 1 as [|r o rs os Hr _ IH]; [reflexivity|].
  rewrite !fmap_cons, IH.
  now apply processRecord_entries in Hr as (-> & _).
Qed.

(** The agents of the loop are the keys of [agentPayouts]. *)
Lemma agents_loop_payouts (groups : list (string * list value))
    (st st' : RunState) :
  loop groups st = Ok st' ->
  forall a,
    is_Some (st_agentPayouts st' !! a) <->
    is_Some (st_agentPayouts st !! a) \/
    exists rs, (a, rs) ∈ groups /\ a <> "UNKNOWN_AGENT".
Proof.
  unfold loop. revert st.
  induction groups as [|[agent records] groups IH]; intros st; cbn [agents_loop].
  - intros [= <-] a. split; [now left|].
    intros [H|(rs & H & _)]; [exact H | inversion H].
  - destruct (agent_step _ _ _ _ _ _ _ _ _ _) as [st1|e] eqn:Hstep; cbn;
      [|discriminate].
    intros Hloop a. rewrite (IH _ Hloop a). clear IH.
    apply agent_step_cases in Hstep as [(-> & -> & _)|(Hne & ar & _ & ->)].
    + split.
      * intros [H|(rs & H & Ha)]; [now left|].
        right. exists rs. split; [now right | exact Ha].
      * intros [H|(rs & H & Ha)]; [now left|].
        apply elem_of_cons in H as [[= -> ->]|H]; [congruence|].
        right. now exists rs.
    + cbn [store_agent st_agentPayouts]. split.
      * intros [H|(rs & H & Ha)].
        -- destruct (decide (a = agent)) as [->|Hna].
           ++ right. exists records. split; [left | exact Hne].
           ++ left. now rewrite lookup_insert_ne in H.
        -- right. exists rs. split; [now right | exact Ha].
      * intros [H|(rs & H & Ha)].
        -- left. destruct (decide (a = agent)) as [->|Hna].
           ++ rewrite lookup_insert_eq. now eexists.
           ++ now rewrite lookup_insert_ne.
        -- apply elem_of_cons in H as [[= -> ->]|H].
           ++ left. rewrite lookup_insert_eq. now eexists.
           ++ right. now exists rs.
Qed.

(** The raw list grows by the records of the groups, in the order of the
    loop. *)
Lemma agents_loop_raw_records (groups : list (string * list value))
    (st st' : RunState) :
  loop groups st = Ok st' ->
  (forall a rs, (a, rs) ∈ groups -> a <> "UNKNOWN_AGENT") ->
  pr_record <$> st_rawRecordLevelData st'
  = ((pr_record <$> st_rawRecordLevelData st) ++ mjoin (snd <$> groups))%list.
Proof.
  unfold loop. revert st.
  induction groups as [|[agent records] groups IH]; intros st; cbn [agents_loop].
  - intros [= <-] _. cbn. now rewrite app_nil_r.
  - destruct (agent_step _ _ _ _ _ _ _ _ _ _) as [st1|e] eqn:Hstep; cbn;
      [|discriminate].
    intros Hloop Hkeys.
    rewrite (IH _ Hloop)
      by (intros a rs H; apply (Hkeys a rs); now right).
    apply agent_step_cases in Hstep as [(-> & _)|(_ & ar & Hrun & ->)].
    { now destruct (Hkeys "UNKNOWN_AGENT" records ltac:(left)). }
    apply run_agent_inv in Hrun as [(os & Hos & Hraw) _].
    cbn [store_agent st_rawRecordLevelData]. rewrite Hraw, fmap_app.
    rewrite (outcomes_records agent records os Hos).
    now rewrite <- app_assoc.
Qed.

End AgentLoopMore.

(** X16. In the result of a run the keys of [agentPayouts] are the agents of
    the selected records: an agent has a payout, be it "0.00", exactly when
    some selected record carries its id in the agent field, trimmed.  Every
    key of [ruleHitLogs] is such an agent. *)
Theorem agentPayouts_keys
    (h : Heap) (runAsOfDate : value) (now runAsOf : string)
    (runDate schemeStart : Date) (bm : BaseMapping) (res : RunResult) :
  validate (heap_scheme h) (heap_uploadedFiles h) runAsOfDate
  = Ok (runAsOf, runDate, schemeStart, bm) ->
  fst (runScheme h runAsOfDate now) = Ok res ->
  (forall a : string,
      is_Some (agentPayouts res !! a) <->
      exists r : value,
        r ∈ selected_in_run h runAsOfDate /\
        agent_key (bm_agentField bm) r = a) /\
  (forall a : string,
      is_Some (ruleHitLogs res !! a) -> is_Some (agentPayouts res !! a)).
Proof.
  intros Hval0 Hrun.
  destruct (runScheme_returns _ _ _ _ Hrun)
    as (runAsOf' & runDate' & schemeStart' & bm' & rows & groups & st
        & Hval & Hrows & Hgroups & Hloop & ->).
  rewrite Hval0 in Hval. injection Hval as <- <- <- <-.
  cbn [agentPayouts ruleHitLogs].
  pose proof (agents_loop_payouts _ _ _ _ _ _ _ _ _ _ _ Hloop) as Hpay.
  cbn [st_agentPayouts] in Hpay.
  destruct (reduce_groups_complete _ _ _ _ Hgroups) as (Hall & _ & Hkeys).
  destruct (reduce_groups_keyed _ _ _ _ Hgroups) as (Hkeyed & Hne & _).
  assert (Hknown : forall k rs, (k, rs) ∈ groups -> k <> "UNKNOWN_AGENT").
  { intros k rs Hk.
    destruct (Hkeys k rs Hk) as [?|(rs0 & H0)]; [assumption | inversion H0]. }
  split.
  - intros a. rewrite Hpay, lookup_empty. split.
    + intros [[x [=]]|(rs & Hin & _)]. apply for_in_order_elem in Hin.
      destruct rs as [|r rs'].
      { exfalso. apply (Hne ltac:(intros ? ? H; inversion H) a [] Hin).
        reflexivity. }
      destruct (Hkeyed a (r :: rs') r Hin ltac:(left))
        as [[Hsel Hkey]|(rs0 & H0 & _)]; [|inversion H0].
      now exists r.
    + intros (r & Hsel & <-). right.
      destruct (Hall r Hsel) as (k & rs & Hk & Hr).
      destruct (Hkeyed k rs r Hk Hr) as [[_ <-]|(rs0 & H0 & _)];
        [|inversion H0].
      exists rs. split; [now apply for_in_order_complete|].
      now apply (Hknown _ rs).
  - intros a Ha. apply Hpay. right.
    destruct (agents_loop_logs _ _ _ _ _ _ _ _ _ _ _ Hloop) as (_ & H2 & _).
    apply H2 in Ha as [[x Hx]|(ar & e & Hin & _)].
    { cbn [st_ruleHitLogs] in Hx. rewrite lookup_empty in Hx. discriminate. }
    apply agent_runs_source in Hin as (rs & st0 & Hin & _).
    exists rs. split; [exact Hin|].
    apply for_in_order_elem in Hin. now apply (Hknown _ rs).
Qed.

Lemma agentPayouts_keys_witness :
  exists res : RunResult,
    fst (runScheme example_heap (VStr "2024-12-31") "t0") = Ok res /\
    (forall a : string,
        is_Some (ruleHitLogs res !! a) -> is_Some (agentPayouts res !! a)).
Proof.
  eexists. split; [vm_compute; reflexivity|].
  refine (proj2 (agentPayouts_keys example_heap (VStr "2024-12-31") "t0"
                   "2024-12-31" (mkDate 2024 11 31) (mkDate 2024 11 1)
                   example_mapping _ _ _)).
  - vm_compute. reflexivity.
  - vm_compute. reflexivity.
Defined.

(** X17. A run that returns processes every selected record exactly once:
    the records of [rawRecordLevelData] are the selected records, each as
    often as it was selected, grouped by agent. *)
Theorem rawRecordLevelData_is_the_selection
    (h : Heap) (runAsOfDate : value) (now : string) (res : RunResult) :
  fst (runScheme h runAsOfDate now) = Ok res ->
  pr_record <$> rawRecordLevelData res ≡ₚ selected_in_run h runAsOfDate.
Proof.
  intros Hrun.
  destruct (runScheme_returns _ _ _ _ Hrun)
    as (runAsOf & runDate & schemeStart & bm & rows & groups & st
        & Hval & Hrows & Hgroups & Hloop & ->).
  cbn [rawRecordLevelData].
  destruct (reduce_groups_complete _ _ _ _ Hgroups) as (_ & _ & Hkeys).
  destruct (reduce_groups_keyed _ _ _ _ Hgroups) as (_ & _ & Hflat).
  rewrite (agents_loop_raw_records _ _ _ _ _ _ _ _ _ _ _ Hloop).
  - cbn [st_rawRecordLevelData fmap list_fmap app].
    now rewrite for_in_order_perm, Hflat.
  - intros a rs Hin. apply for_in_order_elem in Hin.
    destruct (Hkeys a rs Hin) as [?|(rs0 & H0)]; [assumption | inversion H0].
Qed.

Lemma rawRecordLevelData_is_the_selection_witness :
  exists res : RunResult,
    fst (runScheme example_heap (VStr "2024-12-31") "t0") = Ok res /\
    pr_record <$> rawRecordLevelData res
    ≡ₚ selected_in_run example_heap (VStr "2024-12-31").
Proof.
  eexists. split; [vm_compute; reflexivity|].
  apply (rawRecordLevelData_is_the_selection example_heap (VStr "2024-12-31")
           "t0").
  vm_compute. reflexivity.
Defined.


(** ** Runs that abort, in general *)

Section Aborts.

Lemma validate_throws (scheme : Scheme) (uploadedFiles runAsOfDate : value)
    (e : exn) :
  validate scheme uploadedFiles runAsOfDate = Throw e ->
  exists msg : string, e = Error msg.
Proof.
  unfold validate, mbind, result_bind.
  repeat match goal with
         | |- context [match ?x with _ => _ end] =>
             match x with
             | context [match _ with _ => _ end] => fail 1
             | _ => destruct x
             end
         end;
    intros [= <-]; eauto.
Qed.

Lemma reduce_groups_throws (agentIdField : string) (records : list value)
    (acc : list (string * list value)) (e : exn) :
  reduce_groups agentIdField records acc = Throw e ->
  e = ReferenceError "_recordId" /\
  exists r, r ∈ records /\ ~ has_agent agentIdField r.
Proof.
  revert acc. induction records as [|r records IH]; intros acc;
    cbn [reduce_groups]; [discriminate|].
  unfold group_step.
  set (a := trim (js_String (safeGet r agentIdField (VStr "UNKNOWN_AGENT")))).
  destruct (String.eqb a "UNKNOWN_AGENT" || String.eqb a "") eqn:Ha; cbn.
  - intros [= <-]. split; [reflexivity|]. exists r. split; [left|].
    unfold has_agent. fold a. intros [H1 H2].
    apply orb_true_iff in Ha as [Ha|Ha]; apply String.eqb_eq in Ha;
      contradiction.
  - intros H. destruct (IH _ H) as (-> & x & Hx & Hno).
    split; [reflexivity|]. exists x. split; [now right | exact Hno].
Qed.

Variables (scheme : Scheme) (fieldMap : gmap string FieldInfo)
  (bm : BaseMapping) (runAsOf now : string) (hierarchyData : value)
  (schemeStart runDate : Date).

Lemma process_records_throws (agent : string) (records : list value)
    (acc : AgentAcc) (e : exn) :
  process_records scheme fieldMap bm now agent records acc = Throw e ->
  exists r, r ∈ records /\ ~ has_amount (bm_amountField bm) r /\
            e = DecimalError (safeGet r (bm_amountField bm) (VNum Dec.zero)).
Proof.
  revert acc. induction records as [|r records IH]; intros acc;
    cbn [process_records]; [discriminate|].
  destruct (processRecord scheme fieldMap bm now agent r) as [o|e'] eqn:Hr;
    cbn.
  - intros H. destruct (IH _ H) as (x & Hx & Hno & ->).
    exists x. split; [now right | now split].
  - intros [= ->]. exists r. split; [left|].
    unfold processRecord, newDecimal, has_amount in *.
    destruct (toDecimal _) as [d|]; cbn in Hr.
    + destruct (exclusion_loop _ _ _ _); discriminate Hr.
    + injection Hr as <-. split; [intros [d [=]] | reflexivity].
Qed.

Lemma agents_loop_throws (groups : list (string * list value))
    (st : RunState) (e : exn) :
  agents_loop scheme fieldMap bm runAsOf now hierarchyData schemeStart runDate
    groups st = Throw e ->
  exists a rs r,
    (a, rs) ∈ groups /\ r ∈ rs /\ ~ has_amount (bm_amountField bm) r /\
    e = DecimalError (safeGet r (bm_amountField bm) (VNum Dec.zero)).
Proof.
  revert st. induction groups as [|[agent records] groups IH]; intros st;
    cbn [agents_loop]; [discriminate|].
  destruct (agent_step _ _ _ _ _ _ _ _ _ _) as [st1|e'] eqn:Hstep; cbn.
  - intros H. destruct (IH _ H) as (a & rs & r & Hin & Hr & Hno & ->).
    exists a, rs, r. split; [now right | now repeat split].
  - intros [= ->]. unfold agent_step in Hstep.
    destruct (String.eqb agent "UNKNOWN_AGENT"); [discriminate|].
    unfold run_agent in Hstep.
    destruct (process_records _ _ _ _ _ _ _) as [acc|e'] eqn:Hproc;
      cbn in Hstep.
    + destruct (agent_qualification _ _ _ _ _ _).
      destruct (credit_splits _ _ _ _ _ _ _ _ _). discriminate Hstep.
    + injection Hstep as <-.
      apply process_records_throws in Hproc as (r & Hr & Hno & ->).
      exists agent, records, r. split; [left | now repeat split].
Qed.

End Aborts.

(** X18. A run aborts in one of four ways.  A configuration that fails
    validation gives an [Error] and leaves the scheme as it was.  After
    validation, the error is the "Base data file ... not found" [Error]
    when the base dataset is not an array, a ReferenceError for
    [_recordId] only when some selected record names no agent, and
    otherwise a DecimalError that carries the amount, unreadable as a
    decimal, of a selected record.  The scheme is one whose percentages and
    adjustment values are decimals, as [Scheme] types them, and the agent
    and manager ids are not names that every object inherits
    ([constructor], [toString] and the like), which the maps of the model
    do not know. *)
Theorem runScheme_errors
    (h : Heap) (runAsOfDate : value) (now : string) (e : exn) :
  fst (runScheme h runAsOfDate now) = Throw e ->
  (validate (heap_scheme h) (heap_uploadedFiles h) runAsOfDate = Throw e /\
   (exists msg : string, e = Error msg) /\
   snd (runScheme h runAsOfDate now) = h) \/
  exists (runAsOf : string) (runDate schemeStart : Date) (bm : BaseMapping),
    validate (heap_scheme h) (heap_uploadedFiles h) runAsOfDate
    = Ok (runAsOf, runDate, schemeStart, bm) /\
    (((forall rows : list value,
          safeGet (heap_uploadedFiles h) (bm_sourceFile bm) VUndef
          <> VArr rows) /\
      e = Error ("Base data file " ++ bm_sourceFile bm
                 ++ " not found or is not an array in uploadedFiles.")) \/
     (e = ReferenceError "_recordId" /\
      exists r : value,
        r ∈ selected_in_run h runAsOfDate /\
        ~ has_agent (bm_agentField bm) r) \/
     (exists r : value,
         r ∈ selected_in_run h runAsOfDate /\
         ~ has_amount (bm_amountField bm) r /\
         e = DecimalError
               (safeGet r (bm_amountField bm) (VNum Dec.zero)))).
Proof.
  unfold runScheme, selected_in_run.
  destruct (validate (heap_scheme h) (heap_uploadedFiles h) runAsOfDate)
    as [[[[runAsOf runDate] schemeStart] bm]|e'] eqn:Hval; cbn [fst snd].
  - intros Hrun. right. exists runAsOf, runDate, schemeStart, bm.
    split; [reflexivity|]. unfold run_body in Hrun.
    destruct (safeGet (heap_uploadedFiles h) (bm_sourceFile bm) VUndef)
      as [| | | | |rows|] eqn:Hrows;
      try (left; split; [discriminate | now injection Hrun as <-]).
    right. cbn [rows_of].
    destruct (recordsByAgent _ _) as [groups|e'] eqn:Hgroups; cbn in Hrun.
    + right.
      destruct (agents_loop _ _ _ _ _ _ _ _ _ _) as [st|e'] eqn:Hloop;
        cbn in Hrun; [discriminate|]. injection Hrun as ->.
      apply agents_loop_throws in Hloop
        as (a & rs & r & Hin & Hr & Hno & ->).
      exists r. split; [|now split].
      apply for_in_order_elem in Hin.
      destruct (reduce_groups_elem _ _ _ _ _ _ _ Hgroups Hin Hr)
        as [H|(rs0 & H & _)]; [exact H | inversion H].
    + left. injection Hrun as ->.
      apply reduce_groups_throws in Hgroups as (-> & r & Hr & Hno).
      split; [reflexivity|]. now exists r.
  - intros [= ->]. left. split; [reflexivity|]. split; [|reflexivity].
    now apply validate_throws in Hval.
Qed.

Lemma runScheme_errors_witness :
  exists r : value,
    r ∈ selected_in_run
          (mkHeap (demo_scheme (Some []))
             (demo_files
                [demo_row (VStr "101") (VStr "12,5") (VStr "2024-12-05")]))
          (VStr "2024-12-31") /\
    ~ has_amount "Amount" r.
Proof.
  destruct (runScheme_errors
              (mkHeap (demo_scheme (Some []))
                 (demo_files
                    [demo_row (VStr "101") (VStr "12,5")
                       (VStr "2024-12-05")]))
              (VStr "2024-12-31") "t0" (DecimalError (VStr "12,5")))
    as [(_ & (msg & Hmsg) & _)
       |(runAsOf & runDate & schemeStart & bm & Hval
         & [(_ & He)|[(He & _)|(r & Hr & Hno & _)]])].
  - vm_compute. reflexivity.
  - discriminate Hmsg.
  - discriminate He.
  - discriminate He.
  - vm_compute in Hval. injection Hval as _ _ _ <-.
    exists r. split; assumption.
Defined.


(** ** The identity of a record *)

Section RecordIdentity.

Lemma assoc_get_set_ne (k k' : string) (v : value)
    (fs : list (string * value)) :
  k <> k' -> assoc_get k (assoc_set k' v fs) = assoc_get k fs.
Proof.
  intros Hne. induction fs as [|[k0 v0] fs IH]; cbn.
  - now rewrite (proj2 (String.eqb_neq _ _) Hne).
  - destruct (String.eqb_spec k' k0) as [->|Hk0]; cbn.
    + now rewrite (proj2 (String.eqb_neq _ _) Hne).
    + destruct (String.eqb k k0); [reflexivity | exact IH].
Qed.

End RecordIdentity.

(** X19. Selection gives every record of the base dataset an identity and
    keeps its data.  The record at position [i] of the file gets
    [_recordId], the file name, a dash and [i], and [_originalIndex] [i],
    whatever it carried under these two names before; every other property
    reads as in the original.  Two positions of the dataset never share a
    [_recordId]. *)
Theorem record_identity (baseDataFile : string) :
  (forall (i : nat) (fs : list (string * value)),
      let r := with_identity baseDataFile i (VObj fs) in
      get_prop r "_recordId" = VStr (baseDataFile ++ "-" ++ pretty i) /\
      get_prop r "_originalIndex" = VNum (Dec.of_Z (Z.of_nat i)) /\
      forall k : string,
        k <> "_recordId" -> k <> "_originalIndex" ->
        get_prop r k = get_prop (VObj fs) k) /\
  (forall (rows : list value) (i j : nat) (r1 r2 : value),
      imap (with_identity baseDataFile) rows !! i = Some r1 ->
      imap (with_identity baseDataFile) rows !! j = Some r2 ->
      get_prop r1 "_recordId" = get_prop r2 "_recordId" -> i = j).
Proof.
  split.
  - intros i fs. cbn zeta. split; [apply with_identity_recordId|].
    unfold with_identity. cbn [get_prop own_props]. split.
    + rewrite assoc_get_set_ne by discriminate.
      now rewrite assoc_get_set.
    + intros k H1 H2. now rewrite !assoc_get_set_ne.
  - intros rows i j r1 r2 H1 H2.
    rewrite list_lookup_imap in H1, H2.
    destruct (rows !! i) as [x|]; [|discriminate].
    destruct (rows !! j) as [y|]; [|discriminate].
    cbn in H1, H2. injection H1 as <-. injection H2 as <-.
    rewrite !with_identity_recordId. intros [= H].
    now apply recordId_of_inj in H.
Qed.

Lemma record_identity_witness :
  imap (with_identity "sales")
    [demo_row (VStr "101") (VNum (Dec.of_Z 100)) (VStr "2024-12-05");
     demo_row (VStr "102") (VNum (Dec.of_Z 250)) (VStr "2024-12-06")]
  !! 1%nat
  = Some (with_identity "sales" 1
            (demo_row (VStr "102") (VNum (Dec.of_Z 250)) (VStr "2024-12-06")))
  /\ 1%nat = 1%nat.
Proof.
  split; [reflexivity|].
  apply (proj2 (record_identity "sales")
           [demo_row (VStr "101") (VNum (Dec.of_Z 100)) (VStr "2024-12-05");
            demo_row (VStr "102") (VNum (Dec.of_Z 250)) (VStr "2024-12-06")]
           1%nat 1%nat
           (with_identity "sales" 1
              (demo_row (VStr "102") (VNum (Dec.of_Z 250))
                 (VStr "2024-12-06")))
           (with_identity "sales" 1
              (demo_row (VStr "102") (VNum (Dec.of_Z 250))
                 (VStr "2024-12-06"))));
    reflexivity.
Defined.


(** ** Custom rules *)

Section CustomRules.

Variables (scheme : Scheme) (rules : list value).

Let scheme' := with_customRules rules scheme.

Variables (fieldMap : gmap string FieldInfo) (bm : BaseMapping)
  (runAsOf now : string) (hierarchyData : value) (schemeStart runDate : Date).

Lemma processRecord_custom (agent : string) (record : value) :
  same_outcome
    (fun o o' => ro_logs o = ro_logs o' /\ ro_credited o = ro_credited o' /\
                 forget_custom (ro_processed o)
                 = forget_custom (ro_processed o'))
    (processRecord scheme fieldMap bm now agent record)
    (processRecord scheme' fieldMap bm now agent record).
Proof.
  unfold processRecord, newDecimal, scheme'.
  destruct (toDecimal _) as [d|]; cbn; [|reflexivity].
  destruct (exclusion_loop _ _ _ _); cbn; repeat split; reflexivity.
Qed.

Let acc_alike (acc acc' : AgentAcc) : Prop :=
  acc_total acc = acc_total acc' /\ acc_logs acc = acc_logs acc' /\
  forget_custom <$> acc_raw acc = forget_custom <$> acc_raw acc'.

Lemma process_records_custom (agent : string) (records : list value)
    (acc acc' : AgentAcc) :
  acc_alike acc acc' ->
  same_outcome acc_alike
    (process_records scheme fieldMap bm now agent records acc)
    (process_records scheme' fieldMap bm now agent records acc').
Proof.
  revert acc acc'. induction records as [|r records IH]; intros acc acc' Hacc;
    cbn [process_records]; [exact Hacc|].
  pose proof (processRecord_custom agent r) as Hr.
  destruct (processRecord scheme fieldMap bm now agent r) as [o|e];
    destruct (processRecord scheme' fieldMap bm now agent r) as [o'|e'];
    cbn in Hr |- *; try contradiction; [|exact Hr].
  apply IH. destruct Hacc as (Ht & Hl & Hraw), Hr as (Hlogs & Hcred & Hp).
  unfold acc_alike, add_outcome. cbn.
  rewrite Ht, Hl, Hlogs, Hcred, !fmap_app, Hraw. cbn. rewrite Hp.
  repeat split; reflexivity.
Qed.

Let state_alike (st st' : RunState) : Prop :=
  st_agentPayouts st = st_agentPayouts st' /\
  st_ruleHitLogs st = st_ruleHitLogs st' /\
  st_creditDistributions st = st_creditDistributions st' /\
  forget_custom <$> st_rawRecordLevelData st
  = forget_custom <$> st_rawRecordLevelData st'.

Lemma agent_step_custom (st st' : RunState) (group : string * list value) :
  state_alike st st' ->
  same_outcome state_alike
    (agent_step scheme fieldMap bm runAsOf now hierarchyData schemeStart
       runDate st group)
    (agent_step scheme' fieldMap bm runAsOf now hierarchyData schemeStart
       runDate st' group).
Proof.
  intros (Hp & Hl & Hd & Hraw). destruct group as [agent records].
  unfold agent_step.
  destruct (String.eqb agent "UNKNOWN_AGENT"); [now repeat split|].
  unfold run_agent.
  pose proof (process_records_custom agent records
                (mkAgentAcc Dec.zero [] (st_rawRecordLevelData st))
                (mkAgentAcc Dec.zero [] (st_rawRecordLevelData st'))
                ltac:(repeat split; assumption)) as Hacc.
  destruct (process_records scheme _ _ _ _ _ _) as [acc|e];
    destruct (process_records scheme' _ _ _ _ _ _) as [acc'|e'];
    cbn in Hacc |- *; try contradiction; [|exact Hacc].
  destruct Hacc as (Ht & Hlogs & Hraw'). rewrite <- Ht, <- Hd.
  change (agent_qualification scheme' fieldMap bm now agent (acc_total acc))
    with (agent_qualification scheme fieldMap bm now agent (acc_total acc)).
  destruct (agent_qualification scheme fieldMap bm now agent (acc_total acc))
    as [q qualLogs].
  change (payoutTiers scheme') with (payoutTiers scheme).
  match goal with
  | |- context [credit_splits scheme' ?a ?b ?c ?d ?e ?f ?g ?i] =>
      change (credit_splits scheme' a b c d e f g i)
        with (credit_splits scheme a b c d e f g i);
      destruct (credit_splits scheme a b c d e f g i) as [dist splitLogs]
  end.
  cbn. unfold state_alike, store_agent. cbn. rewrite Hp, Hl, Hlogs.
  repeat split; try reflexivity. exact Hraw'.
Qed.

Lemma agents_loop_custom (groups : list (string * list value))
    (st st' : RunState) :
  state_alike st st' ->
  same_outcome state_alike
    (agents_loop scheme fieldMap bm runAsOf now hierarchyData schemeStart
       runDate groups st)
    (agents_loop scheme' fieldMap bm runAsOf now hierarchyData schemeStart
       runDate groups st').
Proof.
  revert st st'. induction groups as [|group groups IH]; intros st st' Hst;
    cbn [agents_loop]; [exact Hst|].
  pose proof (agent_step_custom st st' group Hst) as Hstep.
  destruct (agent_step scheme _ _ _ _ _ _ _ _ _) as [st1|e];
    destruct (agent_step scheme' _ _ _ _ _ _ _ _ _) as [st1'|e'];
    cbn in Hstep |- *; try contradiction; [|exact Hstep].
  now apply IH.
Qed.

End CustomRules.

(** X20. Custom rules are never executed.  Whatever a scheme lists under
    [customRules], the run ends the same way: with the same error, or with
    the same payouts, rule-hit logs and credit distributions and with the
    same processed records but for the note [customRuleApplied] in their
    status. *)
Theorem customRules_are_inert
    (h : Heap) (rules : list value) (runAsOfDate : value) (now : string) :
  same_outcome
    (fun res res' =>
       agentPayouts res = agentPayouts res' /\
       ruleHitLogs res = ruleHitLogs res' /\
       creditDistributions res = creditDistributions res' /\
       forget_custom <$> rawRecordLevelData res
       = forget_custom <$> rawRecordLevelData res')
    (fst (runScheme h runAsOfDate now))
    (fst (runScheme
            (mkHeap (with_customRules rules (heap_scheme h))
               (heap_uploadedFiles h))
            runAsOfDate now)).
Proof.
  unfold runScheme. cbn [heap_scheme heap_uploadedFiles].
  change (validate (with_customRules rules (heap_scheme h))
            (heap_uploadedFiles h) runAsOfDate)
    with (validate (heap_scheme h) (heap_uploadedFiles h) runAsOfDate).
  destruct (validate (heap_scheme h) (heap_uploadedFiles h) runAsOfDate)
    as [[[[runAsOf runDate] schemeStart] bm]|e]; cbn [fst];
    [|reflexivity].
  assert (Hens : ensure_payoutTiers (with_customRules rules (heap_scheme h))
                 = with_customRules rules
                     (ensure_payoutTiers (heap_scheme h))).
  { destruct (heap_scheme h) as [? ? ? [tiers|] ? ? ? ? ? ? ?]; reflexivity. }
  rewrite Hens. set (scheme := ensure_payoutTiers (heap_scheme h)).
  unfold run_body.
  change (hierarchyData_of (with_customRules rules scheme))
    with (hierarchyData_of scheme).
  change (build_fieldMap (with_customRules rules scheme))
    with (build_fieldMap scheme).
  change (qualifiedRecords (with_customRules rules scheme))
    with (qualifiedRecords scheme).
  destruct (safeGet (heap_uploadedFiles h) (bm_sourceFile bm) VUndef);
    try reflexivity.
  destruct (recordsByAgent _ _) as [groups|e]; cbn; [|reflexivity].
  pose proof (agents_loop_custom scheme rules (build_fieldMap scheme bm) bm
                runAsOf now (hierarchyData_of scheme (heap_uploadedFiles h))
                schemeStart runDate (for_in_order groups)
                (mkRunState ∅ ∅ ∅ []) (mkRunState ∅ ∅ ∅ [])
                ltac:(repeat split)) as Hloop.
  destruct (agents_loop scheme _ _ _ _ _ _ _ _ _) as [st|e];
    destruct (agents_loop (with_customRules rules scheme) _ _ _ _ _ _ _ _ _)
      as [st'|e'];
    cbn in Hloop |- *; try contradiction; exact Hloop.
Qed.


(** ** Runs without a hierarchy *)

Section NoHierarchy.

Variables (scheme : Scheme) (fieldMap : gmap string FieldInfo)
  (bm : BaseMapping) (runAsOf now : string) (hierarchyData : value)
  (schemeStart runDate : Date).

Hypothesis Hidle : creditSplits scheme = [] \/ rows_of hierarchyData = [].

Lemma credit_splits_idle (agent : string) (basePayout : Dec.t)
    (dist : gmap string (list DistributionRecord)) :
  (credit_splits scheme runAsOf now agent hierarchyData schemeStart runDate
     basePayout dist).1 = dist.
Proof.
  unfold credit_splits.
  destruct (Dec.gt basePayout Dec.zero); cbn [andb]; [|reflexivity].
  destruct Hidle as [->|Hrows]; [reflexivity|].
  destruct (creditSplits scheme); cbn [andb]; [reflexivity|].
  destruct hierarchyData as [| | | | |[|row rows]|]; try reflexivity.
  discriminate Hrows.
Qed.

Lemma agents_loop_idle (groups : list (string * list value))
    (st st' : RunState) :
  agents_loop scheme fieldMap bm runAsOf now hierarchyData schemeStart runDate
    groups st = Ok st' ->
  st_creditDistributions st' = st_creditDistributions st.
Proof.
  revert st. induction groups as [|[agent records] groups IH]; intros st;
    cbn [agents_loop]; [now intros [= <-]|].
  destruct (agent_step _ _ _ _ _ _ _ _ _ _) as [st1|e] eqn:Hstep; cbn;
    [|discriminate].
  intros Hloop. rewrite (IH _ Hloop). clear IH Hloop.
  unfold agent_step in Hstep.
  destruct (String.eqb agent "UNKNOWN_AGENT"); [now injection Hstep as <-|].
  unfold run_agent in Hstep.
  destruct (process_records _ _ _ _ _ _ _) as [acc|e]; cbn in Hstep;
    [|discriminate].
  destruct (agent_qualification _ _ _ _ _ _) as [q qualLogs].
  match type of Hstep with
  | context [credit_splits ?a ?b ?c ?d ?e ?f ?g ?i ?j] =>
      pose proof (credit_splits_idle d i j) as Hd;
      destruct (credit_splits a b c d e f g i j) as [dist splitLogs]
  end.
  cbn in Hstep, Hd. injection Hstep as <-. exact Hd.
Qed.

End NoHierarchy.

(** X21. Without credit splits, or without rows in the hierarchy dataset
    (no hierarchy file named, the file not uploaded, not an array or
    empty), a run distributes nothing: [creditDistributions] is empty. *)
Theorem no_distribution_without_hierarchy
    (h : Heap) (runAsOfDate : value) (now : string) (res : RunResult) :
  fst (runScheme h runAsOfDate now) = Ok res ->
  creditSplits (heap_scheme h) = [] \/
  rows_of (hierarchyData_of (heap_scheme h) (heap_uploadedFiles h)) = [] ->
  creditDistributions res = ∅.
Proof.
  intros Hrun Hidle.
  destruct (runScheme_returns _ _ _ _ Hrun)
    as (runAsOf & runDate & schemeStart & bm & rows & groups & st
        & Hval & Hrows & Hgroups & Hloop & ->).
  cbn [creditDistributions].
  apply agents_loop_idle in Hloop; [exact Hloop|].
  destruct (heap_scheme h) as [? ? ? [tiers|] ? ? ? ? ? ? ?]; exact Hidle.
Qed.

Lemma no_distribution_without_hierarchy_witness :
  exists res : RunResult,
    fst (runScheme
           (mkHeap (demo_scheme (Some []))
              (demo_files
                 [demo_row (VStr "101") (VNum (Dec.of_Z 100))
                    (VStr "2024-12-05")]))
           (VStr "2024-12-31") "t0") = Ok res /\
    creditDistributions res = ∅.
Proof.
  eexists. split; [vm_compute; reflexivity|].
  apply (no_distribution_without_hierarchy
           (mkHeap (demo_scheme (Some []))
              (demo_files
                 [demo_row (VStr "101") (VNum (Dec.of_Z 100))
                    (VStr "2024-12-05")]))
           (VStr "2024-12-31") "t0").
  - vm_compute. reflexivity.
  - left. reflexivity.
Defined.
